(** * agent-demo: the server's tool registry, file tools, configuration
    interpolation, skill scanner and chat endpoint (src/server/index.ts)

    The development is a shallow embedding of the TypeScript server.  Part I
    holds the definitions, one module per region of the source; Part II holds
    the lemmas about them and the theorems for the specification's claims;
    Part III holds further properties of the code, marked X1, X2, ...

    Conventions.  JavaScript strings are [string]; a plain object used as a
    dictionary is a [gmap string _]; an exception is the [Throw] case of
    [result]; the file system the [fs] module acts on is an explicit state
    that the tools thread through. *)

From Stdlib Require Import String Ascii List Bool Arith Lia.
From stdpp Require Import base strings gmap list pretty.

Open Scope string_scope.
Open Scope list_scope.

#[local] Arguments String.append !_ _ / : simpl nomatch.
#[local] Set Warnings "-register-all".

(* ====================================================================== *)
(** * Part I: definitions                                                  *)
(* ====================================================================== *)

(** ** JavaScript string primitives used by the server *)
Module JsString.

(** [s.startsWith(p)] *)
Fixpoint startsWith (s p : string) {struct p} : bool :=
  match p with
  | EmptyString => true
  | String a p' =>
      match s with
      | String b s' => Ascii.eqb a b && startsWith s' p'
      | EmptyString => false
      end
  end.

(** [s.includes(k)]: some suffix of [s] starts with [k]. *)
Fixpoint includes (s k : string) : bool :=
  startsWith s k ||
  match s with
  | EmptyString => false
  | String _ s' => includes s' k
  end.

(** [s.split(sep)] for a one-character separator. *)
Fixpoint split (sep : ascii) (s : string) : list string :=
  match s with
  | EmptyString => [EmptyString]
  | String c s' =>
      if Ascii.eqb c sep then EmptyString :: split sep s'
      else match split sep s' with
           | seg :: rest => String c seg :: rest
           | [] => [String c EmptyString]
           end
  end.

(** [parts.join(sep)] *)
Fixpoint join (sep : string) (parts : list string) : string :=
  match parts with
  | [] => EmptyString
  | [p] => p
  | p :: rest => p +:+ sep +:+ join sep rest
  end.

(** Truthiness of a string value: only the empty string is falsy. *)
Definition truthy (s : string) : bool :=
  match s with EmptyString => false | _ => true end.

End JsString.

(** ** node:path (POSIX flavour) *)
Module Path.
Import JsString.

Definition sep : string := "/".

(** [path.isAbsolute(p)] *)
Definition isAbsolute (p : string) : bool :=
  match p with
  | String c _ => Ascii.eqb c "/"
  | EmptyString => false
  end.

(** The segment walk of node's [normalizeString]: empty segments and [.]
    are dropped, [..] removes the segment before it, and a [..] that has
    nothing to remove is kept only when [allowAboveRoot].  [acc] is the
    result so far, last segment first. *)
Fixpoint normalizeSegments (allowAboveRoot : bool)
         (acc : list string) (segs : list string) : list string :=
  match segs with
  | [] => rev acc
  | seg :: rest =>
      if String.eqb seg "" || String.eqb seg "." then
        normalizeSegments allowAboveRoot acc rest
      else if String.eqb seg ".." then
        match acc with
        | last :: acc' =>
            if String.eqb last ".."
            then normalizeSegments allowAboveRoot
                   (if allowAboveRoot then ".." :: acc else acc) rest
            else normalizeSegments allowAboveRoot acc' rest
        | [] =>
            normalizeSegments allowAboveRoot
              (if allowAboveRoot then [".."] else []) rest
        end
      else normalizeSegments allowAboveRoot (seg :: acc) rest
  end.

Definition normalizeString (p : string) (allowAboveRoot : bool) : string :=
  JsString.join "/" (normalizeSegments allowAboveRoot [] (split "/" p)).

Definition endsWithSlash (p : string) : bool :=
  match rev (list_ascii_of_string p) with
  | c :: _ => Ascii.eqb c "/"
  | [] => false
  end.

(** [path.normalize(p)] *)
Definition normalize (p : string) : string :=
  if String.eqb p "" then "."
  else
    let abs := isAbsolute p in
    let trailing := endsWithSlash p in
    let q := normalizeString p (negb abs) in
    if String.eqb q "" then
      (if abs then "/" else if trailing then "./" else ".")
    else
      let q' := if trailing then q +:+ "/" else q in
      if abs then "/" +:+ q' else q'.

(** [path.join(a, b)]: empty arguments are skipped, the rest is joined
    with [/] and normalised. *)
Definition join (a b : string) : string :=
  let joined :=
    if String.eqb a "" then b
    else if String.eqb b "" then a
    else a +:+ "/" +:+ b in
  if String.eqb joined "" then "." else normalize joined.

(** The components of the resolved path.  [path.resolve(p)] takes [p]
    itself when it is absolute and [cwd/p] otherwise ([cwd], the process
    working directory, is absolute), and walks its segments without going
    above the root. *)
Definition components (cwd p : string) : list string :=
  normalizeSegments false []
    (split "/" (if isAbsolute p then p else cwd +:+ "/" +:+ p)).

(** [path.resolve(p)] *)
Definition resolve (cwd p : string) : string :=
  "/" +:+ JsString.join "/" (components cwd p).

(** [path.dirname(p)]: trailing slashes are ignored, then everything from
    the last slash on is cut; a path with no directory part gives [/] or
    [.]. *)
Fixpoint dropTrailingSlashes (rev_chars : list ascii) : list ascii :=
  match rev_chars with
  | c :: rest => if Ascii.eqb c "/" then dropTrailingSlashes rest else rev_chars
  | [] => []
  end.

Fixpoint dropLastSegment (rev_chars : list ascii) : list ascii :=
  match rev_chars with
  | c :: rest => if Ascii.eqb c "/" then rev_chars else dropLastSegment rest
  | [] => []
  end.

Definition dirname (p : string) : string :=
  if String.eqb p "" then "."
  else
    let hasRoot := isAbsolute p in
    let body := dropTrailingSlashes (rev (list_ascii_of_string p)) in
    let upto := dropLastSegment body in
    match upto with
    | [] => if hasRoot then "/" else "."
    | _ :: before =>
        match before with
        | [] => if hasRoot then "/" else "."
        | [_] => if hasRoot then "//" else string_of_list_ascii (rev before)
        | _ => string_of_list_ascii (rev before)
        end
    end.

(** [path.basename(p)]: the last non-empty segment. *)
Definition basename (p : string) : string :=
  match List.filter (fun s => negb (String.eqb s "")) (rev (split "/" p)) with
  | seg :: _ => seg
  | [] => ""
  end.

End Path.

(** ** Exceptions *)

(** A call either returns a value or throws an error carrying a message
    ([error.message] in the handlers). *)
Inductive result (A : Type) : Type :=
| Ok (a : A)
| Throw (message : string).
Arguments Ok {A} a.
Arguments Throw {A} message.

(** ** node:fs, as far as the server uses it *)
Module Fs.

(** An entry is a regular file with its content or a directory. *)
Inductive node : Type :=
| File (content : string)
| Dir.

(** The file system maps the components of an absolute path to the entry
    stored there; the root, with no components, is always a directory.
    Symbolic links and permissions are not part of this state. *)
Abbreviation fs := (gmap (list string) node).

Definition lookupComponents (st : fs) (cs : list string) : option node :=
  match cs with
  | [] => Some Dir
  | _ => st !! cs
  end.

(** The codes of the errors the calls throw, and the text node gives
    them. *)
Inductive Errno : Type := ENOENT | ENOTDIR | EISDIR | EEXIST | EPERM.

Definition describe (code : Errno) : string :=
  match code with
  | ENOENT => "ENOENT: no such file or directory"
  | ENOTDIR => "ENOTDIR: not a directory"
  | EISDIR => "EISDIR: illegal operation on a directory"
  | EEXIST => "EEXIST: file already exists"
  | EPERM => "EPERM: operation not permitted"
  end.

(** [error.message] of a failed call: the code, its text, the system call
    and the path as it was given. *)
Definition errorMessage (code : Errno) (syscall p : string) : string :=
  describe code +:+ ", " +:+ syscall +:+ " '" +:+ p +:+ "'".

(** Path resolution as the kernel does it.  The segments of the path are
    taken one by one from the entry [here]; every segment, also an empty
    one, [.] and [..], is looked up in [here], which therefore has to be a
    directory: a regular file gives [ENOTDIR], a missing entry [ENOENT].
    An empty segment and [.] stay in [here], [..] goes to the directory
    that holds [here], a name goes to the entry of that name, which may be
    missing when the name is the last segment. *)
Fixpoint walk (st : fs) (here : list string) (segs : list string)
  : Errno + list string :=
  match segs with
  | [] => inr here
  | seg :: rest =>
      match lookupComponents st here with
      | Some Dir =>
          if String.eqb seg "" || String.eqb seg "." then walk st here rest
          else if String.eqb seg ".." then walk st (removelast here) rest
          else walk st (here ++ [seg]) rest
      | Some (File _) => inl ENOTDIR
      | None => inl ENOENT
      end
  end.

(** The walk of [fs.mkdirSync(p, { recursive: true })]: the same steps,
    and a name whose entry is missing gets a directory.  The call fails on
    a regular file: with [ENOTDIR] when the file stands on the way, with
    [EEXIST] when it is where the walk ends.  The second component is the
    file system the call leaves behind, with the directories made before a
    failure. *)
Fixpoint mkdirWalk (st : fs) (here : list string) (segs : list string)
  : option Errno * fs :=
  match segs with
  | [] =>
      match lookupComponents st here with
      | Some Dir => (None, st)
      | Some (File _) => (Some EEXIST, st)
      | None => (Some ENOENT, st)
      end
  | seg :: rest =>
      match lookupComponents st here with
      | Some Dir =>
          if String.eqb seg "" || String.eqb seg "." then mkdirWalk st here rest
          else if String.eqb seg ".." then mkdirWalk st (removelast here) rest
          else
            let next := here ++ [seg] in
            match st !! next with
            | Some _ => mkdirWalk st next rest
            | None => mkdirWalk (<[next := Dir]> st) next rest
            end
      | Some (File _) => (Some ENOTDIR, st)
      | None => (Some ENOENT, st)
      end
  end.

Section WithCwd.
(** The working directory of the process, an absolute path. *)
Variable cwd : string.

(** The segments the kernel walks for [p]: those of [p] from the root
    when [p] is absolute, those of the working directory followed by
    those of [p] otherwise. *)
Definition segments (p : string) : list string :=
  JsString.split "/" (if Path.isAbsolute p then p else cwd +:+ "/" +:+ p).

(** The components of the entry that [p] leads to; the empty path leads
    nowhere. *)
Definition resolveEntry (st : fs) (p : string) : Errno + list string :=
  if String.eqb p "" then inl ENOENT else walk st [] (segments p).

(** The entry stored where [p] leads to. *)
Definition lookupPath (st : fs) (p : string) : option node :=
  match resolveEntry st p with
  | inr cs => lookupComponents st cs
  | inl _ => None
  end.

(** The code of the error for a path that leads to no entry. *)
Definition failure (st : fs) (p : string) : Errno :=
  match resolveEntry st p with
  | inl code => code
  | inr _ => ENOENT
  end.

(** [fs.existsSync(p)] *)
Definition existsSync (st : fs) (p : string) : bool :=
  match lookupPath st p with
  | Some _ => true
  | None => false
  end.

(** [fs.statSync(p).isDirectory()] *)
Definition statIsDirectory (st : fs) (p : string) : result bool :=
  match lookupPath st p with
  | Some Dir => Ok true
  | Some (File _) => Ok false
  | None => Throw (errorMessage (failure st p) "stat" p)
  end.

(** [fs.readFileSync(p, 'utf-8')] *)
Definition readFileSync (st : fs) (p : string) : result string :=
  match lookupPath st p with
  | Some (File content) => Ok content
  | Some Dir => Throw "EISDIR: illegal operation on a directory, read"
  | None => Throw (errorMessage (failure st p) "open" p)
  end.

(** [fs.unlinkSync(p)]: removes the regular file that [p] leads to. *)
Definition unlinkSync (st : fs) (p : string) : result fs :=
  match resolveEntry st p with
  | inr cs =>
      match lookupComponents st cs with
      | Some (File _) => Ok (delete cs st)
      | Some Dir => Throw (errorMessage EPERM "unlink" p)
      | None => Throw (errorMessage ENOENT "unlink" p)
      end
  | inl code => Throw (errorMessage code "unlink" p)
  end.

(** [fs.writeFileSync(p, data, 'utf-8')]: the regular file that [p] leads
    to gets the content [data]; when [p] leads to no entry, the walk has
    found the directory that holds it and the file is created there. *)
Definition writeFileSync (st : fs) (p data : string) : result fs :=
  match resolveEntry st p with
  | inr cs =>
      match lookupComponents st cs with
      | Some Dir => Throw (errorMessage EISDIR "open" p)
      | _ => Ok (<[cs := File data]> st)
      end
  | inl code => Throw (errorMessage code "open" p)
  end.

(** [fs.mkdirSync(p, { recursive: true })], with the file system it
    leaves behind. *)
Definition mkdirSyncRecursive (st : fs) (p : string) : result unit * fs :=
  if String.eqb p "" then (Throw (errorMessage ENOENT "mkdir" p), st)
  else
    match mkdirWalk st [] (segments p) with
    | (None, st') => (Ok tt, st')
    | (Some code, st') => (Throw (errorMessage code "mkdir" p), st')
    end.

End WithCwd.

End Fs.

(** ** The file tools: readFile, writeFile, deleteFile *)
Module FileTools.
Import Fs.

(** What a tool's [execute] returns: [{ error }], [{ content }] or
    [{ success: true, message }]. *)
Inductive ToolResult : Type :=
| ErrorResult (error : string)
| ContentResult (content : string)
| SuccessResult (message : string).

Definition isError (r : ToolResult) : bool :=
  match r with
  | ErrorResult _ => true
  | _ => false
  end.

Section WithRoot.
(** [PROJECT_ROOT] is [path.resolve(__dirname, '..')]; [cwd] is the
    working directory of the server process. *)
Variables (PROJECT_ROOT cwd : string).

(** [path.isAbsolute(p) ? p : path.join(PROJECT_ROOT, p)] *)
Definition toolPath (p : string) : string :=
  if Path.isAbsolute p then p else Path.join PROJECT_ROOT p.

(** [readFileTool.execute] *)
Definition readFile (st : fs) (filename : string) : ToolResult :=
  let filePath := toolPath filename in
  if negb (existsSync cwd st filePath) then
    ErrorResult ("File " +:+ filename +:+ " not found.")
  else
    match readFileSync cwd st filePath with
    | Ok content => ContentResult content
    | Throw message => ErrorResult message
    end.

(** [writeFileTool.execute]; the second component is the file system it
    leaves behind. *)
Definition writeFile (st : fs) (filepath content : string) : ToolResult * fs :=
  let filePath := toolPath filepath in
  let dir := Path.dirname filePath in
  let (made, st1) :=
    if negb (existsSync cwd st dir) then mkdirSyncRecursive cwd st dir
    else (Ok tt, st) in
  match made with
  | Throw message => (ErrorResult message, st1)
  | Ok _ =>
      match writeFileSync cwd st1 filePath content with
      | Ok st2 => (SuccessResult ("File written to " +:+ filePath), st2)
      | Throw message => (ErrorResult message, st1)
      end
  end.

(** [deleteFileTool.execute] *)
Definition deleteFile (st : fs) (filepath : string) : ToolResult * fs :=
  let filePath := toolPath filepath in
  let resolvedPath := Path.resolve cwd filePath in
  let resolvedRoot := Path.resolve cwd PROJECT_ROOT in
  if negb (JsString.startsWith resolvedPath resolvedRoot) then
    (ErrorResult ("Cannot delete file outside project root: " +:+ filepath), st)
  else if negb (existsSync cwd st filePath) then
    (ErrorResult ("File " +:+ filepath +:+ " not found."), st)
  else
    match statIsDirectory cwd st filePath with
    | Throw message => (ErrorResult message, st)
    | Ok true =>
        (ErrorResult (filepath +:+ " is a directory. Use deleteDirectory tool instead."), st)
    | Ok false =>
        match unlinkSync cwd st filePath with
        | Ok st' =>
            (SuccessResult ("File " +:+ filepath +:+ " deleted successfully."), st')
        | Throw message => (ErrorResult message, st)
        end
    end.

End WithRoot.

(** A path lies within the project root when the components of the
    resolved root are a prefix of the components of the resolved path. *)
Fixpoint componentsPrefix (root p : list string) : bool :=
  match root, p with
  | [], _ => true
  | r :: root', c :: p' => String.eqb r c && componentsPrefix root' p'
  | _ :: _, [] => false
  end.

Definition withinRoot (PROJECT_ROOT cwd p : string) : bool :=
  componentsPrefix (Path.components cwd PROJECT_ROOT)
                   (Path.components cwd (toolPath PROJECT_ROOT p)).

End FileTools.

(** ** Global regular-expression replacement *)
Module Regex.

(** [stripPrefix p s]: what follows [p] when [s] starts with it. *)
Fixpoint stripPrefix (p s : string) {struct p} : option string :=
  match p, s with
  | EmptyString, _ => Some s
  | String a p', String b s' =>
      if Ascii.eqb a b then stripPrefix p' s' else None
  | String _ _, EmptyString => None
  end.

Fixpoint dropChars (n : nat) (s : string) : string :=
  match n, s with
  | S k, String _ s' => dropChars k s'
  | _, _ => s
  end.

Fixpoint takeChars (n : nat) (s : string) : string :=
  match n, s with
  | S k, String c s' => String c (takeChars k s')
  | _, _ => EmptyString
  end.

(** The expansion of a replacement string ([GetSubstitution]) for a
    pattern without capture groups: [$$] is a dollar sign, [$&] the
    matched text, [$`] the text before the match and [$'] the text after
    it.  Any other character, and a dollar sign followed by anything
    else, stands for itself. *)
Fixpoint getSubstitution (matched before after repl : string) : string :=
  match repl with
  | EmptyString => EmptyString
  | String c rest =>
      if Ascii.eqb c "$" then
        match rest with
        | String d rest' =>
            if Ascii.eqb d "$" then
              String "$" (getSubstitution matched before after rest')
            else if Ascii.eqb d "&" then
              matched +:+ getSubstitution matched before after rest'
            else if Ascii.eqb d "`" then
              before +:+ getSubstitution matched before after rest'
            else if Ascii.eqb d "'" then
              after +:+ getSubstitution matched before after rest'
            else String c (getSubstitution matched before after rest)
        | EmptyString => String c EmptyString
        end
      else String c (getSubstitution matched before after rest)
  end.

(** A matcher tries the pattern at the start of its argument and, on
    success, gives the number of characters matched (at least one for the
    patterns of this server) with what the match captured. *)
Definition matcher (C : Type) : Type := string -> option (nat * C).

(** [s.replace(/pattern/g, f)]: the string is scanned from the left; where
    the pattern matches, the replacement computed by [f] from the capture,
    the matched text, the text before and the text after is emitted and
    the scan goes on behind the match; elsewhere the character is copied.
    [skip] counts the characters of the current match still to pass, and
    [before] is the text already passed. *)
Fixpoint replaceGo {C : Type} (m : matcher C)
         (f : C -> string -> string -> string -> string)
         (skip : nat) (before s : string) : string :=
  match s with
  | EmptyString => EmptyString
  | String c s' =>
      match skip with
      | S k => replaceGo m f k (before +:+ String c EmptyString) s'
      | O =>
          match m s with
          | Some (n, capture) =>
              f capture (takeChars n s) before (dropChars n s)
                +:+ replaceGo m f (pred n) (before +:+ String c EmptyString) s'
          | None =>
              String c (replaceGo m f O (before +:+ String c EmptyString) s')
          end
      end
  end.

Definition replaceAll {C : Type} (m : matcher C)
           (f : C -> string -> string -> string -> string) (s : string) : string :=
  replaceGo m f O EmptyString s.

(** The matcher of a pattern that is a fixed text, such as
    [/\$\{userHome\}/]. *)
Definition literal (pat : string) : matcher unit :=
  fun s =>
    match stripPrefix pat s with
    | Some _ => Some (String.length pat, tt)
    | None => None
    end.

(** [s.replace(/pat/g, repl)] with a replacement string. *)
Definition replaceLiteral (pat repl s : string) : string :=
  replaceAll (literal pat)
    (fun _ matched before after => getSubstitution matched before after repl) s.

(** [/(k1|k2|...)/.test(s)]: one of the alternatives occurs in [s]. *)
Definition testAlternatives (alternatives : list string) (s : string) : bool :=
  existsb (JsString.includes s) alternatives.

End Regex.

(** ** Configuration interpolation *)
Module Interp.
Import Regex.

(** [splitAtBrace s]: the text before the first closing brace of [s] and
    the text after it. *)
Fixpoint splitAtBrace (s : string) : option (string * string) :=
  match s with
  | EmptyString => None
  | String c s' =>
      if Ascii.eqb c "}" then Some (EmptyString, s')
      else match splitAtBrace s' with
           | Some (name, rest) => Some (String c name, rest)
           | None => None
           end
  end.

(** The matcher of [/\$\{env:([^}]+)\}/]; the capture is the name. *)
Definition envReference : matcher string :=
  fun s =>
    match stripPrefix "${env:" s with
    | Some r =>
        match splitAtBrace r with
        | Some (String c name, _) =>
            Some (6 + String.length (String c name) + 1, String c name)
        | _ => None
        end
    | None => None
    end.

(** [process.env] inherits the properties of [Object.prototype].  A
    built-in function put into a string gives the text
    [function name() { [native code] }], the prototype object gives
    [[object Object]]. *)
Definition nativeFunction (name : string) : string :=
  "function " +:+ name +:+ "() { [native code] }".

Definition objectPrototype : list (string * string) :=
  [("constructor", nativeFunction "Object");
   ("__defineGetter__", nativeFunction "__defineGetter__");
   ("__defineSetter__", nativeFunction "__defineSetter__");
   ("hasOwnProperty", nativeFunction "hasOwnProperty");
   ("__lookupGetter__", nativeFunction "__lookupGetter__");
   ("__lookupSetter__", nativeFunction "__lookupSetter__");
   ("isPrototypeOf", nativeFunction "isPrototypeOf");
   ("propertyIsEnumerable", nativeFunction "propertyIsEnumerable");
   ("toString", nativeFunction "toString");
   ("valueOf", nativeFunction "valueOf");
   ("__proto__", "[object Object]");
   ("toLocaleString", nativeFunction "toLocaleString")].

(** The text of the inherited property [name], if there is one. *)
Definition inherited (name : string) : option string :=
  match List.filter (fun entry => String.eqb entry.1 name) objectPrototype with
  | entry :: _ => Some entry.2
  | [] => None
  end.

Section WithEnvironment.
(** The variables of [process.env], and [os.homedir()] *)
Variable process_env : gmap string string.
Variable homedir : string.

(** [(_, name) => process.env[name] || ''], as the text that [replace]
    puts in: the value of the variable [name] when it is set and not
    empty; for a name that is no variable, the property that
    [process.env] inherits under that name, if there is one. *)
Definition envValue (name : string) : string :=
  match process_env !! name with
  | Some v => if JsString.truthy v then v else ""
  | None => default "" (inherited name)
  end.

Definition interpolateConfig (value workspaceFolder : string) : string :=
  let s1 := replaceAll envReference (fun name _ _ _ => envValue name) value in
  let s2 := replaceLiteral "${userHome}" homedir s1 in
  let s3 := replaceLiteral "${workspaceFolder}" workspaceFolder s2 in
  let s4 := replaceLiteral "${workspaceFolderBasename}"
              (Path.basename workspaceFolder) s3 in
  let s5 := replaceLiteral "${pathSeparator}" Path.sep s4 in
  replaceLiteral "${/}" Path.sep s5.

End WithEnvironment.

End Interp.

(** ** The tool registry *)
Module Registry.

Section Tools.
(** A tool definition: description, input schema and execute function. *)
Context {Tool : Type}.

(** One step [{ ...acc, ...src }] of an object literal: every property
    of [src] is set on the object built so far, replacing a property of
    the same name. *)
Definition spread (acc src : gmap string Tool) : gmap string Tool :=
  src ∪ acc.

Variables calculateTool getCurrentTimeTool readFileTool
          writeFileTool deleteFileTool : Tool.

Definition baseTools : gmap string Tool :=
  <[ "deleteFile" := deleteFileTool ]>
  (<[ "writeFile" := writeFileTool ]>
  (<[ "readFile" := readFileTool ]>
  (<[ "getCurrentTime" := getCurrentTimeTool ]>
  (<[ "calculate" := calculateTool ]> ∅)))).

(** [mcpTools] and [skillTools] are the module-level dictionaries as
    they stand when [getTools] is called. *)
Variables mcpTools skillTools : gmap string Tool.

Definition getTools : gmap string Tool :=
  spread (spread (spread ∅ baseTools) mcpTools) skillTools.

End Tools.

End Registry.

(** ** The environment handed to a stdio MCP server *)
Module McpEnv.

Record MCPStdioConfig : Type := {
  command : string;
  args : option (list string);
  env : option (gmap string string);
  envFile : option string;
}.

(** The line terminators that [.] does not match: line feed, carriage
    return, U+2028 and U+2029 (in a string held as UTF-8 text). *)
Fixpoint hasLineTerminator (s : string) : bool :=
  match s with
  | EmptyString => false
  | String c s' =>
      Ascii.eqb c "010" || Ascii.eqb c "013"
      || JsString.startsWith s (String "226" (String "128" (String "168" EmptyString)))
      || JsString.startsWith s (String "226" (String "128" (String "169" EmptyString)))
      || hasLineTerminator s'
  end.

(** [splitAtEquals s]: the text before the first [=] and the text after. *)
Fixpoint splitAtEquals (s : string) : option (string * string) :=
  match s with
  | EmptyString => None
  | String c s' =>
      if Ascii.eqb c "=" then Some (EmptyString, s')
      else match splitAtEquals s' with
           | Some (key, value) => Some (String c key, value)
           | None => None
           end
  end.

(** The match of a trimmed line against the assignment pattern: a key of
    one or more characters other than [=], the [=] sign, and a value that
    runs to the end of the string without a line terminator.  The result
    holds the two groups. *)
Definition matchAssignment (trimmed : string) : option (string * string) :=
  match splitAtEquals trimmed with
  | Some (String c key, value) =>
      if hasLineTerminator value then None else Some (String c key, value)
  | _ => None
  end.

Definition isQuote (c : ascii) : bool :=
  Ascii.eqb c "034" || Ascii.eqb c "'".

Fixpoint dropFinalQuote (s : string) : string :=
  match s with
  | EmptyString => EmptyString
  | String c EmptyString => if isQuote c then EmptyString else s
  | String c s' => String c (dropFinalQuote s')
  end.

(** The replacement that strips quotes from a value: a single or double
    quote that opens the value and one that closes it are removed. *)
Definition stripQuotes (s : string) : string :=
  match s with
  | String c s' => if isQuote c then dropFinalQuote s' else dropFinalQuote s
  | EmptyString => EmptyString
  end.

Section Env.
(** [String.prototype.trim] *)
Variable trim : string -> string.
Variable cwd : string.

(** The body of the loop over the lines of the file.  The assignment
    [env[key] = value] stores the variable, except for the key
    [__proto__]: that assignment goes to the setter the object inherits,
    which ignores a text, and stores nothing. *)
Definition loadEnvLine (env : gmap string string) (line : string)
  : gmap string string :=
  let trimmed := trim line in
  if JsString.truthy trimmed && negb (JsString.startsWith trimmed "#") then
    match matchAssignment trimmed with
    | Some (m1, m2) =>
        let key := trim m1 in
        let value := stripQuotes (trim m2) in
        if String.eqb key "__proto__" then env else <[ key := value ]> env
    | None => env
    end
  else env.

(** [loadEnvFile(envFilePath, workspaceFolder)] *)
Definition loadEnvFile (st : Fs.fs) (envFilePath workspaceFolder : string)
  : result (gmap string string) :=
  let resolvedPath :=
    if Path.isAbsolute envFilePath then envFilePath
    else Path.join workspaceFolder envFilePath in
  if negb (Fs.existsSync cwd st resolvedPath) then Ok ∅
  else
    match Fs.readFileSync cwd st resolvedPath with
    | Ok content =>
        Ok (fold_left loadEnvLine (JsString.split "010" content) ∅)
    | Throw message => Throw message
    end.

(** The [env] computed in [initializeMCPTools] for a stdio server.
    Spreading an absent [env] gives the empty object. *)
Definition stdioEnv (st : Fs.fs) (PROJECT_ROOT : string)
           (stdioConfig : MCPStdioConfig) : result (gmap string string) :=
  let env0 := Registry.spread ∅ (default ∅ (env stdioConfig)) in
  match envFile stdioConfig with
  | Some file =>
      if JsString.truthy file then
        match loadEnvFile st file PROJECT_ROOT with
        | Ok envFileVars =>
            Ok (Registry.spread (Registry.spread ∅ envFileVars) env0)
        | Throw message => Throw message
        end
      else Ok env0
  | None => Ok env0
  end.
End Env.

End McpEnv.

(** ** The skill scanner: code blocks of a skill descriptor *)
Module Skills.
Import Regex.

Record CodeBlock : Type := {
  language : string;
  code : string;
  index : nat;
}.

(** The part of [SkillInfo] that is computed from the code blocks. *)
Record SkillInfo : Type := {
  codeBlocks : list CodeBlock;
  hasExecutableScripts : bool;
}.

Definition executableLanguages : list string :=
  ["bash"; "sh"; "shell"; "python"; "python3"; "node"; "javascript"; "js";
   "typescript"; "ts"].

(** [\w]: an ASCII letter, a digit or the underscore. *)
Definition isWordChar (c : ascii) : bool :=
  let n := nat_of_ascii c in
  (((48 <=? n) && (n <=? 57)) || ((65 <=? n) && (n <=? 90))
   || ((97 <=? n) && (n <=? 122)) || (n =? 95))%nat.

(** The longest run of word characters at the start of [s], and the rest. *)
Fixpoint takeWord (s : string) : string * string :=
  match s with
  | String c s' =>
      if isWordChar c then
        let (w, rest) := takeWord s' in (String c w, rest)
      else (EmptyString, s)
  | EmptyString => (EmptyString, EmptyString)
  end.

Definition fence : string := "```".

(** The text before the first fence in [s]: the lazy body of a block. *)
Fixpoint bodyBeforeFence (s : string) : option string :=
  if JsString.startsWith s fence then Some EmptyString
  else
    match s with
    | EmptyString => None
    | String c s' =>
        match bodyBeforeFence s' with
        | Some body => Some (String c body)
        | None => None
        end
    end.

(** The matcher of [codeBlockRegex]: a fence, an optional run of word
    characters (group 1), a line feed, the shortest text up to the next
    fence (group 2), and that fence.  The capture holds the two groups,
    the first one empty when it took no part in the match. *)
Definition codeBlockRegex : matcher (string * string) :=
  fun s =>
    match stripPrefix fence s with
    | Some r =>
        let (w, r1) := takeWord r in
        match r1 with
        | String c r2 =>
            if Ascii.eqb c "010" then
              match bodyBeforeFence r2 with
              | Some body =>
                  Some (3 + String.length w + 1 + String.length body + 3, (w, body))
              | None => None
              end
            else None
        | EmptyString => None
        end
    | None => None
    end.

Section Builtins.
(** [String.prototype.toLowerCase], [String.prototype.trim] *)
Variables toLowerCase trim : string -> string.

(** The loop [while ((match = codeBlockRegex.exec(content)) !== null)]:
    the content is scanned from the left, every match whose trimmed body
    is not empty adds a block, and the search goes on behind the match.
    [skip] counts the characters of the current match still to pass and
    [index] is the counter of the blocks added so far. *)
Fixpoint extractGo (skip index : nat) (s : string) : list CodeBlock :=
  match s with
  | EmptyString => []
  | String _ s' =>
      match skip with
      | S k => extractGo k index s'
      | O =>
          match codeBlockRegex s with
          | Some (n, (m1, m2)) =>
              let language := toLowerCase m1 in
              let code := trim m2 in
              if JsString.truthy code then
                {| language := language; code := code; index := index |}
                  :: extractGo (pred n) (S index) s'
              else extractGo (pred n) index s'
          | None => extractGo O index s'
          end
      end
  end.

Definition extractCodeBlocks (content : string) : list CodeBlock :=
  extractGo O O content.

(** [executableLanguages.includes(block.language) || block.language === ''] *)
Definition isExecutable (block : CodeBlock) : bool :=
  existsb (String.eqb (language block)) executableLanguages
  || String.eqb (language block) "".

(** The code blocks and the flag that [loadSkills] stores for a skill
    whose descriptor file holds [content]. *)
Definition loadSkill (content : string) : SkillInfo :=
  let blocks := extractCodeBlocks content in
  {| codeBlocks := blocks;
     hasExecutableScripts := existsb isExecutable blocks |}.

End Builtins.

End Skills.

(** ** The chat endpoint *)
Module Chat.

(** A JSON value, as the body parser delivers it. *)
Inductive JValue : Type :=
| JNull
| JBool (b : bool)
| JNumber (literal : string)
| JString (s : string)
| JArray (items : list JValue)
| JObject (fields : list (string * JValue)).

(** The own property [key] of an object given by its fields; [None] is
    [undefined]. *)
Fixpoint getField (key : string) (fields : list (string * JValue)) : option JValue :=
  match fields with
  | [] => None
  | (k, v) :: rest => if String.eqb k key then Some v else getField key rest
  end.

(** [v?.content]: [undefined] for [undefined] and [null], the property of
    an object, and [undefined] for the values that have no such property. *)
Definition optionalContent (v : option JValue) : option JValue :=
  match v with
  | Some (JObject fields) => getField "content" fields
  | _ => None
  end.

Inductive ToolChoice : Type := required | auto.

(** [Array.isArray(messages)], with the items when it holds. *)
Definition asArray (v : option JValue) : option (list JValue) :=
  match v with
  | Some (JArray items) => Some items
  | _ => None
  end.

Definition actionKeywords : list string :=
  ["提交"; "commit"; "push"; "执行"; "执行"; "做"; "完成"; "帮我"; "请";
   "git"; "add"; "status"].

Section Handler.
Context {Tool ToolCall : Type}.

(** The arguments of the call to [generateText] that vary from request to
    request; the model name and the system prompt, a fixed text around the
    names of the tools, are left out. *)
Record GenerateRequest : Type := {
  req_messages : list JValue;
  req_tools : gmap string Tool;
  req_toolChoice : ToolChoice;
  req_stepLimit : nat;
}.

(** What the handler reads from the result of [generateText]. *)
Record GenerateResult : Type := {
  text : string;
  toolCalls : list ToolCall;
  response_messages : list JValue;
}.

Inductive ResponseBody : Type :=
| ErrorBody (error : string)
| ChatBody (messages : list JValue) (text : string)
           (toolCalls : list ToolCall) (hasToolCalls : bool).

Record Response : Type := {
  status : nat;
  body : ResponseBody;
}.

(** [String.prototype.toLowerCase], [String.prototype.trim] *)
Variables toLowerCase trim : string -> string.
(** The hosted model behind [generateText]: it answers or throws. *)
Variable generateText : GenerateRequest -> result GenerateResult.
(** [getTools()] at the time of the request. *)
Variable availableTools : gmap string Tool.

(** The text the keyword pattern is tested on. *)
Definition userMessageOf (messages : list JValue) : string :=
  let lastMessage := last messages in
  match optionalContent lastMessage with
  | Some (JString content) => toLowerCase content
  | _ => ""
  end.

Definition requiresAction (messages : list JValue) : bool :=
  Regex.testAlternatives actionKeywords (userMessageOf messages).

Definition toolChoiceFor (messages : list JValue) : ToolChoice :=
  if requiresAction messages then required else auto.

Definition requestFor (messages : list JValue) : GenerateRequest :=
  {| req_messages := messages;
     req_tools := availableTools;
     req_toolChoice := toolChoiceFor messages;
     req_stepLimit := 10 |}.

(** The default feedback message for [n] tool calls. *)
Definition defaultFeedback (n : nat) : string :=
  "✅ 已完成 " +:+ pretty n +:+ " 个工具调用。任务执行完成。".

(** The response built from the result of the generation. *)
Definition respond (r : GenerateResult) : Response :=
  let hasToolCalls := negb (Nat.eqb (length (toolCalls r)) 0) in
  let hasTextResponse :=
    JsString.truthy (text r)
    && negb (Nat.eqb (String.length (trim (text r))) 0) in
  let finalText :=
    if hasToolCalls && negb hasTextResponse
    then defaultFeedback (length (toolCalls r))
    else text r in
  {| status := 200;
     body := ChatBody (response_messages r)
               (if JsString.truthy finalText then finalText else text r)
               (toolCalls r) hasToolCalls |}.

(** The handler of [POST /api/chat].  [requestBody] holds the fields of
    the object the body parser leaves in [ctx.request.body]; the result
    pairs the response with the generation requests that were issued. *)
Definition chat (requestBody : list (string * JValue))
  : Response * list GenerateRequest :=
  match asArray (getField "messages" requestBody) with
  | None =>
      ({| status := 400; body := ErrorBody "Messages array is required" |}, [])
  | Some messages =>
      let request := requestFor messages in
      match generateText request with
      | Ok r => (respond r, [request])
      | Throw message =>
          ({| status := 500;
              body := ErrorBody (if JsString.truthy message then message
                                 else "Internal Server Error") |},
           [request])
      end
  end.

End Handler.

End Chat.

(** Sample instances of the two string built-ins the server calls, for the
    examples: they treat the ASCII letters and the ASCII white space. *)
Module Sample.

Definition asciiLowerChar (c : ascii) : ascii :=
  let n := nat_of_ascii c in
  if ((65 <=? n) && (n <=? 90))%nat then ascii_of_nat (n + 32) else c.

Fixpoint asciiLower (s : string) : string :=
  match s with
  | EmptyString => EmptyString
  | String c s' => String (asciiLowerChar c) (asciiLower s')
  end.

Definition isAsciiSpace (c : ascii) : bool :=
  let n := nat_of_ascii c in
  (((9 <=? n) && (n <=? 13)) || (n =? 32))%nat.

Fixpoint trimStart (s : string) : string :=
  match s with
  | String c s' => if isAsciiSpace c then trimStart s' else s
  | EmptyString => EmptyString
  end.

Fixpoint trimEnd (s : string) : string :=
  match s with
  | EmptyString => EmptyString
  | String c s' =>
      match trimEnd s' with
      | EmptyString => if isAsciiSpace c then EmptyString else String c EmptyString
      | t => String c t
      end
  end.

Definition asciiTrim (s : string) : string := trimEnd (trimStart s).

End Sample.

(** ** Notions the specification speaks in *)
Module SpecTerms.
Import Chat.

(** [k] occurs in [s]. *)
Definition occursIn (k s : string) : Prop :=
  exists a b, s = a +:+ k +:+ b.

(** The role of a conversation message. *)
Definition isUserMessage (m : JValue) : bool :=
  match m with
  | JObject fields =>
      match getField "role" fields with
      | Some (JString r) => String.eqb r "user"
      | _ => false
      end
  | _ => false
  end.

(** The last message of the conversation that the user wrote. *)
Definition lastUserMessage (messages : list JValue) : option JValue :=
  last (List.filter isUserMessage messages).

(** A message matches the keyword pattern when its content is a text
    whose lower-case form holds one of the keywords. *)
Definition matchesActionPattern (toLowerCase : string -> string)
           (m : JValue) : Prop :=
  exists content keyword,
    optionalContent (Some m) = Some (JString content)
    /\ In keyword actionKeywords
    /\ occursIn keyword (toLowerCase content).

(** The rule for forcing tool use, for a given way [pick] of choosing the
    message that is tested: the tool choice is [required] exactly when the
    chosen message exists and matches the pattern, and [auto] exactly when
    it does not. *)
Definition forcedIffMatches (toLowerCase : string -> string)
           (pick : list JValue -> option JValue) (messages : list JValue) : Prop :=
  let matched :=
    exists m, pick messages = Some m /\ matchesActionPattern toLowerCase m in
  (toolChoiceFor toLowerCase messages = required <-> matched)
  /\ (toolChoiceFor toLowerCase messages = auto <-> ~ matched).

(** The text field of a chat response. *)
Definition responseText {ToolCall : Type} (r : @Response ToolCall) : option string :=
  match body r with
  | ChatBody _ t _ _ => Some t
  | ErrorBody _ => None
  end.

End SpecTerms.


(** ** Configuration values as templates *)

(** The substitution tokens the interpolation recognizes. *)
Inductive token : Type :=
| TEnv (name : string)
| TUserHome
| TWorkspaceFolder
| TWorkspaceFolderBasename
| TPathSeparator
| TSlash.

Definition tokenText (t : token) : string :=
  match t with
  | TEnv name => "${env:" +:+ name +:+ "}"
  | TUserHome => "${userHome}"
  | TWorkspaceFolder => "${workspaceFolder}"
  | TWorkspaceFolderBasename => "${workspaceFolderBasename}"
  | TPathSeparator => "${pathSeparator}"
  | TSlash => "${/}"
  end.

(** [lacksChar c s]: the character [c] does not occur in [s]. *)
Fixpoint lacksChar (c : ascii) (s : string) : bool :=
  match s with
  | EmptyString => true
  | String d s' => negb (Ascii.eqb d c) && lacksChar c s'
  end.

(** The name of an environment reference is not empty and has no closing
    brace. *)
Definition wellFormed (t : token) : Prop :=
  match t with
  | TEnv name => name <> "" /\ lacksChar "}" name = true
  | _ => True
  end.

(** A string holds a token when the text of a well-formed token occurs in
    it. *)
Definition holdsToken (s : string) : Prop :=
  exists t, wellFormed t /\ SpecTerms.occursIn (tokenText t) s.

(** What a token stands for: the value of the environment variable, or the
    empty string when it is not set; the home directory; the workspace
    folder; its base name; the path separator. *)
Definition tokenValue (process_env : gmap string string)
           (homedir workspaceFolder : string) (t : token) : string :=
  match t with
  | TEnv name => default "" (process_env !! name)
  | TUserHome => homedir
  | TWorkspaceFolder => workspaceFolder
  | TWorkspaceFolderBasename => Path.basename workspaceFolder
  | TPathSeparator => "/"
  | TSlash => "/"
  end.

(** A reference to an environment variable reads that variable when the
    variable is set or its name is not the name of a property that
    [process.env] inherits; the other tokens read no variable. *)
Definition ownReference (process_env : gmap string string) (t : token) : Prop :=
  match t with
  | TEnv name => process_env !! name = None -> Interp.inherited name = None
  | _ => True
  end.

(** A configuration value written as plain text and tokens. *)
Inductive piece : Type :=
| Lit (text : string)
| Tok (t : token).

Fixpoint render (pieces : list piece) : string :=
  match pieces with
  | [] => ""
  | Lit text :: rest => text +:+ render rest
  | Tok t :: rest => tokenText t +:+ render rest
  end.

Fixpoint resolved (value : token -> string) (pieces : list piece) : string :=
  match pieces with
  | [] => ""
  | Lit text :: rest => text +:+ resolved value rest
  | Tok t :: rest => value t +:+ resolved value rest
  end.

(** The plain text of a template has no dollar sign and its tokens are
    well formed. *)
Definition okPiece (p : piece) : Prop :=
  match p with
  | Lit text => lacksChar "$" text = true
  | Tok t => wellFormed t
  end.

(** The interpolation resolves a template when it gives the text in which
    every token is replaced by what it stands for. *)
Definition resolvesTemplate (process_env : gmap string string)
           (homedir workspaceFolder : string) (pieces : list piece) : Prop :=
  Interp.interpolateConfig process_env homedir (render pieces) workspaceFolder
  = resolved (tokenValue process_env homedir workspaceFolder) pieces.

(** The pattern can only match where the text has a dollar sign. *)
Definition dollarAnchored {C : Type} (m : Regex.matcher C) : Prop :=
  forall c s, c <> "$"%char -> m (String c s) = None.

(** The passes of the interpolation, on a template. *)

Definition isEnvToken (t : token) : bool :=
  match t with
  | TEnv _ => true
  | _ => false
  end.

(** [sameToken t0 t]: [t] is the token [t0], for the tokens with a fixed
    text. *)
Definition sameToken (t0 t : token) : bool :=
  match t0, t with
  | TUserHome, TUserHome => true
  | TWorkspaceFolder, TWorkspaceFolder => true
  | TWorkspaceFolderBasename, TWorkspaceFolderBasename => true
  | TPathSeparator, TPathSeparator => true
  | TSlash, TSlash => true
  | _, _ => false
  end.

(** The template after a pass: the selected tokens have become their
    values. *)
Definition substToken (sel : token -> bool) (value : token -> string)
           (pieces : list piece) : list piece :=
  map (fun p => match p with
                | Tok t => if sel t then Lit (value t) else Tok t
                | Lit text => Lit text
                end) pieces.

(** ** Normalised absolute paths *)

(** A name of a directory entry: not empty, without a slash, and neither
    [.] nor [..]. *)
Definition cleanName (name : string) : bool :=
  lacksChar "/" name
  && negb (String.eqb name "")
  && negb (String.eqb name ".")
  && negb (String.eqb name "..").

(** The absolute path [/name1/.../namek]. *)
Definition absolutePath (names : list string) : string :=
  "/" +:+ JsString.join "/" names.

(** ** Code blocks *)

(** A fenced code block, as the scanner's pattern knows it: a fence, a tag
    of word characters that may be empty, a line feed, a body, and the
    closing fence. *)
Definition hasFencedBlock (content : string) : Prop :=
  exists before tag body after,
    content = before +:+ Skills.fence +:+ tag +:+ String "010" (body +:+ Skills.fence +:+ after)
    /\ forallb Skills.isWordChar (list_ascii_of_string tag) = true.

(** [noFenceStarts text]: where [text] is followed by a fence, no fence
    starts before that one.  The last two characters of an earlier fence
    could be the first two of the fence that follows. *)
Definition noFenceStarts (text : string) : bool :=
  negb (JsString.includes (text +:+ "``") Skills.fence).

(** A block with the next index: the blocks found behind a first block
    are numbered after it. *)
Definition nextIndex (block : Skills.CodeBlock) : Skills.CodeBlock :=
  {| Skills.language := Skills.language block;
     Skills.code := Skills.code block;
     Skills.index := S (Skills.index block) |}.

(** ** Sample data for the examples *)

(** Sample models: one that calls a tool and says nothing, one that answers
    with a text, and one that fails. *)
Definition silentModel (_ : @Chat.GenerateRequest string)
  : result (@Chat.GenerateResult string) :=
  Ok {| Chat.text := "  ";
        Chat.toolCalls := ["getCurrentTime"];
        Chat.response_messages := [] |}.

Definition talkingModel (_ : @Chat.GenerateRequest string)
  : result (@Chat.GenerateResult string) :=
  Ok {| Chat.text := "Done.";
        Chat.toolCalls := [];
        Chat.response_messages := [] |}.

Definition failingModel (_ : @Chat.GenerateRequest string)
  : result (@Chat.GenerateResult string) :=
  Throw "Invalid prompt: messages must not be empty".

Definition message (role content : string) : Chat.JValue :=
  Chat.JObject [("role", Chat.JString role); ("content", Chat.JString content)].

Definition bodyWith (messages : list Chat.JValue) : list (string * Chat.JValue) :=
  [("messages", Chat.JArray messages)].

Definition lf : string := String "010" EmptyString.

Definition sampleSkill : string :=
  "---" +:+ lf +:+ "name: demo" +:+ lf +:+ "---" +:+ lf +:+
  "Run this:" +:+ lf +:+
  "```Bash" +:+ lf +:+ "echo hi" +:+ lf +:+ "```" +:+ lf +:+
  "```json" +:+ lf +:+ "{}" +:+ lf +:+ "```" +:+ lf +:+
  "```" +:+ lf +:+ "   " +:+ lf +:+ "```" +:+ lf +:+
  "```" +:+ lf +:+ "ls" +:+ lf +:+ "```" +:+ lf.

(** The project lives in [/app]; [/app2] is a sibling directory. *)
Definition sampleFs : Fs.fs :=
  <[ ["app"; "src"; "a.txt"] := Fs.File "inside" ]>
  (<[ ["app"; "src"] := Fs.Dir ]>
  (<[ ["app"] := Fs.Dir ]>
  (<[ ["app2"; "secret.txt"] := Fs.File "secret" ]>
  (<[ ["app2"] := Fs.Dir ]> ∅)))).

Definition sampleEnv : gmap string string :=
  <[ "API_KEY" := "k-123" ]> (<[ "EMPTY" := "" ]> ∅).

(** A project with an env file, and a stdio server configured with an
    inline [env] and that file. *)
Definition sampleEnvFileFs : Fs.fs :=
  <[ ["app"; ".env"] :=
       Fs.File ("A=fromfile" +:+ lf +:+ "# comment" +:+ lf +:+ "B = 'two words'" +:+ lf) ]>
  (<[ ["app"] := Fs.Dir ]> ∅).

Definition sampleStdioConfig : McpEnv.MCPStdioConfig :=
  {| McpEnv.command := "npx";
     McpEnv.args := Some ["-y"; "server"];
     McpEnv.env := Some (<[ "A" := "inline" ]> ∅);
     McpEnv.envFile := Some ".env" |}.

(** ** [path.join] with any number of arguments *)
Module PathList.

(** [path.join(...parts)]: the arguments that are not empty are joined
    with [/] and the result is normalised; with nothing to join the result
    is [.]. *)
Definition join (parts : list string) : string :=
  let joined :=
    JsString.join "/" (List.filter (fun p => negb (String.eqb p "")) parts) in
  if String.eqb joined "" then "." else Path.normalize joined.

End PathList.

(** ** Values of a parsed JSON document, as the loaders walk them *)
Module Json.
Import Chat.

(** An assignment [obj[key] = value] on a plain object stores an own
    property for every key but [__proto__], which it leaves to the setter
    of the prototype. *)
Definition storable (key : string) : bool :=
  negb (String.eqb key "__proto__").

(** The own properties an object literal has after the assignments
    [obj[key] = value], taken in order, for keys that are distinct. *)
Definition assigned {A : Type} (props : list (string * A)) : list (string * A) :=
  List.filter (fun kv => storable kv.1) props.

(** The entries of an array: its items under their indices. *)
Fixpoint indexedFrom {A : Type} (i : nat) (items : list A) : list (string * A) :=
  match items with
  | [] => []
  | x :: rest => (pretty i, x) :: indexedFrom (S i) rest
  end.

(** [found(obj[key])] when the fields hold [key], and [missing] otherwise:
    [getField] with what is done with the value. *)
Definition withField {A : Type} (key : string) (found : JValue -> A) (missing : A)
  : list (string * JValue) -> A :=
  fix go (fields : list (string * JValue)) : A :=
    match fields with
    | [] => missing
    | (k, v) :: rest => if String.eqb k key then found v else go rest
    end.

(** [v.key] for a value that is not [null]: the own property of an object,
    and [undefined] for a string, a number, a boolean or an array, none of
    which has one of the properties the loaders read. *)
Definition property (key : string) (v : JValue) : option JValue :=
  match v with
  | JObject fields => getField key fields
  | _ => None
  end.

(** A step into a value, by the key of a property or the position of an
    item, and the value a path of steps leads to, if any. *)
Inductive Step : Type :=
| Key (key : string)
| Item (position : nat).

Fixpoint select (path : list Step) (v : JValue) : option JValue :=
  match path with
  | [] => Some v
  | Key key :: rest =>
      match v with
      | JObject fields =>
          match getField key fields with
          | Some child => select rest child
          | None => None
          end
      | _ => None
      end
  | Item position :: rest =>
      match v with
      | JArray items =>
          match items !! position with
          | Some child => select rest child
          | None => None
          end
      | _ => None
      end
  end.

Section Builtins.
(** Whether a number, given by its literal, is zero, and the code units of
    a string as [s[0]], [s[1]], ... give them. *)
Variable isZero : string -> bool.
Variable characters : string -> list string.

(** The truthiness of a value. *)
Definition truthyValue (v : JValue) : bool :=
  match v with
  | JNull => false
  | JBool b => b
  | JNumber literal => negb (isZero literal)
  | JString s => JsString.truthy s
  | JArray _ => true
  | JObject _ => true
  end.

Definition truthyProperty (v : option JValue) : bool :=
  match v with
  | Some v => truthyValue v
  | None => false
  end.

(** [Object.entries(v)] *)
Definition entries (v : JValue) : list (string * JValue) :=
  match v with
  | JObject fields => fields
  | JArray items => indexedFrom 0 items
  | JString s => indexedFrom 0 (map JString (characters s))
  | _ => []
  end.

(** A Zod schema, as [mcpSchemaToZod] builds it: [z.any()], [z.string()],
    [z.number()], [z.number().int()], [z.boolean()], [z.array(element)],
    [z.object(shape)] and [z.record(valueType)]. *)
Inductive Zod : Type :=
| ZAny
| ZString
| ZNumber
| ZInt
| ZBoolean
| ZArray (element : Zod)
| ZObject (shape : list (string * Zod))
| ZRecord (valueType : Zod).

(** [mcpSchemaToZod(mcpSchema)] *)
Fixpoint mcpSchemaToZod (mcpSchema : JValue) : Zod :=
  match mcpSchema with
  | JObject fields =>
      match getField "type" fields with
      | Some (JString typeName) =>
          if String.eqb typeName "string" then ZString
          else if String.eqb typeName "number" then ZNumber
          else if String.eqb typeName "integer" then ZInt
          else if String.eqb typeName "boolean" then ZBoolean
          else if String.eqb typeName "array" then
            ZArray (withField "items"
                      (fun items =>
                         if truthyValue items then mcpSchemaToZod items else ZAny)
                      ZAny fields)
          else if String.eqb typeName "object" then
            withField "properties"
              (fun properties =>
                 if truthyValue properties then
                   ZObject
                     (assigned
                        match properties with
                        | JObject props =>
                            map (fun '(key, value) => (key, mcpSchemaToZod value)) props
                        | JArray items =>
                            indexedFrom 0 (map mcpSchemaToZod items)
                        | JString s =>
                            indexedFrom 0 (map (fun _ => ZAny) (characters s))
                        | _ => []
                        end)
                 else ZRecord ZAny)
              (ZRecord ZAny) fields
          else ZAny
      | _ => ZAny
      end
  | _ => ZAny
  end.

(** [process.env], [os.homedir()] *)
Variable process_env : gmap string string.
Variable homedir : string.

(** [interpolateConfigObject(obj, workspaceFolder)] *)
Fixpoint interpolateConfigObject (obj : JValue) (workspaceFolder : string) : JValue :=
  match obj with
  | JString s =>
      JString (Interp.interpolateConfig process_env homedir s workspaceFolder)
  | JArray items =>
      JArray (map (fun item => interpolateConfigObject item workspaceFolder) items)
  | JObject fields =>
      JObject
        (assigned
           (map (fun '(key, value) =>
                   (key, interpolateConfigObject value workspaceFolder))
                fields))
  | _ => obj
  end.

(** [zodProps] after the loop over [Object.entries(properties)]. *)
Definition shapeOf (properties : JValue) : list (string * Zod) :=
  assigned
    match properties with
    | JObject props => map (fun '(key, value) => (key, mcpSchemaToZod value)) props
    | JArray items => indexedFrom 0 (map mcpSchemaToZod items)
    | JString s => indexedFrom 0 (map (fun _ => ZAny) (characters s))
    | _ => []
    end.

End Builtins.

(** A value none of whose objects has the key [__proto__], so that every
    object built from it has the own properties of the original and
    inherits nothing else. *)
Fixpoint noProtoKey (v : JValue) : Prop :=
  match v with
  | JArray items =>
      (fix all (l : list JValue) : Prop :=
         match l with
         | [] => True
         | item :: rest => noProtoKey item /\ all rest
         end) items
  | JObject fields =>
      (fix all (l : list (string * JValue)) : Prop :=
         match l with
         | [] => True
         | (key, value) :: rest =>
             storable key = true /\ noProtoKey value /\ all rest
         end) fields
  | _ => True
  end.

(** A configuration without anything to interpolate: none of its strings
    holds a token, at any depth, and none of its keys is [__proto__]. *)
Fixpoint plainConfig (v : JValue) : Prop :=
  match v with
  | JString s => ~ holdsToken s
  | JArray items =>
      (fix all (l : list JValue) : Prop :=
         match l with
         | [] => True
         | item :: rest => plainConfig item /\ all rest
         end) items
  | JObject fields =>
      (fix all (l : list (string * JValue)) : Prop :=
         match l with
         | [] => True
         | (key, value) :: rest =>
             storable key = true /\ plainConfig value /\ all rest
         end) fields
  | _ => True
  end.

End Json.
(** ** MCP servers: configuration file, connection and tool catalogue *)
Module Mcp.
Import Chat.
Import Json.

(** A tool as an MCP server lists it. *)
Record ListedTool : Type := {
  listed_name : string;
  listed_description : option string;
  listed_inputSchema : option JValue;
}.

(** The tool [createToolFromMCP] builds: its description, its input
    schema, and what its [execute] closes over, the name of the listed
    tool and the client of the server it calls. *)
Record McpTool : Type := {
  description : string;
  inputSchema : Zod;
  calls : string;
  client : string;
}.

Section Loader.
Variable isZero : string -> bool.
Variable characters : string -> list string.
Variable process_env : gmap string string.
Variable homedir : string.
Variable PROJECT_ROOT : string.
Variable cwd : string.
(** [JSON.parse] *)
Variable JSON_parse : string -> result JValue.
(** What becomes of a stdio server, given its name and its interpolated
    configuration: the environment is put together, the child process is
    started, the client connects and asks for the tools.  The outcome is
    the list of tools, or an error thrown on the way. *)
Variable connectAndList : string -> JValue -> result (list ListedTool).

(** [createToolFromMCP(mcpTool, mcpClient)], for the client of the server
    [serverName]. *)
Definition createToolFromMCP (serverName : string) (mcpTool : ListedTool) : McpTool :=
  {| description :=
       match listed_description mcpTool with
       | Some d => if JsString.truthy d then d
                   else "MCP tool: " +:+ listed_name mcpTool
       | None => "MCP tool: " +:+ listed_name mcpTool
       end;
     inputSchema :=
       match listed_inputSchema mcpTool with
       | Some schema =>
           if truthyValue isZero schema
           then mcpSchemaToZod isZero characters schema
           else ZObject []
       | None => ZObject []
       end;
     calls := listed_name mcpTool;
     client := serverName |}.

(** One of the two blocks of [readMCPConfig]: the parsed content of the
    file when it exists, can be read and parses. *)
Definition readConfigFile (st : Fs.fs) (configPath : string) : option JValue :=
  if Fs.existsSync cwd st configPath then
    match Fs.readFileSync cwd st configPath with
    | Ok content =>
        match JSON_parse content with
        | Ok config => Some config
        | Throw _ => None
        end
    | Throw _ => None
    end
  else None.

(** [readMCPConfig()]; [JNull] is [null]. *)
Definition readMCPConfig (st : Fs.fs) : JValue :=
  let projectConfigPath := PathList.join [PROJECT_ROOT; ".cursor"; "mcp.json"] in
  match readConfigFile st projectConfigPath with
  | Some config => config
  | None =>
      let globalConfigPath := PathList.join [homedir; ".cursor"; "mcp.json"] in
      match readConfigFile st globalConfigPath with
      | Some config => config
      | None => JNull
      end
  end.

(** [transportType === 'stdio'], where [transportType] is
    [interpolatedConfig.type || (interpolatedConfig.url ? 'sse' : 'stdio')]. *)
Definition isStdio (interpolatedConfig : JValue) : bool :=
  let configured := property "type" interpolatedConfig in
  if truthyProperty isZero configured then
    match configured with
    | Some (JString t) => String.eqb t "stdio"
    | _ => false
    end
  else negb (truthyProperty isZero (property "url" interpolatedConfig)).

(** [mcpTools[toolName] = tool] *)
Definition assignTool (toolName : string) (t : McpTool)
           (mcpTools : gmap string McpTool) : gmap string McpTool :=
  if storable toolName then <[toolName := t]> mcpTools else mcpTools.

(** [`${serverName}_${mcpTool.name}`] *)
Definition toolNameOf (serverName : string) (mcpTool : ListedTool) : string :=
  serverName +:+ "_" +:+ listed_name mcpTool.

(** The loop over the tools a server lists. *)
Definition registerTools (serverName : string) (tools : list ListedTool)
           (mcpTools : gmap string McpTool) : gmap string McpTool :=
  fold_left
    (fun acc mcpTool =>
       assignTool (toolNameOf serverName mcpTool)
                  (createToolFromMCP serverName mcpTool) acc)
    tools mcpTools.

(** The body of the loop over the configured servers, with its [try] and
    [catch]: reading a property of a configuration that is [null] throws,
    and so may the connection; both leave the tools as they are. *)
Definition connectServer (mcpTools : gmap string McpTool)
           (entry : string * JValue) : gmap string McpTool :=
  let (serverName, config) := entry in
  match interpolateConfigObject process_env homedir config PROJECT_ROOT with
  | JNull => mcpTools
  | interpolatedConfig =>
      if isStdio interpolatedConfig then
        match connectAndList serverName interpolatedConfig with
        | Ok tools => registerTools serverName tools mcpTools
        | Throw _ => mcpTools
        end
      else mcpTools
  end.

(** A configured server gets to register tools when its interpolated
    configuration is not [null], asks for the stdio transport, and the
    connection and the listing succeed. *)
Definition contributes (entry : string * JValue) : bool :=
  let (serverName, config) := entry in
  match interpolateConfigObject process_env homedir config PROJECT_ROOT with
  | JNull => false
  | interpolatedConfig =>
      isStdio interpolatedConfig
      && match connectAndList serverName interpolatedConfig with
         | Ok _ => true
         | Throw _ => false
         end
  end.

(** [name] is the name [server_tool] of a tool that the server of [entry]
    lists. *)
Definition listedBy (entry : string * JValue) (name : string) : Prop :=
  exists tools listed,
    connectAndList entry.1
      (interpolateConfigObject process_env homedir entry.2 PROJECT_ROOT) = Ok tools
    /\ In listed tools
    /\ name = entry.1 +:+ "_" +:+ listed_name listed.

(** [initializeMCPTools()], for the configuration [readMCPConfig] gave. *)
Definition initializeMCPToolsFrom (mcpConfig : JValue) : gmap string McpTool :=
  match property "mcpServers" mcpConfig with
  | Some mcpServers =>
      if truthyValue isZero mcpServers
      then fold_left connectServer (entries characters mcpServers) ∅
      else ∅
  | None => ∅
  end.

Definition initializeMCPTools (st : Fs.fs) : gmap string McpTool :=
  initializeMCPToolsFrom (readMCPConfig st).

End Loader.

End Mcp.
(** ** Skills: the scan of the skills directory and the skill tools *)
Module SkillTool.
Import Skills.

(** The entries of the directory with the components [dir] that are
    directories themselves, by name: what [readdirSync] with
    [withFileTypes] gives after the filter on [isDirectory]. *)
Definition childDirectories (st : Fs.fs) (dir : list string) : list string :=
  omap (fun entry : list string * Fs.node =>
          match entry.2 with
          | Fs.Dir =>
              if decide (removelast entry.1 = dir) then last entry.1 else None
          | Fs.File _ => None
          end)
       (map_to_list st).

Section Scan.
Variables toLowerCase trim : string -> string.
Variable homedir : string.
Variable cwd : string.

(** The body of the loop of [loadSkills] over the directories. *)
Definition loadSkillDir (st : Fs.fs) (skillsDir : string)
           (skills : gmap string SkillInfo) (skillDir : string)
  : gmap string SkillInfo :=
  let skillPath := PathList.join [skillsDir; skillDir; "SKILL.md"] in
  if Fs.existsSync cwd st skillPath then
    match Fs.readFileSync cwd st skillPath with
    | Ok content =>
        <["skill_" +:+ skillDir := loadSkill toLowerCase trim content]> skills
    | Throw _ => skills
    end
  else skills.

(** [loadSkills()], as far as the code blocks of the skills go.  A skills
    directory that is missing gives no skill, and so does one that cannot
    be listed because it is a regular file. *)
Definition loadSkills (st : Fs.fs) : gmap string SkillInfo :=
  let skillsDir := PathList.join [homedir; ".cursor"; "skills-cursor"] in
  match Fs.lookupPath cwd st skillsDir with
  | Some Fs.Dir =>
      fold_left (loadSkillDir st skillsDir)
                (childDirectories st (Path.components cwd skillsDir)) ∅
  | _ => ∅
  end.

End Scan.

(** What [executeScript] resolves to. *)
Record ScriptResult : Type := {
  success : bool;
  output : string;
  error : option string;
}.

(** A skill as [createToolFromSkill] receives it. *)
Record Skill : Type := {
  skill_name : string;
  skill_description : string;
  skill_content : string;
  skill_info : SkillInfo;
}.

(** An entry of [executionResults]: the block with the result of its run. *)
Record Execution : Type := {
  exec_index : nat;
  exec_language : string;
  exec_code : string;
  exec_result : ScriptResult;
}.

(** An entry of the catalogue of code blocks. *)
Record CatalogEntry : Type := {
  entry_language : string;
  entry_code : string;
  entry_index : nat;
  entry_executable : bool;
}.

(** The two answers of a skill tool. *)
Inductive SkillResult : Type :=
| ScriptsRun (skillName skillDescription instructions task context : string)
             (scriptsExecuted : nat) (executionResults : list Execution)
             (message : string)
| SkillLoaded (skillName skillDescription instructions : string)
              (codeBlocks : list CatalogEntry) (hasExecutableScripts : bool)
              (task context message : string).

(** A number given as [scriptIndex]: a non-negative integer selects the
    element at that position, any other number selects nothing. *)
Inductive ScriptIndex : Type :=
| ElementAt (i : nat)
| NoElement.

(** The two shapes of an outcome: a success with an output that is not
    empty, or a failure with no output and an error text that is not
    empty. *)
Definition wellShaped (r : ScriptResult) : Prop :=
  if success r then output r <> ""
  else output r = "" /\ exists message, error r = Some message /\ message <> "".

Definition quoted (s : string) : string :=
  String "034" s +:+ String "034" "".

Section Exec.
(** The state of the machine the scripts run on. *)
Context {World : Type}.
Variable toLowerCase : string -> string.
(** [os.tmpdir()] *)
Variable tmpdir : string.
(** The part of a temp file name made from [Date.now()] and
    [Math.random()]. *)
Variable freshStem : World -> string * World.
(** [fs.writeFileSync(file, data)] *)
Variable writeFileSync : string -> string -> World -> result unit * World.
(** The promisified [exec]: the standard output and the standard error of
    the command, or the error of a command that failed. *)
Variable exec : string -> World -> result (string * string) * World.

Definition failed (message fallback : string) : ScriptResult :=
  {| success := false;
     output := "";
     error := Some (if JsString.truthy message then message else fallback) |}.

(** The call of [execAsync] and what is made of its outcome. *)
Definition runCommand (command : string) (w : World) : ScriptResult * World :=
  match exec command w with
  | (Ok (stdout, stderr), w') =>
      ({| success := true;
          output := if JsString.truthy stdout then stdout
                    else if JsString.truthy stderr then stderr
                    else "Script executed successfully";
          error := if JsString.truthy stderr then Some stderr else None |}, w')
  | (Throw message, w') => (failed message "Script execution failed", w')
  end.

(** The code goes to a temp file, which the interpreter is run on.  The
    deletion of the file, due five seconds later, is not part of the
    result. *)
Definition runTempFile (extension interpreter code : string) (w : World)
  : ScriptResult * World :=
  let (stem, w1) := freshStem w in
  let tempFile := Path.join tmpdir ("skill_" +:+ stem +:+ extension) in
  match writeFileSync tempFile code w1 with
  | (Ok _, w2) => runCommand (interpreter +:+ " " +:+ quoted tempFile) w2
  | (Throw message, w2) => (failed message "Script execution failed", w2)
  end.

Definition oneOf (names : list string) (s : string) : bool :=
  existsb (String.eqb s) names.

(** [executeScript(language, code)] *)
Definition executeScript (language code : string) (w : World)
  : ScriptResult * World :=
  let lowered := toLowerCase language in
  if oneOf ["bash"; "sh"; "shell"; ""] lowered then runCommand code w
  else if oneOf ["python"; "python3"] lowered then
    runTempFile ".py" "python3" code w
  else if oneOf ["node"; "javascript"; "js"] lowered then
    runTempFile ".js" "node" code w
  else if oneOf ["typescript"; "ts"] lowered then
    runTempFile ".ts" "npx tsx" code w
  else
    ({| success := false;
        output := "";
        error := Some ("Unsupported script language: " +:+ language
                       +:+ ". Supported: bash, python, node, typescript") |}, w).

(** [scriptsToExecute] *)
Definition scriptsToExecute (blocks : list CodeBlock)
           (scriptIndex : option ScriptIndex) : list CodeBlock :=
  match scriptIndex with
  | Some (ElementAt i) => List.filter isExecutable (option_list (blocks !! i))
  | Some NoElement => []
  | None => List.filter isExecutable blocks
  end.

(** The loop over the scripts: one after the other, each on the state the
    one before left. *)
Fixpoint runScripts (scripts : list CodeBlock) (w : World)
  : list Execution * World :=
  match scripts with
  | [] => ([], w)
  | script :: rest =>
      let (result, w1) := executeScript (language script) (code script) w in
      let (results, w2) := runScripts rest w1 in
      ({| exec_index := index script;
          exec_language := language script;
          exec_code := code script;
          exec_result := result |} :: results, w2)
  end.

Definition catalogEntry (b : CodeBlock) : CatalogEntry :=
  {| entry_language := language b;
     entry_code := code b;
     entry_index := index b;
     entry_executable := oneOf (executableLanguages ++ [""]) (language b) |}.

(** The [execute] of the tool [createToolFromSkill] builds. *)
Definition executeSkill (skill : Skill) (task : string) (context : option string)
           (shouldExecute : option bool) (scriptIndex : option ScriptIndex)
           (w : World) : SkillResult * World :=
  let info := skill_info skill in
  if default false shouldExecute && hasExecutableScripts info
     && negb (Nat.eqb (length (codeBlocks info)) 0) then
    let (executionResults, w') :=
      runScripts (scriptsToExecute (codeBlocks info) scriptIndex) w in
    (ScriptsRun (skill_name skill) (skill_description skill) (skill_content skill)
       task (default "" context) (length executionResults) executionResults
       ("Skill " +:+ skill_name skill +:+ " executed. "
        +:+ pretty (length executionResults) +:+ " script(s) executed."), w')
  else
    (SkillLoaded (skill_name skill) (skill_description skill) (skill_content skill)
       (map catalogEntry (codeBlocks info)) (hasExecutableScripts info)
       task (default "" context)
       ("Skill " +:+ skill_name skill +:+ " loaded. "
        +:+ (if hasExecutableScripts info then
               "Contains "
               +:+ pretty (length (List.filter
                                     (fun b => oneOf (executableLanguages ++ [""]) (language b))
                                     (codeBlocks info)))
               +:+ " executable script(s). Set executeScript=true to run them."
             else "Follow the instructions in the skill content to complete the task.")),
     w).

End Exec.

End SkillTool.

(** ** Further sample data *)

Definition sampleEnvFileFsMore : Fs.fs :=
  <[ ["app"; ".env"] :=
       Fs.File (("A=fromfile" +:+ lf +:+ "# comment" +:+ lf +:+ "B = 'two words'" +:+ lf)
                +:+ String "010" " A = again ") ]>
  sampleEnvFileFs.

Definition sampleEnvFileFsComment : Fs.fs :=
  <[ ["app"; ".env"] :=
       Fs.File (("A=fromfile" +:+ lf +:+ "# comment" +:+ lf +:+ "B = 'two words'" +:+ lf)
                +:+ String "010" "  # A=hidden") ]>
  sampleEnvFileFs.

Definition sampleSchemaFields : list (string * Chat.JValue) :=
  [("type", Chat.JString "object");
   ("properties",
    Chat.JObject
      [("path", Chat.JObject [("type", Chat.JString "string")]);
       ("depth", Chat.JObject [("type", Chat.JString "integer")]);
       ("tags", Chat.JObject [("type", Chat.JString "array");
                              ("items", Chat.JObject [("type", Chat.JString "string")])]);
       ("extra", Chat.JObject
                   [("type", Chat.JArray [Chat.JString "string"; Chat.JString "null"])])])].

(** Sample built-ins: a number is zero when its literal is [0], and the
    characters of an ASCII string. *)
Definition sampleIsZero (literal : string) : bool := String.eqb literal "0".

Definition sampleCharacters (s : string) : list string :=
  map (fun c => String c EmptyString) (list_ascii_of_string s).

Definition sampleServerConfig : Chat.JValue :=
  Chat.JObject
    [("command", Chat.JString "npx");
     ("args", Chat.JArray [Chat.JString "-y"; Chat.JString "${userHome}/server.js"]);
     ("env", Chat.JObject [("ROOT", Chat.JString "${workspaceFolder}")])].

Definition samplePlainConfig : Chat.JValue :=
  Chat.JObject
    [("command", Chat.JString "npx");
     ("args", Chat.JArray [Chat.JString "-y"; Chat.JString "server.js"]);
     ("timeout", Chat.JNumber "30")].

(** A configuration with a stdio server that lists two tools, a remote
    server, and a stdio server that fails to start. *)
Definition sampleMcpConfig : Chat.JValue :=
  Chat.JObject
    [("mcpServers",
      Chat.JObject
        [("git", Chat.JObject [("command", Chat.JString "git-mcp")]);
         ("search", Chat.JObject [("url", Chat.JString "https://example.org/mcp")]);
         ("broken", Chat.JObject [("command", Chat.JString "missing-binary")])])].

Definition sampleConnect (serverName : string) (_ : Chat.JValue)
  : result (list Mcp.ListedTool) :=
  if String.eqb serverName "git" then
    Ok [ {| Mcp.listed_name := "status";
            Mcp.listed_description := Some "Show the working tree status";
            Mcp.listed_inputSchema := Some (Chat.JObject [("type", Chat.JString "object")]) |};
         {| Mcp.listed_name := "commit";
            Mcp.listed_description := None;
            Mcp.listed_inputSchema := None |} ]
  else Throw "spawn missing-binary ENOENT".

(** A sample machine for the scripts: its state is the list of the
    commands run so far, latest first; a command that starts with [false]
    fails and every other command prints [ok]. *)
Definition sampleExec (command : string) (w : list string)
  : result (string * string) * list string :=
  if JsString.startsWith command "false"
  then (Throw ("Command failed: " +:+ command), command :: w)
  else (Ok ("ok", ""), command :: w).

Definition sampleFreshStem (w : list string) : string * list string :=
  ("1700000000000_" +:+ pretty (length w), w).

Definition sampleWriteTemp (file data : string) (w : list string)
  : result unit * list string :=
  (Ok tt, w).

Definition sampleSkillRecord : SkillTool.Skill :=
  {| SkillTool.skill_name := "demo";
     SkillTool.skill_description := "A demonstration";
     SkillTool.skill_content := "Run this:";
     SkillTool.skill_info :=
       Skills.loadSkill Sample.asciiLower Sample.asciiTrim sampleSkill |}.

(** A home directory with two skills, a directory without a descriptor
    and a stray file. *)
Definition sampleSkillsFs : Fs.fs :=
  <[ ["home"; "u"; ".cursor"; "skills-cursor"; "deploy"; "SKILL.md"] := Fs.File sampleSkill ]>
  (<[ ["home"; "u"; ".cursor"; "skills-cursor"; "deploy"] := Fs.Dir ]>
  (<[ ["home"; "u"; ".cursor"; "skills-cursor"; "notes"; "SKILL.md"] :=
        Fs.File "Keep notes short." ]>
  (<[ ["home"; "u"; ".cursor"; "skills-cursor"; "notes"] := Fs.Dir ]>
  (<[ ["home"; "u"; ".cursor"; "skills-cursor"; "empty"] := Fs.Dir ]>
  (<[ ["home"; "u"; ".cursor"; "skills-cursor"; "README.md"] := Fs.File "skills" ]>
  (<[ ["home"; "u"; ".cursor"; "skills-cursor"] := Fs.Dir ]>
  (<[ ["home"; "u"; ".cursor"] := Fs.Dir ]>
  (<[ ["home"; "u"] := Fs.Dir ]>
  (<[ ["home"] := Fs.Dir ]> ∅))))))))).

(* ====================================================================== *)
(** * Part II: lemmas and theorems                                         *)
(* ====================================================================== *)

(** ** Strings *)
Section StringFacts.

Lemma append_nil_r (s : string) : s +:+ "" = s.
Proof. induction s as [|c s IH]; simpl; [reflexivity | now rewrite IH]. Qed.

Lemma append_assoc (a b c : string) : (a +:+ b) +:+ c = a +:+ (b +:+ c).
Proof. induction a as [|x a IH]; simpl; [reflexivity | now rewrite IH]. Qed.

Lemma length_append (a b : string) :
  String.length (a +:+ b) = String.length a + String.length b.
Proof. induction a as [|x a IH]; simpl; [reflexivity | now rewrite IH]. Qed.

Lemma append_cons (c : ascii) (a b : string) :
  String c a +:+ b = String c (a +:+ b).
Proof. reflexivity. Qed.

Lemma startsWith_true_iff (s p : string) :
  JsString.startsWith s p = true <-> exists r, s = p +:+ r.
Proof.
  revert s. induction p as [|a p IH]; intros s; simpl.
  - split; [intros _; exists s; reflexivity | reflexivity].
  - destruct s as [|b s]; [split; [discriminate | intros [r Hr]; discriminate] |].
    rewrite andb_true_iff, Ascii.eqb_eq, IH. split.
    + intros [-> [r ->]]. exists r. reflexivity.
    + intros [r Hr]. inversion Hr; subst. split; [reflexivity | exists r; reflexivity].
Qed.

Lemma includes_true_iff (s k : string) :
  JsString.includes s k = true <-> SpecTerms.occursIn k s.
Proof.
  unfold SpecTerms.occursIn. induction s as [|c s IH]; simpl.
  - rewrite orb_false_r, startsWith_true_iff. split.
    + intros [r Hr]. exists "", r. exact Hr.
    + intros [a [b Hab]]. destruct a; simpl in Hab; [eauto | discriminate].
  - rewrite orb_true_iff, startsWith_true_iff, IH. split.
    + intros [[r Hr] | [a [b Hab]]].
      * exists "", r. exact Hr.
      * exists (String c a), b. simpl. now rewrite Hab.
    + intros [a [b Hab]]. destruct a as [|x a]; simpl in Hab.
      * left. exists b. exact Hab.
      * right. exists a, b. congruence.
Qed.

End StringFacts.

(** ** The tool registry *)
Section RegistryFacts.
Context {Tool : Type}.

Lemma spread_lookup (acc src : gmap string Tool) (name : string) :
  Registry.spread acc src !! name =
  match src !! name with
  | Some t => Some t
  | None => acc !! name
  end.
Proof.
  unfold Registry.spread. rewrite lookup_union.
  destruct (src !! name), (acc !! name); reflexivity.
Qed.

Lemma spread_dom (acc src : gmap string Tool) :
  dom (Registry.spread acc src) = dom acc ∪ dom src.
Proof. unfold Registry.spread. rewrite dom_union_L. set_solver. Qed.

End RegistryFacts.

(** C2.  [getTools] merges the base tools, the MCP tools and the skill
    tools in that order: a name is looked up in the skill tools first, then
    in the MCP tools, then in the base tools, so that on a collision the
    later source wins; the names of the merged registry are those of the
    three sources, each of them present once. *)
Theorem getTools_merge_precedence {Tool : Type}
    (calculateTool getCurrentTimeTool readFileTool writeFileTool deleteFileTool : Tool)
    (mcpTools skillTools : gmap string Tool) (name : string) :
  let base := Registry.baseTools calculateTool getCurrentTimeTool readFileTool
                writeFileTool deleteFileTool in
  let merged := Registry.getTools calculateTool getCurrentTimeTool readFileTool
                  writeFileTool deleteFileTool mcpTools skillTools in
  merged !! name =
    match skillTools !! name with
    | Some t => Some t
    | None => match mcpTools !! name with
              | Some t => Some t
              | None => base !! name
              end
    end
  /\ dom merged = dom base ∪ dom mcpTools ∪ dom skillTools
  /\ NoDup (map_to_list merged).*1.
Proof.
  intros base merged. subst base merged. unfold Registry.getTools.
  split; [| split].
  - rewrite !spread_lookup, lookup_empty.
    repeat case_match; reflexivity.
  - rewrite !spread_dom, dom_empty_L. set_solver.
  - apply NoDup_fst_map_to_list.
Qed.

(** ** The environment of a stdio MCP server *)

(** C9.  With an inline [env] and an [envFile] that loads, the environment
    handed to the server holds, for every key, the inline value when the
    inline map has the key and the value from the file otherwise. *)
Theorem stdioEnv_inline_over_envFile
    (trim : string -> string) (cwd : string) (st : Fs.fs) (PROJECT_ROOT : string)
    (cfg : McpEnv.MCPStdioConfig)
    (inline envFileVars : gmap string string) (file : string) :
  McpEnv.env cfg = Some inline ->
  McpEnv.envFile cfg = Some file ->
  file <> "" ->
  McpEnv.loadEnvFile trim cwd st file PROJECT_ROOT = Ok envFileVars ->
  exists merged,
    McpEnv.stdioEnv trim cwd st PROJECT_ROOT cfg = Ok merged
    /\ forall key,
         merged !! key =
         match inline !! key with
         | Some v => Some v
         | None => envFileVars !! key
         end.
Proof.
  intros Henv Hfile Hne Hload. unfold McpEnv.stdioEnv.
  rewrite Henv, Hfile, Hload. simpl.
  destruct file as [|c file]; [congruence |]. simpl.
  eexists. split; [reflexivity |].
  intros key. rewrite !spread_lookup, !lookup_empty.
  destruct (inline !! key), (envFileVars !! key); reflexivity.
Qed.

Example loadEnvFile_sample :
  McpEnv.loadEnvFile Sample.asciiTrim "/app/server" sampleEnvFileFs ".env" "/app"
  = Ok (<[ "B" := "two words" ]> (<[ "A" := "fromfile" ]> ∅)).
Proof. vm_compute. reflexivity. Qed.

Lemma stdioEnv_inline_over_envFile_witness :
  exists merged,
    McpEnv.stdioEnv Sample.asciiTrim "/app/server" sampleEnvFileFs "/app"
      sampleStdioConfig = Ok merged
    /\ merged !! "A" = Some "inline"
    /\ merged !! "B" = Some "two words".
Proof.
  destruct (stdioEnv_inline_over_envFile Sample.asciiTrim "/app/server"
              sampleEnvFileFs "/app" sampleStdioConfig
              (<[ "A" := "inline" ]> ∅)
              (<[ "B" := "two words" ]> (<[ "A" := "fromfile" ]> ∅))
              ".env" eq_refl eq_refl)
    as (merged & Hmerged & Hkeys).
  - discriminate.
  - vm_compute. reflexivity.
  - exists merged. split; [exact Hmerged |].
    split; [exact (Hkeys "A") | exact (Hkeys "B")].
Defined.

(** ** The chat endpoint *)
Section ChatFacts.
Context {Tool ToolCall : Type}.
Variables toLowerCase trim : string -> string.
Variable generateText :
  @Chat.GenerateRequest Tool -> result (@Chat.GenerateResult ToolCall).
Variable availableTools : gmap string Tool.

Abbreviation chat := (Chat.chat toLowerCase trim generateText availableTools).
Abbreviation requestFor := (Chat.requestFor (Tool:=Tool) toLowerCase availableTools).

Lemma testAlternatives_true_iff (ks : list string) (s : string) :
  Regex.testAlternatives ks s = true <->
  exists k, In k ks /\ SpecTerms.occursIn k s.
Proof.
  unfold Regex.testAlternatives. rewrite existsb_exists.
  split; intros [k [Hin Hk]]; exists k; split; try exact Hin;
    now apply includes_true_iff.
Qed.

(** The handler either rejects the body or issues exactly one generation
    request, built from the messages of the body. *)
Lemma chat_cases (requestBody : list (string * Chat.JValue)) :
  (Chat.asArray (Chat.getField "messages" requestBody) = None
   /\ chat requestBody =
      ({| Chat.status := 400;
          Chat.body := Chat.ErrorBody "Messages array is required" |}, []))
  \/ (exists messages resp,
        Chat.getField "messages" requestBody = Some (Chat.JArray messages)
        /\ chat requestBody = (resp, [requestFor messages])
        /\ (Chat.status resp = 200 \/ Chat.status resp = 500)).
Proof.
  unfold Chat.chat.
  destruct (Chat.getField "messages" requestBody) as [[| | | |items|]|] eqn:E;
    simpl; try (left; split; reflexivity).
  right. exists items.
  destruct (generateText _) as [r|message]; eexists; (split; [reflexivity |]);
    (split; [reflexivity |]); simpl; auto.
Qed.

Lemma actionKeyword_not_in_empty (k : string) :
  In k Chat.actionKeywords -> ~ SpecTerms.occursIn k "".
Proof.
  intros Hin [a [b Hab]].
  destruct a; [| discriminate]. simpl in Hab.
  destruct k; [| discriminate].
  simpl in Hin. repeat (destruct Hin as [Hin | Hin]; [discriminate |]).
  exact Hin.
Qed.

Lemma requiresAction_true_iff (messages : list Chat.JValue) :
  Chat.requiresAction toLowerCase messages = true <->
  exists m, last messages = Some m /\ SpecTerms.matchesActionPattern toLowerCase m.
Proof.
  unfold Chat.requiresAction, Chat.userMessageOf, SpecTerms.matchesActionPattern.
  rewrite testAlternatives_true_iff.
  destruct (last messages) as [m|] eqn:Hlast.
  - split.
    + intros [k [Hin Hocc]].
      destruct (Chat.optionalContent (Some m)) as [[| | |content| |]|] eqn:Hc;
        try (exfalso; exact (actionKeyword_not_in_empty k Hin Hocc)).
      exists m. split; [reflexivity |]. exists content, k. auto.
    + intros [m' [Hm' [content [k [Hc [Hin Hocc]]]]]].
      injection Hm' as <-. rewrite Hc. exists k. auto.
  - split.
    + intros [k [Hin Hocc]]. simpl in Hocc.
      exfalso. exact (actionKeyword_not_in_empty k Hin Hocc).
    + intros [m' [Hm' _]]. discriminate.
Qed.

(** C5.  A body whose [messages] field is missing or is not an array is
    answered with status 400 and the body
    [{error: "Messages array is required"}], and no generation request is
    issued. *)
Theorem chat_missing_messages_400 (requestBody : list (string * Chat.JValue)) :
  (Chat.getField "messages" requestBody = None
   \/ exists v, Chat.getField "messages" requestBody = Some v
                /\ forall items, v <> Chat.JArray items) ->
  chat requestBody =
  ({| Chat.status := 400;
      Chat.body := Chat.ErrorBody "Messages array is required" |}, []).
Proof.
  intros H. destruct (chat_cases requestBody) as [[_ Hc] | [ms [resp [Hms _]]]].
  - exact Hc.
  - exfalso. destruct H as [H | [v [Hv Hna]]].
    + congruence.
    + rewrite Hms in Hv. injection Hv as <-. exact (Hna ms eq_refl).
Qed.

(** C10.  A body whose [messages] field is the empty array is not answered
    with status 400: one generation request is issued, with no messages;
    the text tested for keywords is empty and the tool choice is [auto]. *)
Theorem chat_empty_messages_passes (requestBody : list (string * Chat.JValue)) :
  Chat.getField "messages" requestBody = Some (Chat.JArray []) ->
  exists resp req,
    chat requestBody = (resp, [req])
    /\ Chat.status resp <> 400
    /\ Chat.req_messages req = []
    /\ Chat.userMessageOf toLowerCase [] = ""
    /\ Chat.req_toolChoice req = Chat.auto.
Proof.
  intros H. destruct (chat_cases requestBody) as [[Hn _] | [ms [resp [Hms [Hc Hst]]]]].
  - rewrite H in Hn. discriminate.
  - rewrite H in Hms. injection Hms as <-.
    exists resp, (requestFor []). split; [exact Hc |].
    split; [destruct Hst as [-> | ->]; discriminate |].
    repeat split.
Qed.

(** C4.  When the generation returns tool calls and a text that is empty or
    blank, the text of the response is the default feedback message, which
    is not empty; when it returns a text that is not blank, the text of the
    response is that text. *)
Theorem chat_synthesizes_feedback
    (requestBody : list (string * Chat.JValue)) (messages : list Chat.JValue)
    (r : Chat.GenerateResult) :
  Chat.getField "messages" requestBody = Some (Chat.JArray messages) ->
  generateText (requestFor messages) = Ok r ->
  (Chat.toolCalls r <> [] ->
   Chat.text r = "" \/ trim (Chat.text r) = "" ->
   SpecTerms.responseText (chat requestBody).1
     = Some (Chat.defaultFeedback (length (Chat.toolCalls r)))
   /\ Chat.defaultFeedback (length (Chat.toolCalls r)) <> "")
  /\ (Chat.text r <> "" ->
      trim (Chat.text r) <> "" ->
      SpecTerms.responseText (chat requestBody).1 = Some (Chat.text r)).
Proof.
  intros Hms Hgen. unfold Chat.chat. rewrite Hms. simpl.
  fold requestFor. rewrite Hgen. simpl. unfold SpecTerms.responseText. simpl.
  split.
  - intros Hcalls Hblank.
    destruct (Chat.toolCalls r) as [|tc tcs] eqn:Etc; [congruence |]. simpl.
    assert (Hb : JsString.truthy (Chat.text r)
                 && negb (Nat.eqb (String.length (trim (Chat.text r))) 0) = false).
    { destruct Hblank as [-> | ->]; [reflexivity |].
      simpl. apply andb_false_r. }
    rewrite Hb. simpl. split; [reflexivity | discriminate].
  - intros Hne Htrim.
    assert (Ht : JsString.truthy (Chat.text r) = true).
    { destruct (Chat.text r); [congruence | reflexivity]. }
    assert (Hl : negb (Nat.eqb (String.length (trim (Chat.text r))) 0) = true).
    { destruct (trim (Chat.text r)); [congruence | reflexivity]. }
    rewrite Ht, Hl. simpl. rewrite andb_false_r. rewrite Ht. reflexivity.
Qed.

Lemma toolChoice_follows_last_message (messages : list Chat.JValue) :
  SpecTerms.forcedIffMatches toLowerCase last messages.
Proof.
  unfold SpecTerms.forcedIffMatches, Chat.toolChoiceFor.
  rewrite <- requiresAction_true_iff.
  destruct (Chat.requiresAction toLowerCase messages); split; split;
    congruence.
Qed.

(** What the handler does: the generation request is made with tool choice
    [required] exactly when the last message of the list, whoever wrote
    it, has a text content whose lower-case form holds one of the keywords
    of the pattern; for every other list it is made with [auto]. *)
Lemma chat_toolChoice_last_message
    (requestBody : list (string * Chat.JValue)) (messages : list Chat.JValue) :
  Chat.getField "messages" requestBody = Some (Chat.JArray messages) ->
  SpecTerms.forcedIffMatches toLowerCase last messages
  /\ exists resp req,
       chat requestBody = (resp, [req])
       /\ Chat.req_toolChoice req = Chat.toolChoiceFor toLowerCase messages.
Proof.
  intros Hms. split.
  - apply toolChoice_follows_last_message.
  - destruct (chat_cases requestBody) as [[Hn _] | [ms [resp [Hms' [Hc _]]]]].
    + rewrite Hms in Hn. discriminate.
    + rewrite Hms in Hms'. injection Hms' as <-.
      exists resp, (requestFor messages). split; [exact Hc | reflexivity].
Qed.

End ChatFacts.

(** *** The chat endpoint on sample requests *)

Lemma chat_missing_messages_400_witness :
  Chat.chat Sample.asciiLower Sample.asciiTrim talkingModel ∅ [] =
  ({| Chat.status := 400;
      Chat.body := Chat.ErrorBody "Messages array is required" |}, [])
  /\ Chat.chat Sample.asciiLower Sample.asciiTrim talkingModel ∅
       [("messages", Chat.JString "hello")] =
     ({| Chat.status := 400;
         Chat.body := Chat.ErrorBody "Messages array is required" |}, []).
Proof.
  split.
  - apply chat_missing_messages_400. left. reflexivity.
  - apply chat_missing_messages_400. right.
    exists (Chat.JString "hello"). split; [reflexivity | discriminate].
Defined.

Lemma chat_empty_messages_passes_witness :
  exists resp req,
    Chat.chat Sample.asciiLower Sample.asciiTrim failingModel ∅ (bodyWith [])
    = (resp, [req])
    /\ Chat.status resp <> 400
    /\ Chat.req_messages req = []
    /\ Chat.userMessageOf Sample.asciiLower [] = ""
    /\ Chat.req_toolChoice req = Chat.auto.
Proof.
  apply (chat_empty_messages_passes Sample.asciiLower Sample.asciiTrim
           failingModel ∅ (bodyWith [])).
  reflexivity.
Defined.

Lemma chat_synthesizes_feedback_witness :
  SpecTerms.responseText
    (Chat.chat Sample.asciiLower Sample.asciiTrim silentModel ∅
       (bodyWith [message "user" "what time is it"])).1
  = Some (Chat.defaultFeedback 1)
  /\ SpecTerms.responseText
       (Chat.chat Sample.asciiLower Sample.asciiTrim talkingModel ∅
          (bodyWith [message "user" "hello"])).1
     = Some "Done.".
Proof.
  split.
  - refine (proj1 (proj1 (chat_synthesizes_feedback Sample.asciiLower
              Sample.asciiTrim silentModel ∅
              (bodyWith [message "user" "what time is it"])
              [message "user" "what time is it"] _ eq_refl eq_refl) _ _)).
    + discriminate.
    + right. reflexivity.
  - refine (proj2 (chat_synthesizes_feedback Sample.asciiLower
              Sample.asciiTrim talkingModel ∅
              (bodyWith [message "user" "hello"])
              [message "user" "hello"] _ eq_refl eq_refl) _ _).
    + discriminate.
    + discriminate.
Defined.

Example chat_toolChoice_last_message_sample :
  SpecTerms.forcedIffMatches Sample.asciiLower last
    [message "user" "Please COMMIT my changes"]
  /\ Chat.toolChoiceFor Sample.asciiLower
       [message "user" "Please COMMIT my changes"] = Chat.required.
Proof.
  split.
  - apply (chat_toolChoice_last_message Sample.asciiLower Sample.asciiTrim
             talkingModel ∅
             (bodyWith [message "user" "Please COMMIT my changes"])).
    reflexivity.
  - reflexivity.
Qed.

Example toolChoice_samples :
  Chat.toolChoiceFor Sample.asciiLower [message "user" "git status please"]
  = Chat.required
  /\ Chat.toolChoiceFor Sample.asciiLower [message "user" "帮我看看这个文件"]
     = Chat.required
  /\ Chat.toolChoiceFor Sample.asciiLower [message "user" "execute the plan"]
     = Chat.auto
  /\ Chat.toolChoiceFor Sample.asciiLower
       [Chat.JObject [("role", Chat.JString "user");
                      ("content", Chat.JArray [Chat.JString "commit"])]]
     = Chat.auto.
Proof. vm_compute. repeat split. Qed.

Lemma last_filter_last {A : Type} (keep : A -> bool) (l : list A) (x : A) :
  last l = Some x -> keep x = true -> last (List.filter keep l) = Some x.
Proof.
  induction l as [|y l IH]; [discriminate |].
  destruct l as [|z l'].
  - simpl. intros [= ->] ->. reflexivity.
  - intros Hlast Hkeep. specialize (IH Hlast Hkeep).
    change (List.filter keep (y :: z :: l'))
      with (if keep y then y :: List.filter keep (z :: l')
            else List.filter keep (z :: l')).
    destruct (keep y); [| exact IH].
    destruct (List.filter keep (z :: l')) as [|w ws]; [discriminate | exact IH].
Qed.

(** When the conversation ends with a message of the user, as the chat
    client sends it, the last message is the last user message and the rule
    reads as the specification states it. *)
Lemma forced_when_user_speaks_last
    (toLowerCase : string -> string) (messages : list Chat.JValue) (m : Chat.JValue) :
  last messages = Some m ->
  SpecTerms.isUserMessage m = true ->
  SpecTerms.forcedIffMatches toLowerCase SpecTerms.lastUserMessage messages.
Proof.
  intros Hlast Huser.
  pose proof (toolChoice_follows_last_message toLowerCase messages) as H.
  unfold SpecTerms.forcedIffMatches, SpecTerms.lastUserMessage in *.
  now rewrite (last_filter_last _ _ _ Hlast Huser), <- Hlast.
Qed.

(** C3.  The handler tests the last message of the list, whoever wrote
    it, where the rule and the comment in the code speak of the message of
    the user.  In the first conversation the last message of the user asks
    for a commit and the list ends with a message of the assistant: the
    text tested is that of the assistant and the generation request is
    made with tool choice [auto].  In the second the last message of the
    user holds no keyword and the assistant's does: the request is made
    with tool choice [required].  In the third the user writes the word
    [execute], which is none of the keywords of the pattern: the request
    is made with tool choice [auto]. *)
Theorem chat_toolChoice_not_by_last_user_message :
  let asked := [message "user" "commit"; message "assistant" "ok"] in
  let offered := [message "user" "hello"; message "assistant" "shall I commit?"] in
  let plan := [message "user" "execute the plan"] in
  let choice messages :=
    map Chat.req_toolChoice
      (Chat.chat Sample.asciiLower Sample.asciiTrim talkingModel
         (∅ : gmap string string) (bodyWith messages)).2 in
  (SpecTerms.lastUserMessage asked = Some (message "user" "commit")
   /\ SpecTerms.matchesActionPattern Sample.asciiLower (message "user" "commit")
   /\ Chat.userMessageOf Sample.asciiLower asked = "ok"
   /\ choice asked = [Chat.auto]
   /\ ~ SpecTerms.forcedIffMatches Sample.asciiLower SpecTerms.lastUserMessage asked)
  /\ (SpecTerms.lastUserMessage offered = Some (message "user" "hello")
      /\ ~ SpecTerms.matchesActionPattern Sample.asciiLower (message "user" "hello")
      /\ Chat.userMessageOf Sample.asciiLower offered = "shall i commit?"
      /\ choice offered = [Chat.required]
      /\ ~ SpecTerms.forcedIffMatches Sample.asciiLower SpecTerms.lastUserMessage offered)
  /\ (SpecTerms.lastUserMessage plan = Some (message "user" "execute the plan")
      /\ ~ In "execute" Chat.actionKeywords
      /\ choice plan = [Chat.auto]).
Proof.
  assert (Hmatch : SpecTerms.matchesActionPattern Sample.asciiLower
                     (message "user" "commit")).
  { exists "commit", "commit". split; [reflexivity |].
    split; [simpl; auto |]. exists "", "". reflexivity. }
  assert (Hnone : ~ SpecTerms.matchesActionPattern Sample.asciiLower
                      (message "user" "hello")).
  { intros (content & keyword & Hcontent & Hin & Hocc).
    injection Hcontent as <-.
    assert (Htest : Regex.testAlternatives Chat.actionKeywords
                      (Sample.asciiLower "hello") = true).
    { apply testAlternatives_true_iff. now exists keyword. }
    vm_compute in Htest. discriminate. }
  cbv zeta. split; [| split].
  - split; [reflexivity |]. split; [exact Hmatch |].
    split; [reflexivity |]. split; [reflexivity |].
    intros [_ Hauto]. apply (proj1 Hauto eq_refl).
    exists (message "user" "commit"). split; [reflexivity | exact Hmatch].
  - split; [reflexivity |]. split; [exact Hnone |].
    split; [reflexivity |]. split; [reflexivity |].
    intros [Hrequired _].
    destruct (proj1 Hrequired eq_refl) as (m & Hm & Hmatches).
    injection Hm as <-. exact (Hnone Hmatches).
  - split; [reflexivity |]. split; [| reflexivity].
    simpl. intros H.
    repeat (destruct H as [H | H]; [discriminate |]). exact H.
Qed.

(** ** The skill scanner *)

Lemma stripPrefix_Some (p s r : string) :
  Regex.stripPrefix p s = Some r -> s = p +:+ r.
Proof.
  revert s. induction p as [|a p IH]; intros s; simpl.
  - congruence.
  - destruct s as [|b s]; [discriminate |].
    destruct (Ascii.eqb a b) eqn:E; [| discriminate].
    apply Ascii.eqb_eq in E. subst b. intros H. now rewrite (IH _ H).
Qed.

Lemma stripPrefix_append (p r : string) : Regex.stripPrefix p (p +:+ r) = Some r.
Proof.
  induction p as [|a p IH]; simpl; [reflexivity |].
  now rewrite Ascii.eqb_refl.
Qed.

Lemma takeWord_spec (s w rest : string) :
  Skills.takeWord s = (w, rest) ->
  s = w +:+ rest /\ forallb Skills.isWordChar (list_ascii_of_string w) = true.
Proof.
  revert w rest. induction s as [|c s IH]; intros w rest; simpl.
  - intros H. injection H as <- <-. split; reflexivity.
  - destruct (Skills.isWordChar c) eqn:Ec.
    + destruct (Skills.takeWord s) as [w' rest'].
      intros H. injection H as <- <-.
      destruct (IH w' rest' eq_refl) as [-> Hw].
      split; [reflexivity |]. simpl. now rewrite Ec.
    + intros H. injection H as <- <-. split; reflexivity.
Qed.

Lemma bodyBeforeFence_unfold (s : string) :
  Skills.bodyBeforeFence s =
  if JsString.startsWith s Skills.fence then Some EmptyString
  else match s with
       | EmptyString => None
       | String c s' =>
           match Skills.bodyBeforeFence s' with
           | Some body => Some (String c body)
           | None => None
           end
       end.
Proof. destruct s; reflexivity. Qed.

Lemma bodyBeforeFence_spec (s body : string) :
  Skills.bodyBeforeFence s = Some body ->
  exists after, s = body +:+ Skills.fence +:+ after.
Proof.
  revert body. induction s as [|c s IH]; intros body;
    rewrite bodyBeforeFence_unfold.
  - simpl. discriminate.
  - destruct (JsString.startsWith (String c s) Skills.fence) eqn:E.
    + intros [= <-].
      apply startsWith_true_iff in E. destruct E as [r Hr].
      exists r. exact Hr.
    + destruct (Skills.bodyBeforeFence s) as [body'|]; [| discriminate].
      intros [= <-].
      destruct (IH body' eq_refl) as [after ->].
      exists after. reflexivity.
Qed.

Lemma codeBlockRegex_Some (s : string) (n : nat) (m1 m2 : string) :
  Skills.codeBlockRegex s = Some (n, (m1, m2)) ->
  hasFencedBlock s.
Proof.
  unfold Skills.codeBlockRegex.
  destruct (Regex.stripPrefix Skills.fence s) as [r|] eqn:Hp; [| discriminate].
  apply stripPrefix_Some in Hp.
  destruct (Skills.takeWord r) as [w r1] eqn:Hw.
  apply takeWord_spec in Hw. destruct Hw as [Hr Hword].
  destruct r1 as [|c r2]; [discriminate |].
  destruct (Ascii.eqb c "010") eqn:Ec; [| discriminate].
  apply Ascii.eqb_eq in Ec. subst c.
  destruct (Skills.bodyBeforeFence r2) as [body|] eqn:Hb; [| discriminate].
  apply bodyBeforeFence_spec in Hb. destruct Hb as [after Hafter].
  intros _. exists "", w, body, after. split; [| exact Hword].
  subst s r r2. reflexivity.
Qed.

Lemma hasFencedBlock_cons (c : ascii) (s : string) :
  hasFencedBlock s -> hasFencedBlock (String c s).
Proof.
  intros (before & tag & body & after & -> & Hw).
  exists (String c before), tag, body, after. split; [reflexivity | exact Hw].
Qed.

(** A text that starts no fence when two backquotes follow it starts none
    when a fence and more follow it. *)
Lemma no_fence_ahead (x r : string) :
  x <> "" ->
  JsString.startsWith (x +:+ "``") Skills.fence = false ->
  JsString.startsWith (x +:+ Skills.fence +:+ r) Skills.fence = false
  /\ Regex.stripPrefix Skills.fence (x +:+ Skills.fence +:+ r) = None.
Proof.
  intros Hx. unfold Skills.fence.
  destruct x as [|c [|d [|e x']]]; [congruence | ..];
    cbn [String.append JsString.startsWith Regex.stripPrefix];
    rewrite ?Ascii.eqb_refl, ?andb_true_r; cbn [andb];
    destruct (Ascii.eqb "`" c); cbn [andb]; try discriminate; try (split; reflexivity);
    destruct (Ascii.eqb "`" d); cbn [andb]; try discriminate; try (split; reflexivity);
    destruct (Ascii.eqb "`" e); cbn [andb]; try discriminate; split; reflexivity.
Qed.

Lemma noFenceStarts_cons (c : ascii) (text : string) :
  noFenceStarts (String c text) = true ->
  JsString.startsWith (String c text +:+ "``") Skills.fence = false
  /\ noFenceStarts text = true.
Proof.
  unfold noFenceStarts. rewrite !negb_true_iff.
  change (String c text +:+ "``") with (String c (text +:+ "``")).
  cbn [JsString.includes]. intros H. apply orb_false_iff in H. exact H.
Qed.

Lemma takeWord_tag (tag rest : string) :
  forallb Skills.isWordChar (list_ascii_of_string tag) = true ->
  Skills.takeWord (tag +:+ String "010" rest) = (tag, String "010" rest).
Proof.
  induction tag as [|c tag IH]; intros Hword; [reflexivity |].
  simpl in Hword. apply andb_prop in Hword as [Hc Htag].
  change (String c tag +:+ String "010" rest)
    with (String c (tag +:+ String "010" rest)).
  cbn [Skills.takeWord]. now rewrite Hc, (IH Htag).
Qed.

Lemma bodyBeforeFence_body (body after : string) :
  noFenceStarts body = true ->
  Skills.bodyBeforeFence (body +:+ Skills.fence +:+ after) = Some body.
Proof.
  induction body as [|c body IH]; intros Hbody.
  - rewrite bodyBeforeFence_unfold. reflexivity.
  - apply noFenceStarts_cons in Hbody as [Hhere Hrest].
    destruct (no_fence_ahead (String c body) after ltac:(discriminate) Hhere)
      as [Hstart _].
    change (String c body +:+ Skills.fence +:+ after)
      with (String c (body +:+ Skills.fence +:+ after)) in *.
    rewrite bodyBeforeFence_unfold, Hstart.
    now rewrite (IH Hrest).
Qed.

(** The pattern matches a block written with a tag of word characters,
    and captures the tag and the body up to the next fence. *)
Lemma codeBlockRegex_block (tag body after : string) :
  forallb Skills.isWordChar (list_ascii_of_string tag) = true ->
  noFenceStarts body = true ->
  Skills.codeBlockRegex
    (Skills.fence +:+ tag +:+ String "010" (body +:+ Skills.fence +:+ after))
  = Some (3 + String.length tag + 1 + String.length body + 3, (tag, body)).
Proof.
  intros Htag Hbody. unfold Skills.codeBlockRegex.
  rewrite stripPrefix_append, (takeWord_tag _ _ Htag).
  cbn [Ascii.eqb Bool.eqb andb]. cbv iota.
  now rewrite (bodyBeforeFence_body _ _ Hbody).
Qed.

Section SkillFacts.
Variables toLowerCase trim : string -> string.

Lemma extractGo_no_block (s : string) (index : nat) :
  ~ hasFencedBlock s -> Skills.extractGo toLowerCase trim 0 index s = [].
Proof.
  revert index. induction s as [|c s IH]; intros index Hno; simpl.
  - reflexivity.
  - destruct (Skills.codeBlockRegex (String c s)) as [[n [m1 m2]]|] eqn:E.
    + exfalso. apply Hno. exact (codeBlockRegex_Some _ _ _ _ E).
    + apply IH. intros H. apply Hno. now apply hasFencedBlock_cons.
Qed.

Lemma isExecutable_true_iff (b : Skills.CodeBlock) :
  Skills.isExecutable b = true <->
  In (Skills.language b) Skills.executableLanguages \/ Skills.language b = "".
Proof.
  unfold Skills.isExecutable.
  rewrite orb_true_iff, existsb_exists, String.eqb_eq. split.
  - intros [[l [Hin Hl]] | H]; [left | right; exact H].
    apply String.eqb_eq in Hl. now rewrite Hl.
  - intros [H | H]; [left | right; exact H].
    exists (Skills.language b). split; [exact H | apply String.eqb_refl].
Qed.

(** The scan passes a text in which no fence starts. *)
Lemma extractGo_plain (before r : string) :
  noFenceStarts before = true ->
  forall index,
    Skills.extractGo toLowerCase trim 0 index (before +:+ Skills.fence +:+ r)
    = Skills.extractGo toLowerCase trim 0 index (Skills.fence +:+ r).
Proof.
  induction before as [|c before IH]; intros Hplain index; [reflexivity |].
  apply noFenceStarts_cons in Hplain as [Hhere Hrest].
  destruct (no_fence_ahead (String c before) r ltac:(discriminate) Hhere)
    as [_ Hstrip].
  assert (Hnone : Skills.codeBlockRegex (String c before +:+ Skills.fence +:+ r) = None).
  { unfold Skills.codeBlockRegex. now rewrite Hstrip. }
  change (String c before +:+ Skills.fence +:+ r)
    with (String c (before +:+ Skills.fence +:+ r)) in *.
  cbn [Skills.extractGo]. rewrite Hnone. now apply IH.
Qed.

(** The scan passes the rest of a match. *)
Lemma extractGo_skip (q r : string) :
  forall index,
    Skills.extractGo toLowerCase trim (String.length q) index (q +:+ r)
    = Skills.extractGo toLowerCase trim 0 index r.
Proof.
  induction q as [|c q IH]; intros index; [reflexivity |].
  change (String c q +:+ r) with (String c (q +:+ r)).
  cbn [String.length Skills.extractGo]. apply IH.
Qed.

(** The blocks counted from the next index. *)
Lemma extractGo_nextIndex (s : string) :
  forall skip index,
    Skills.extractGo toLowerCase trim skip (S index) s
    = map nextIndex (Skills.extractGo toLowerCase trim skip index s).
Proof.
  induction s as [|c s IH]; intros skip index; simpl; [reflexivity |].
  destruct skip as [|k]; [| apply IH].
  destruct (Skills.codeBlockRegex (String c s)) as [[n [m1 m2]]|]; [| apply IH].
  destruct (JsString.truthy (trim m2)); [| apply IH].
  simpl. unfold nextIndex at 1. simpl. f_equal. apply IH.
Qed.

(** The scan of a descriptor up to its first block and behind it. *)
Lemma extractGo_block (before tag body after : string) (index : nat) :
  noFenceStarts before = true ->
  forallb Skills.isWordChar (list_ascii_of_string tag) = true ->
  noFenceStarts body = true ->
  Skills.extractGo toLowerCase trim 0 index
    (before +:+ Skills.fence +:+ tag +:+ String "010" (body +:+ Skills.fence +:+ after))
  = if JsString.truthy (trim body)
    then {| Skills.language := toLowerCase tag; Skills.code := trim body;
            Skills.index := index |}
           :: Skills.extractGo toLowerCase trim 0 (S index) after
    else Skills.extractGo toLowerCase trim 0 index after.
Proof.
  intros Hbefore Htag Hbody.
  rewrite (extractGo_plain before
             (tag +:+ String "010" (body +:+ Skills.fence +:+ after)) Hbefore).
  pose proof (codeBlockRegex_block tag body after Htag Hbody) as Hmatch.
  set (q := "``" +:+ tag +:+ String "010" (body +:+ Skills.fence)).
  assert (Hq : Skills.fence +:+ tag +:+ String "010" (body +:+ Skills.fence +:+ after)
               = String "`" (q +:+ after)).
  { subst q. unfold Skills.fence. cbn [String.append]. do 3 f_equal.
    rewrite !append_assoc. cbn [String.append]. now rewrite !append_assoc. }
  assert (Hlen : String.length q
                 = pred (3 + String.length tag + 1 + String.length body + 3)).
  { subst q. unfold Skills.fence. cbn [String.append String.length].
    rewrite !length_append. cbn [String.length]. rewrite !length_append.
    cbn [String.length]. lia. }
  rewrite Hq in *. cbn [Skills.extractGo]. rewrite Hmatch, <- Hlen.
  now rewrite !extractGo_skip.
Qed.

Lemma existsb_nextIndex (blocks : list Skills.CodeBlock) :
  existsb Skills.isExecutable (map nextIndex blocks)
  = existsb Skills.isExecutable blocks.
Proof.
  induction blocks as [|b blocks IH]; [reflexivity |].
  simpl. now rewrite IH.
Qed.

(** C7.  The flag [hasExecutableScripts] of a loaded skill holds exactly
    when one of its extracted code blocks has a language of the allow-list
    or the empty language; a descriptor without a fenced code block gives
    the flag [false] and no code blocks.  The blocks are those written in
    the descriptor: when the first fence of the descriptor opens a block,
    with a tag of word characters, a line feed and a body that runs to the
    next fence, the skill has that block, with the tag in lower case as
    its language and the trimmed body as its code, followed by the blocks
    of the text behind it, and its flag holds exactly when the language of
    that block is executable or the text behind it has an executable
    block; a block whose body is blank is left out. *)
Theorem loadSkill_hasExecutableScripts (content : string) :
  let skill := Skills.loadSkill toLowerCase trim content in
  (Skills.hasExecutableScripts skill = true <->
   exists block,
     In block (Skills.codeBlocks skill)
     /\ (In (Skills.language block) Skills.executableLanguages
         \/ Skills.language block = ""))
  /\ (~ hasFencedBlock content ->
      Skills.hasExecutableScripts skill = false
      /\ Skills.codeBlocks skill = [])
  /\ (forall before tag body after,
        content = before +:+ Skills.fence +:+ tag
                  +:+ String "010" (body +:+ Skills.fence +:+ after) ->
        noFenceStarts before = true ->
        forallb Skills.isWordChar (list_ascii_of_string tag) = true ->
        noFenceStarts body = true ->
        let rest := Skills.loadSkill toLowerCase trim after in
        let block := {| Skills.language := toLowerCase tag;
                        Skills.code := trim body;
                        Skills.index := 0 |} in
        (trim body <> "" ->
         Skills.codeBlocks skill = block :: map nextIndex (Skills.codeBlocks rest)
         /\ (Skills.hasExecutableScripts skill = true <->
             In (toLowerCase tag) Skills.executableLanguages
             \/ toLowerCase tag = ""
             \/ Skills.hasExecutableScripts rest = true))
        /\ (trim body = "" ->
            Skills.codeBlocks skill = Skills.codeBlocks rest
            /\ Skills.hasExecutableScripts skill = Skills.hasExecutableScripts rest)).
Proof.
  cbv zeta. unfold Skills.loadSkill.
  cbn [Skills.codeBlocks Skills.hasExecutableScripts].
  split; [| split].
  - rewrite existsb_exists. split; intros [b [Hin Hb]]; exists b;
      (split; [exact Hin | now apply isExecutable_true_iff]).
  - intros Hno. unfold Skills.extractCodeBlocks.
    rewrite (extractGo_no_block content 0 Hno). split; reflexivity.
  - intros before tag body after -> Hbefore Htag Hbody.
    unfold Skills.extractCodeBlocks.
    rewrite (extractGo_block before tag body after 0 Hbefore Htag Hbody).
    split.
    + intros Hcode.
      assert (Htruthy : JsString.truthy (trim body) = true).
      { destruct (trim body); [congruence | reflexivity]. }
      rewrite Htruthy, extractGo_nextIndex. split; [reflexivity |].
      cbn [existsb]. rewrite existsb_nextIndex, orb_true_iff, isExecutable_true_iff.
      simpl. tauto.
    + intros Hblank. rewrite Hblank. split; reflexivity.
Qed.

End SkillFacts.

(** *** The scanner on sample descriptors *)

Example loadSkill_sample :
  Skills.loadSkill Sample.asciiLower Sample.asciiTrim sampleSkill =
  {| Skills.codeBlocks :=
       [ {| Skills.language := "bash"; Skills.code := "echo hi"; Skills.index := 0 |};
         {| Skills.language := "json"; Skills.code := "{}"; Skills.index := 1 |};
         {| Skills.language := ""; Skills.code := "ls"; Skills.index := 2 |} ];
     Skills.hasExecutableScripts := true |}.
Proof. vm_compute. reflexivity. Qed.

Example loadSkill_data_only :
  Skills.loadSkill Sample.asciiLower Sample.asciiTrim
    ("```json" +:+ lf +:+ "{}" +:+ lf +:+ "```") =
  {| Skills.codeBlocks :=
       [ {| Skills.language := "json"; Skills.code := "{}"; Skills.index := 0 |} ];
     Skills.hasExecutableScripts := false |}.
Proof. vm_compute. reflexivity. Qed.

Lemma no_fence_no_block (content : string) :
  JsString.includes content Skills.fence = false -> ~ hasFencedBlock content.
Proof.
  intros Hinc (before & tag & body & after & Hc & _).
  assert (Hocc : SpecTerms.occursIn Skills.fence content).
  { exists before. eexists. exact Hc. }
  apply includes_true_iff in Hocc. congruence.
Qed.

Lemma loadSkill_hasExecutableScripts_witness :
  (Skills.hasExecutableScripts
     (Skills.loadSkill Sample.asciiLower Sample.asciiTrim
        "Use `git status` before you commit.") = false
   /\ Skills.codeBlocks
        (Skills.loadSkill Sample.asciiLower Sample.asciiTrim
           "Use `git status` before you commit.") = [])
  /\ (Skills.codeBlocks
        (Skills.loadSkill Sample.asciiLower Sample.asciiTrim
           ("Run `this`:" +:+ lf +:+ "```Bash" +:+ lf +:+ "echo hi" +:+ lf +:+ "```" +:+ lf))
      = [ {| Skills.language := "bash"; Skills.code := "echo hi"; Skills.index := 0 |} ]
      /\ Skills.hasExecutableScripts
           (Skills.loadSkill Sample.asciiLower Sample.asciiTrim
              ("Run `this`:" +:+ lf +:+ "```Bash" +:+ lf +:+ "echo hi" +:+ lf +:+ "```" +:+ lf))
         = true).
Proof.
  split.
  - apply (proj1 (proj2 (loadSkill_hasExecutableScripts Sample.asciiLower
                           Sample.asciiTrim "Use `git status` before you commit."))).
    apply no_fence_no_block. vm_compute. reflexivity.
  - destruct (proj1 (proj2 (proj2 (loadSkill_hasExecutableScripts Sample.asciiLower
                Sample.asciiTrim
                ("Run `this`:" +:+ lf +:+ "```Bash" +:+ lf +:+ "echo hi" +:+ lf +:+ "```" +:+ lf)))
                ("Run `this`:" +:+ lf) "Bash" ("echo hi" +:+ lf) lf
                eq_refl eq_refl eq_refl eq_refl) ltac:(discriminate))
      as [Hblocks Hflag].
    split.
    + rewrite Hblocks. reflexivity.
    + apply Hflag. left. vm_compute. tauto.
Defined.

(** ** Paths *)

Lemma split_plain (name : string) :
  lacksChar "/" name = true -> JsString.split "/" name = [name].
Proof.
  induction name as [|c name IH]; simpl; [reflexivity |].
  intros H. apply andb_true_iff in H. destruct H as [Hc Hrest].
  apply negb_true_iff in Hc. rewrite Hc, (IH Hrest). reflexivity.
Qed.

Lemma split_first (name rest : string) :
  lacksChar "/" name = true ->
  JsString.split "/" (name +:+ String "/" rest) = name :: JsString.split "/" rest.
Proof.
  induction name as [|c name IH]; simpl; [reflexivity |].
  intros H. apply andb_true_iff in H. destruct H as [Hc Hrest].
  apply negb_true_iff in Hc. rewrite Hc, (IH Hrest). reflexivity.
Qed.

Lemma cleanName_parts (name : string) :
  cleanName name = true ->
  lacksChar "/" name = true
  /\ String.eqb name "" = false
  /\ String.eqb name "." = false
  /\ String.eqb name ".." = false.
Proof.
  unfold cleanName. rewrite !andb_true_iff, !negb_true_iff. tauto.
Qed.

Lemma split_join (names : list string) :
  names <> [] ->
  Forall (fun name => cleanName name = true) names ->
  JsString.split "/" (JsString.join "/" names) = names.
Proof.
  intros Hne Hclean. induction Hclean as [|name names Hname Hclean IH];
    [congruence |].
  apply cleanName_parts in Hname. destruct Hname as [Hslash _].
  destruct names as [|next names'].
  - simpl. now apply split_plain.
  - change (JsString.join "/" (name :: next :: names'))
      with (name +:+ String "/" (JsString.join "/" (next :: names'))).
    rewrite (split_first _ _ Hslash), IH; [reflexivity | discriminate].
Qed.

Lemma normalizeSegments_clean (names acc : list string) :
  Forall (fun name => cleanName name = true) names ->
  Path.normalizeSegments false acc names = rev acc ++ names.
Proof.
  intros Hclean. revert acc.
  induction Hclean as [|name names Hname Hclean IH]; intros acc; simpl.
  - now rewrite app_nil_r.
  - apply cleanName_parts in Hname. destruct Hname as (_ & -> & -> & ->).
    simpl. rewrite IH. simpl. now rewrite <- app_assoc.
Qed.

(** The components of a normalised absolute path are its names. *)
Lemma components_absolutePath (cwd : string) (names : list string) :
  Forall (fun name => cleanName name = true) names ->
  Path.components cwd (absolutePath names) = names.
Proof.
  intros Hclean. unfold Path.components, absolutePath.
  change (Path.isAbsolute ("/" +:+ JsString.join "/" names)) with true.
  cbv iota.
  change ("/" +:+ JsString.join "/" names)
    with ("" +:+ String "/" (JsString.join "/" names)).
  rewrite split_first by reflexivity.
  destruct names as [|name names'].
  - reflexivity.
  - rewrite split_join by (discriminate || assumption).
    change (Path.normalizeSegments false [] ("" :: name :: names'))
      with (Path.normalizeSegments false [] (name :: names')).
    now rewrite normalizeSegments_clean.
Qed.

Lemma chars_append (a b : string) :
  list_ascii_of_string (a +:+ b) = list_ascii_of_string a ++ list_ascii_of_string b.
Proof. induction a as [|c a IH]; simpl; [reflexivity | now rewrite IH]. Qed.

Lemma lacksChar_chars (c : ascii) (s : string) :
  lacksChar c s = forallb (fun d => negb (Ascii.eqb d c)) (list_ascii_of_string s).
Proof. induction s as [|d s IH]; simpl; [reflexivity | now rewrite IH]. Qed.

Lemma dropLastSegment_segment (segment tail : list ascii) :
  forallb (fun d => negb (Ascii.eqb d "/")) segment = true ->
  Path.dropLastSegment (segment ++ "/"%char :: tail) = "/"%char :: tail.
Proof.
  induction segment as [|c segment IH]; simpl; [reflexivity |].
  intros H. apply andb_true_iff in H. destruct H as [Hc Hrest].
  apply negb_true_iff in Hc. rewrite Hc. now apply IH.
Qed.

Lemma dropTrailingSlashes_segment (segment tail : list ascii) :
  segment <> [] ->
  forallb (fun d => negb (Ascii.eqb d "/")) segment = true ->
  Path.dropTrailingSlashes (segment ++ tail) = segment ++ tail.
Proof.
  destruct segment as [|c segment]; [congruence |]. simpl.
  intros _ H. apply andb_true_iff in H. destruct H as [Hc _].
  apply negb_true_iff in Hc. now rewrite Hc.
Qed.

Lemma join_snoc (first : string) (names : list string) (name : string) :
  JsString.join "/" ((first :: names) ++ [name])
  = JsString.join "/" (first :: names) +:+ "/" +:+ name.
Proof.
  revert first. induction names as [|next names IH]; intros first.
  - reflexivity.
  - change (JsString.join "/" ((first :: next :: names) ++ [name]))
      with (first +:+ "/" +:+ JsString.join "/" ((next :: names) ++ [name])).
    rewrite IH.
    change (JsString.join "/" (first :: next :: names))
      with (first +:+ "/" +:+ JsString.join "/" (next :: names)).
    now rewrite !append_assoc.
Qed.

Lemma forallb_rev {A : Type} (keep : A -> bool) (l : list A) :
  forallb keep (rev l) = forallb keep l.
Proof.
  induction l as [|x l IH]; [reflexivity |].
  simpl. rewrite forallb_app, IH. simpl. rewrite andb_true_r. apply andb_comm.
Qed.

(** The directory part of a normalised absolute path is the path of the
    names before the last. *)
Lemma dirname_absolutePath (names : list string) (name : string) :
  cleanName name = true ->
  Forall (fun n => cleanName n = true) names ->
  Path.dirname (absolutePath (names ++ [name])) = absolutePath names.
Proof.
  intros Hname Hnames. apply cleanName_parts in Hname.
  destruct Hname as (Hslash & Hne & _).
  assert (Hchars : forallb (fun d => negb (Ascii.eqb d "/"))
                     (rev (list_ascii_of_string name)) = true).
  { now rewrite forallb_rev, <- lacksChar_chars. }
  assert (Hrev : rev (list_ascii_of_string name) <> []).
  { destruct name as [|c name']; [discriminate |]. simpl.
    intros H. apply (f_equal (@length ascii)) in H.
    rewrite length_app in H. simpl in H. lia. }
  unfold Path.dirname, absolutePath.
  change (String.eqb ("/" +:+ JsString.join "/" (names ++ [name])) "") with false.
  change (Path.isAbsolute ("/" +:+ JsString.join "/" (names ++ [name]))) with true.
  cbv iota zeta.
  change (list_ascii_of_string ("/" +:+ JsString.join "/" (names ++ [name])))
    with ("/"%char :: list_ascii_of_string (JsString.join "/" (names ++ [name]))).
  destruct names as [|first names'].
  - change (JsString.join "/" ([] ++ [name])) with name.
    change (rev ("/"%char :: list_ascii_of_string name))
      with (rev (list_ascii_of_string name) ++ ["/"%char]).
    rewrite dropTrailingSlashes_segment, dropLastSegment_segment by assumption.
    reflexivity.
  - rewrite join_snoc, !chars_append.
    change (list_ascii_of_string "/") with ["/"%char].
    change (rev ("/"%char :: list_ascii_of_string (JsString.join "/" (first :: names'))
                 ++ ["/"%char] ++ list_ascii_of_string name))
      with (rev (list_ascii_of_string (JsString.join "/" (first :: names'))
                 ++ ["/"%char] ++ list_ascii_of_string name) ++ ["/"%char]).
    rewrite !rev_app_distr. simpl rev at 2. rewrite <- !app_assoc.
    change (["/"%char] ++ rev (list_ascii_of_string (JsString.join "/" (first :: names')))
            ++ ["/"%char])
      with ("/"%char :: rev (list_ascii_of_string (JsString.join "/" (first :: names')))
            ++ ["/"%char]).
    rewrite dropTrailingSlashes_segment, dropLastSegment_segment by assumption.
    assert (Hjoin : exists c rest,
               list_ascii_of_string (JsString.join "/" (first :: names')) = c :: rest).
    { apply Forall_inv in Hnames. apply cleanName_parts in Hnames.
      destruct Hnames as (_ & Hfirst & _).
      destruct first as [|c first']; [discriminate |].
      destruct names'; simpl; eauto. }
    destruct Hjoin as (c & rest & Hjoin). rewrite Hjoin.
    remember (rev (c :: rest) ++ ["/"%char]) as before eqn:Ebefore.
    assert (Hlen : 2 <= length before).
    { subst before. rewrite length_app, length_rev. simpl. lia. }
    destruct before as [|x [|y before']]; simpl in Hlen; try lia.
    rewrite Ebefore, rev_app_distr, rev_involutive, <- Hjoin.
    change (rev ["/"%char] ++ list_ascii_of_string (JsString.join "/" (first :: names')))
      with (list_ascii_of_string ("/" +:+ JsString.join "/" (first :: names'))).
    apply string_of_list_ascii_of_string.
Qed.

(** A normalised absolute path names an entry of its directory part. *)
Lemma absolutePath_names_entry (cwd : string) (names : list string) :
  names <> [] ->
  Forall (fun n => cleanName n = true) names ->
  Path.components cwd (Path.dirname (absolutePath names))
  = removelast (Path.components cwd (absolutePath names)).
Proof.
  intros Hne Hclean.
  destruct (exists_last Hne) as (init & name & ->).
  apply Forall_app in Hclean. destruct Hclean as [Hinit Hname].
  apply Forall_inv in Hname.
  rewrite (dirname_absolutePath _ _ Hname Hinit).
  rewrite !components_absolutePath.
  - now rewrite removelast_last.
  - apply Forall_app. split; [exact Hinit | now constructor].
  - exact Hinit.
Qed.

(** ** The file system *)

Section FsFacts.
Variable cwd : string.

(** Where the walk of the kernel arrives, the lexical walk of
    [path.resolve] arrives too: there are no symbolic links. *)
Lemma walk_normalize (st : Fs.fs) (segs : list string) :
  forall here cs,
    Forall (fun name => name <> "..") here ->
    Fs.walk st here segs = inr cs ->
    cs = Path.normalizeSegments false (rev here) segs.
Proof.
  induction segs as [|seg rest IH]; intros here cs Hhere; simpl.
  - intros [= <-]. now rewrite rev_involutive.
  - destruct (Fs.lookupComponents st here) as [[text|]|]; try discriminate.
    destruct (String.eqb seg "" || String.eqb seg "."); [now apply IH |].
    destruct (String.eqb seg "..") eqn:Eup.
    + destruct (rev here) as [|l acc] eqn:Erev.
      * apply (f_equal (@rev string)) in Erev. rewrite rev_involutive in Erev.
        subst here. simpl. now apply IH.
      * apply (f_equal (@rev string)) in Erev. rewrite rev_involutive in Erev.
        simpl in Erev. subst here. rewrite removelast_last.
        apply Forall_app in Hhere as [Hacc Hl]. apply Forall_inv in Hl.
        apply String.eqb_neq in Hl. rewrite Hl.
        intros Hwalk. apply IH in Hwalk; [| exact Hacc].
        now rewrite rev_involutive in Hwalk.
    + intros Hwalk. apply IH in Hwalk.
      * now rewrite rev_app_distr in Hwalk.
      * apply Forall_app. split; [exact Hhere |]. constructor; [| constructor].
        now apply String.eqb_neq.
Qed.

Lemma resolveEntry_components (st : Fs.fs) (p : string) (cs : list string) :
  Fs.resolveEntry cwd st p = inr cs -> cs = Path.components cwd p.
Proof.
  unfold Fs.resolveEntry, Path.components, Fs.segments.
  destruct (String.eqb p ""); [discriminate |].
  intros Hwalk. now apply walk_normalize in Hwalk.
Qed.

(** A path that leads to an entry leads to the entry stored under its
    resolved components. *)
Lemma lookupPath_entry (st : Fs.fs) (p : string) (n : Fs.node) :
  Fs.lookupPath cwd st p = Some n ->
  Fs.resolveEntry cwd st p = inr (Path.components cwd p)
  /\ Fs.lookupComponents st (Path.components cwd p) = Some n.
Proof.
  unfold Fs.lookupPath.
  destruct (Fs.resolveEntry cwd st p) as [code|cs] eqn:E; [discriminate |].
  apply resolveEntry_components in E as Hcs. subst cs. auto.
Qed.

Lemma lookupPath_file (st : Fs.fs) (p content : string) :
  Fs.lookupPath cwd st p = Some (Fs.File content) ->
  Path.components cwd p <> []
  /\ st !! Path.components cwd p = Some (Fs.File content).
Proof.
  intros H. apply lookupPath_entry in H as [_ H].
  unfold Fs.lookupComponents in H.
  destruct (Path.components cwd p) as [|c cs]; [discriminate |].
  split; [discriminate | exact H].
Qed.

(** The walk to an entry that is not a directory does not pass through
    that entry: it is the same in every file system that differs at most
    there. *)
Lemma walk_frame (st st' : Fs.fs) (segs : list string) :
  forall here cs,
    Fs.walk st here segs = inr cs ->
    Fs.lookupComponents st cs <> Some Fs.Dir ->
    (forall q, q <> cs -> st' !! q = st !! q) ->
    Fs.walk st' here segs = inr cs.
Proof.
  induction segs as [|seg rest IH]; intros here cs; simpl; [auto |].
  destruct (Fs.lookupComponents st here) as [[text|]|] eqn:E; try discriminate.
  intros Hwalk Hcs Hframe.
  assert (E' : Fs.lookupComponents st' here = Some Fs.Dir).
  { destruct here as [|c here']; [reflexivity |].
    unfold Fs.lookupComponents. rewrite Hframe; [exact E |].
    intros Heq. subst cs. now apply Hcs. }
  rewrite E'.
  destruct (String.eqb seg "" || String.eqb seg "."); [now apply IH |].
  destruct (String.eqb seg ".."); now apply IH.
Qed.

Lemma resolveEntry_frame (st st' : Fs.fs) (p : string) (cs : list string) :
  Fs.resolveEntry cwd st p = inr cs ->
  Fs.lookupComponents st cs <> Some Fs.Dir ->
  (forall q, q <> cs -> st' !! q = st !! q) ->
  Fs.resolveEntry cwd st' p = inr cs.
Proof.
  unfold Fs.resolveEntry. destruct (String.eqb p ""); [discriminate |].
  apply walk_frame.
Qed.

(** The walk of the recursive [mkdirSync] only adds directories, where
    there was no entry. *)
Lemma mkdirWalk_keeps (segs : list string) :
  forall (st : Fs.fs) (here q : list string) (n : Fs.node),
    st !! q = Some n -> (Fs.mkdirWalk st here segs).2 !! q = Some n.
Proof.
  induction segs as [|seg rest IH]; intros st here q n Hq; simpl.
  - now destruct (Fs.lookupComponents st here) as [[text|]|].
  - destruct (Fs.lookupComponents st here) as [[text|]|]; try exact Hq.
    destruct (String.eqb seg "" || String.eqb seg "."); [now apply IH |].
    destruct (String.eqb seg ".."); [now apply IH |].
    destruct (st !! (here ++ [seg])) as [m|] eqn:E; [now apply IH |].
    apply IH. rewrite lookup_insert_ne; [exact Hq |]. intros <-. congruence.
Qed.

Lemma mkdirSyncRecursive_keeps (st : Fs.fs) (p : string) (q : list string) (n : Fs.node) :
  st !! q = Some n -> (Fs.mkdirSyncRecursive cwd st p).2 !! q = Some n.
Proof.
  intros Hq. unfold Fs.mkdirSyncRecursive.
  destruct (String.eqb p ""); [exact Hq |].
  pose proof (mkdirWalk_keeps (Fs.segments cwd p) st [] q n Hq) as H.
  destruct (Fs.mkdirWalk st [] (Fs.segments cwd p)) as [[code|] st']; exact H.
Qed.

(** The file system after the first step of [writeFile], which creates
    the directory when it is missing. *)
Lemma ensureDirectory_keeps (st : Fs.fs) (dir : string) (q : list string) (n : Fs.node) :
  st !! q = Some n ->
  (if negb (Fs.existsSync cwd st dir) then Fs.mkdirSyncRecursive cwd st dir
   else (Ok tt, st)).2 !! q = Some n.
Proof.
  intros Hq. destruct (negb _); [now apply mkdirSyncRecursive_keeps | exact Hq].
Qed.

End FsFacts.

(** ** The file tools *)
Section FileToolFacts.
Variables PROJECT_ROOT cwd : string.

Lemma toolPath_absolute (p : string) :
  Path.isAbsolute p = true -> FileTools.toolPath PROJECT_ROOT p = p.
Proof. unfold FileTools.toolPath. now intros ->. Qed.

(** The guard of [deleteFile] rejects every path whose resolved form does
    not start with the text of the resolved root, and leaves the file
    system as it was. *)
Lemma deleteFile_guard (st : Fs.fs) (filepath : string) :
  JsString.startsWith
    (Path.resolve cwd (FileTools.toolPath PROJECT_ROOT filepath))
    (Path.resolve cwd PROJECT_ROOT) = false ->
  FileTools.deleteFile PROJECT_ROOT cwd st filepath =
  (FileTools.ErrorResult ("Cannot delete file outside project root: " +:+ filepath), st).
Proof. intros H. unfold FileTools.deleteFile. now rewrite H. Qed.

Lemma startsWith_append (a s p : string) :
  JsString.startsWith (a +:+ s) (a +:+ p) = JsString.startsWith s p.
Proof.
  induction a as [|c a IH]; simpl; [reflexivity |].
  now rewrite Ascii.eqb_refl, IH.
Qed.

Lemma startsWith_nil (s : string) : JsString.startsWith s "" = true.
Proof. destruct s; reflexivity. Qed.

Lemma startsWith_self_append (a s : string) :
  JsString.startsWith (a +:+ s) a = true.
Proof.
  rewrite <- (append_nil_r a) at 2. rewrite startsWith_append.
  apply startsWith_nil.
Qed.

Lemma join_startsWith (root rest : list string) :
  JsString.startsWith (JsString.join "/" (root ++ rest)) (JsString.join "/" root)
  = true.
Proof.
  induction root as [|r root IH]; [apply startsWith_nil |].
  destruct root as [|r2 root'].
  - destruct rest as [|x rest']; simpl.
    + rewrite <- (append_nil_r r) at 1. apply startsWith_self_append.
    + apply startsWith_self_append.
  - change (JsString.join "/" ((r :: r2 :: root') ++ rest))
      with (r +:+ "/" +:+ JsString.join "/" ((r2 :: root') ++ rest)).
    change (JsString.join "/" (r :: r2 :: root'))
      with (r +:+ "/" +:+ JsString.join "/" (r2 :: root')).
    rewrite !startsWith_append. exact IH.
Qed.

Lemma componentsPrefix_app (root p : list string) :
  FileTools.componentsPrefix root p = true -> exists rest, p = root ++ rest.
Proof.
  revert p. induction root as [|r root IH]; intros p; simpl.
  - intros _. exists p. reflexivity.
  - destruct p as [|c p]; [discriminate |].
    intros H. apply andb_true_iff in H. destruct H as [Hr Hp].
    apply String.eqb_eq in Hr. subst c.
    destruct (IH p Hp) as [rest ->]. exists rest. reflexivity.
Qed.

(** The guard lets every path within the project root pass. *)
Lemma withinRoot_passes_guard (filepath : string) :
  FileTools.withinRoot PROJECT_ROOT cwd filepath = true ->
  JsString.startsWith
    (Path.resolve cwd (FileTools.toolPath PROJECT_ROOT filepath))
    (Path.resolve cwd PROJECT_ROOT) = true.
Proof.
  unfold FileTools.withinRoot, Path.resolve. intros H.
  apply componentsPrefix_app in H. destruct H as [rest ->].
  rewrite (startsWith_append "/"). apply join_startsWith.
Qed.

(** [deleteFile] creates nothing and changes no entry: it leaves the file
    system as it was or removes the one entry it was asked to delete. *)
Lemma deleteFile_only_unlinks (st : Fs.fs) (filepath : string) :
  let out := FileTools.deleteFile PROJECT_ROOT cwd st filepath in
  (FileTools.isError out.1 = true /\ out.2 = st)
  \/ (FileTools.isError out.1 = false
      /\ out.2 = delete (Path.components cwd (FileTools.toolPath PROJECT_ROOT filepath)) st).
Proof.
  unfold FileTools.deleteFile, Fs.statIsDirectory, Fs.unlinkSync, Fs.existsSync.
  destruct (negb (JsString.startsWith _ _)); [left; split; reflexivity |].
  destruct (Fs.lookupPath _ _ _) as [[content|]|] eqn:E; simpl; auto.
  apply lookupPath_entry in E as [Hentry Hfile]. rewrite Hentry, Hfile.
  simpl. auto.
Qed.

Lemma lookupComponents_entry (st : Fs.fs) (cs : list string) :
  cs <> [] -> Fs.lookupComponents st cs = st !! cs.
Proof. destruct cs; [congruence | reflexivity]. Qed.

Lemma segments_absolutePath (names : list string) :
  names <> [] ->
  Forall (fun name => cleanName name = true) names ->
  Fs.segments cwd (absolutePath names) = "" :: names.
Proof.
  intros Hne Hclean. unfold Fs.segments, absolutePath.
  change (Path.isAbsolute ("/" +:+ JsString.join "/" names)) with true.
  cbv iota.
  change ("/" +:+ JsString.join "/" names)
    with ("" +:+ String "/" (JsString.join "/" names)).
  rewrite split_first by reflexivity.
  now rewrite split_join.
Qed.

(** The walk along plain names goes down one entry per name, through
    directories. *)
Lemma walk_names (st : Fs.fs) (names : list string) :
  forall here,
    Forall (fun name => cleanName name = true) names ->
    (forall k, k < length names ->
       Fs.lookupComponents st (here ++ take k names) = Some Fs.Dir) ->
    Fs.walk st here names = inr (here ++ names).
Proof.
  induction names as [|name rest IH]; intros here Hclean Hdirs; simpl.
  - now rewrite app_nil_r.
  - pose proof (Hdirs 0 ltac:(simpl; lia)) as Hhere.
    simpl in Hhere. rewrite app_nil_r in Hhere. rewrite Hhere.
    inversion Hclean as [|? ? Hname Hrest]; subst.
    apply cleanName_parts in Hname. destruct Hname as (_ & -> & -> & ->).
    simpl. rewrite IH; [now rewrite <- app_assoc | exact Hrest |].
    intros k Hk. rewrite <- app_assoc. apply (Hdirs (S k)). simpl. lia.
Qed.

Lemma walk_names_dirs (st : Fs.fs) (names : list string) :
  forall here cs,
    Forall (fun name => cleanName name = true) names ->
    Fs.walk st here names = inr cs ->
    forall k, k < length names ->
      Fs.lookupComponents st (here ++ take k names) = Some Fs.Dir.
Proof.
  induction names as [|name rest IH]; intros here cs Hclean; simpl.
  - intros _ k Hk. lia.
  - destruct (Fs.lookupComponents st here) as [[text|]|] eqn:Ehere; try discriminate.
    inversion Hclean as [|? ? Hname Hrest]; subst.
    apply cleanName_parts in Hname. destruct Hname as (_ & -> & -> & ->).
    simpl. intros Hwalk k Hk. destruct k as [|k].
    + simpl. now rewrite app_nil_r.
    + simpl.
      replace (here ++ name :: take k rest) with ((here ++ [name]) ++ take k rest)
        by now rewrite <- app_assoc.
      apply (IH _ _ Hrest Hwalk). lia.
Qed.

(** The recursive [mkdirSync] along plain names, none of which is a
    regular file: every name gets its directory, and nothing else
    changes. *)
Lemma mkdirWalk_names (names : list string) :
  forall (st : Fs.fs) (here : list string),
    Forall (fun name => cleanName name = true) names ->
    Fs.lookupComponents st here = Some Fs.Dir ->
    (forall k text, 0 < k <= length names ->
       st !! (here ++ take k names) <> Some (Fs.File text)) ->
    exists st',
      Fs.mkdirWalk st here names = (None, st')
      /\ (forall k, k <= length names ->
            Fs.lookupComponents st' (here ++ take k names) = Some Fs.Dir)
      /\ (forall q, (forall k, 0 < k <= length names -> q <> here ++ take k names) ->
            st' !! q = st !! q).
Proof.
  induction names as [|name rest IH]; intros st here Hclean Hhere Hfree; simpl.
  - rewrite Hhere. exists st. split; [reflexivity |]. split; [| reflexivity].
    intros k Hk. replace k with 0 by lia. simpl. now rewrite app_nil_r.
  - rewrite Hhere.
    inversion Hclean as [|? ? Hname Hrest]; subst.
    apply cleanName_parts in Hname. destruct Hname as (_ & -> & -> & ->).
    simpl.
    assert (Hstep : forall k, (here ++ [name]) ++ take k rest
                              = here ++ take (S k) (name :: rest)).
    { intros k. now rewrite <- app_assoc. }
    assert (Hnext : here ++ [name] = here ++ take 1 (name :: rest)).
    { simpl. now rewrite take_0. }
    assert (Hnonempty : here ++ [name] <> []).
    { destruct here; discriminate. }
    set (st1 := match st !! (here ++ [name]) with
                | Some _ => st
                | None => <[here ++ [name] := Fs.Dir]> st
                end).
    assert (Hst1 : st1 !! (here ++ [name]) = Some Fs.Dir).
    { subst st1. destruct (st !! (here ++ [name])) as [[text|]|] eqn:E.
      - exfalso. rewrite Hnext in E. apply (Hfree 1 text); [simpl; lia | exact E].
      - exact E.
      - apply lookup_insert_eq. }
    assert (Hother : forall q, q <> here ++ [name] -> st1 !! q = st !! q).
    { intros q Hq. subst st1. destruct (st !! (here ++ [name])); [reflexivity |].
      now apply lookup_insert_ne. }
    assert (Hlonger : forall k, 0 < k <= length rest ->
                        (here ++ [name]) ++ take k rest <> here ++ [name]).
    { intros k Hk Heq. apply (f_equal length) in Heq.
      rewrite !length_app, length_take in Heq. simpl in Heq. lia. }
    destruct (IH st1 (here ++ [name]) Hrest) as (st' & Hwalk & Hdirs & Hframe).
    { now rewrite lookupComponents_entry. }
    { intros k text Hk. rewrite Hother by now apply Hlonger.
      rewrite Hstep. apply Hfree. simpl. lia. }
    exists st'. split; [| split].
    + destruct (st !! (here ++ [name])) as [m|] eqn:E; exact Hwalk.
    + intros k Hk. destruct k as [|k].
      * simpl. rewrite app_nil_r.
        destruct here as [|c here']; [reflexivity |].
        unfold Fs.lookupComponents. rewrite Hframe.
        -- rewrite Hother; [exact Hhere |].
           intros Heq. apply (f_equal length) in Heq.
           rewrite length_app in Heq. simpl in Heq. lia.
        -- intros j Hj Heq. apply (f_equal length) in Heq.
           rewrite !length_app, length_take in Heq. simpl in Heq. lia.
      * rewrite <- Hstep. apply Hdirs. simpl in Hk. lia.
    + intros q Hq. rewrite Hframe.
      * apply Hother. rewrite Hnext. apply Hq. simpl. lia.
      * intros k Hk. rewrite Hstep. apply Hq. simpl. lia.
Qed.

End FileToolFacts.

Section FileToolClaims.
Variables PROJECT_ROOT cwd : string.

Lemma take_snoc_le (names : list string) (name : string) (k : nat) :
  k <= length names -> take k (names ++ [name]) = take k names.
Proof. intros Hk. now rewrite take_app_le. Qed.

(** The first step of [writeFile] for the directory [/name1/.../namek] of
    plain names: when none of the names is a regular file, the directory
    is there afterwards, with the directories above it, and nothing else
    has changed. *)
Lemma ensureDirectory_names (st : Fs.fs) (names : list string) :
  Forall (fun name => cleanName name = true) names ->
  (forall k text, k <= length names ->
     Fs.lookupComponents st (take k names) <> Some (Fs.File text)) ->
  exists st1,
    (if negb (Fs.existsSync cwd st (absolutePath names))
     then Fs.mkdirSyncRecursive cwd st (absolutePath names)
     else (Ok tt, st)) = (Ok tt, st1)
    /\ (forall k, k <= length names ->
          Fs.lookupComponents st1 (take k names) = Some Fs.Dir)
    /\ (forall q, (forall k, 0 < k <= length names -> q <> take k names) ->
          st1 !! q = st !! q).
Proof.
  intros Hclean Hfree.
  destruct names as [|first rest] eqn:Enames.
  { exists st. split; [reflexivity |]. split; [| reflexivity].
    intros k Hk. now destruct k. }
  rewrite <- Enames in *.
  assert (Hne : names <> []) by (subst names; discriminate).
  unfold Fs.existsSync, Fs.lookupPath, Fs.mkdirSyncRecursive, Fs.resolveEntry.
  rewrite (segments_absolutePath cwd names Hne Hclean).
  change (String.eqb (absolutePath names) "") with false. cbv iota.
  change (Fs.walk st [] ("" :: names)) with (Fs.walk st [] names).
  change (Fs.mkdirWalk st [] ("" :: names)) with (Fs.mkdirWalk st [] names).
  destruct (Fs.walk st [] names) as [code|cs] eqn:Ewalk.
  - simpl negb. cbv iota.
    destruct (mkdirWalk_names names st [] Hclean eq_refl) as (st1 & Hmk & Hdirs & Hframe).
    { intros k text Hk. simpl. intros E. apply (Hfree k text); [lia |].
      rewrite lookupComponents_entry; [exact E |].
      intros Hnil. rewrite Hnil in E. apply (f_equal length) in Hnil.
      rewrite length_take in Hnil. simpl in Hnil. lia. }
    exists st1. rewrite Hmk. split; [reflexivity |]. split; [exact Hdirs | exact Hframe].
  - pose proof (walk_names_dirs st names [] cs Hclean Ewalk) as Hdirs.
    assert (Hcs : cs = names).
    { rewrite (walk_names st names [] Hclean Hdirs) in Ewalk. now injection Ewalk. }
    subst cs.
    destruct (Fs.lookupComponents st names) as [[text|]|] eqn:Elast.
    + exfalso. apply (Hfree (length names) text); [lia |].
      now rewrite firstn_all.
    + simpl. exists st. split; [reflexivity |]. split; [| reflexivity].
      intros k Hk. destruct (decide (k = length names)) as [->|Hlt].
      * now rewrite firstn_all.
      * apply Hdirs. lia.
    + simpl negb. cbv iota.
      destruct (mkdirWalk_names names st [] Hclean eq_refl) as (st1 & Hmk & Hdirs1 & Hframe).
      { intros k text Hk. simpl. intros E. apply (Hfree k text); [lia |].
        rewrite lookupComponents_entry; [exact E |].
        intros Hnil. rewrite Hnil in E. apply (f_equal length) in Hnil.
        rewrite length_take in Hnil. simpl in Hnil. lia. }
      exists st1. rewrite Hmk. split; [reflexivity |]. split; [exact Hdirs1 | exact Hframe].
Qed.

(** [writeFile] on the normalised absolute path [/name1/.../namek] when no
    regular file stands on the way and the path is not a directory. *)
Lemma writeFile_names (st : Fs.fs) (names : list string) (written : string) :
  names <> [] ->
  Forall (fun name => cleanName name = true) names ->
  (forall k text, k < length names ->
     Fs.lookupComponents st (take k names) <> Some (Fs.File text)) ->
  Fs.lookupComponents st names <> Some Fs.Dir ->
  exists st1,
    FileTools.writeFile PROJECT_ROOT cwd st (absolutePath names) written
    = (FileTools.SuccessResult ("File written to " +:+ absolutePath names),
       <[names := Fs.File written]> st1)
    /\ Fs.resolveEntry cwd st1 (absolutePath names) = inr names
    /\ Fs.lookupComponents st1 names <> Some Fs.Dir
    /\ (forall k, k < length names ->
          Fs.lookupComponents st1 (take k names) = Some Fs.Dir)
    /\ (forall q n, st !! q = Some n -> st1 !! q = Some n).
Proof.
  intros Hne Hclean Hfree Hnotdir.
  destruct (exists_last Hne) as (init & name & Enames).
  assert (Hinit : Forall (fun n => cleanName n = true) init).
  { rewrite Enames in Hclean. now apply Forall_app in Hclean as [H _]. }
  assert (Hname : cleanName name = true).
  { rewrite Enames in Hclean. apply Forall_app in Hclean as [_ H].
    now apply Forall_inv in H. }
  assert (Hlen : length names = S (length init)).
  { rewrite Enames, length_app. simpl. lia. }
  assert (Htake : forall k, k <= length init -> take k names = take k init).
  { intros k Hk. rewrite Enames. now apply take_snoc_le. }
  destruct (ensureDirectory_names st init Hinit) as (st1 & Hmk & Hdirs & Hframe).
  { intros k text Hk. rewrite <- Htake by exact Hk. apply Hfree. lia. }
  exists st1.
  assert (Hdirs1 : forall k, k < length names ->
                     Fs.lookupComponents st1 (take k names) = Some Fs.Dir).
  { intros k Hk. rewrite Htake by lia. apply Hdirs. lia. }
  assert (Hentry : Fs.resolveEntry cwd st1 (absolutePath names) = inr names).
  { unfold Fs.resolveEntry.
    rewrite (segments_absolutePath cwd names Hne Hclean).
    change (String.eqb (absolutePath names) "") with false. cbv iota.
    change (Fs.walk st1 [] ("" :: names)) with (Fs.walk st1 [] names).
    now rewrite (walk_names st1 names [] Hclean Hdirs1). }
  assert (Hsame : st1 !! names = st !! names).
  { apply Hframe. intros k Hk Heq. apply (f_equal length) in Heq.
    rewrite length_take in Heq. lia. }
  assert (Hnotdir1 : Fs.lookupComponents st1 names <> Some Fs.Dir).
  { rewrite lookupComponents_entry in * by exact Hne. now rewrite Hsame. }
  split; [| split; [exact Hentry | split; [exact Hnotdir1 | split; [exact Hdirs1 |]]]].
  - unfold FileTools.writeFile.
    change (FileTools.toolPath PROJECT_ROOT (absolutePath names)) with (absolutePath names).
    assert (Hdirname : Path.dirname (absolutePath names) = absolutePath init).
    { rewrite Enames. now apply dirname_absolutePath. }
    rewrite Hdirname, Hmk.
    unfold Fs.writeFileSync. rewrite Hentry.
    destruct (Fs.lookupComponents st1 names) as [[text|]|]; [| congruence |]; reflexivity.
  - intros q n Hq.
    pose proof (ensureDirectory_keeps cwd st (absolutePath init) q n Hq) as Hkept.
    now rewrite Hmk in Hkept.
Qed.

(** [writeFile] on the normalised absolute path [/name1/.../namek] when a
    regular file stands on the way or the path is a directory. *)
Lemma writeFile_names_refused (st : Fs.fs) (names : list string) (written : string) :
  names <> [] ->
  Forall (fun name => cleanName name = true) names ->
  (exists k text, k < length names
     /\ Fs.lookupComponents st (take k names) = Some (Fs.File text))
  \/ Fs.lookupComponents st names = Some Fs.Dir ->
  FileTools.isError
    (FileTools.writeFile PROJECT_ROOT cwd st (absolutePath names) written).1 = true.
Proof.
  intros Hne Hclean Hblocked. unfold FileTools.writeFile.
  change (FileTools.toolPath PROJECT_ROOT (absolutePath names)) with (absolutePath names).
  pose proof (ensureDirectory_keeps cwd st (Path.dirname (absolutePath names)))
    as Hkeeps.
  destruct (if negb (Fs.existsSync cwd st (Path.dirname (absolutePath names)))
            then Fs.mkdirSyncRecursive cwd st (Path.dirname (absolutePath names))
            else (Ok tt, st)) as [[[]|message] st1]; [| reflexivity].
  simpl in Hkeeps. unfold Fs.writeFileSync, Fs.resolveEntry.
  rewrite (segments_absolutePath cwd names Hne Hclean).
  change (String.eqb (absolutePath names) "") with false. cbv iota.
  change (Fs.walk st1 [] ("" :: names)) with (Fs.walk st1 [] names).
  destruct (Fs.walk st1 [] names) as [code|cs] eqn:Ewalk; [reflexivity |].
  pose proof (walk_names_dirs st1 names [] cs Hclean Ewalk) as Hdirs.
  assert (Hcs : cs = names).
  { rewrite (walk_names st1 names [] Hclean Hdirs) in Ewalk. now injection Ewalk. }
  subst cs.
  destruct Hblocked as [(k & text & Hk & Hfile) | Hdir].
  - exfalso. specialize (Hdirs k Hk). simpl in Hdirs.
    assert (Hkne : take k names <> []).
    { intros Hnil. rewrite Hnil in Hfile. discriminate. }
    rewrite lookupComponents_entry in Hfile, Hdirs by exact Hkne.
    apply Hkeeps in Hfile. congruence.
  - rewrite lookupComponents_entry in Hdir by exact Hne.
    apply Hkeeps in Hdir.
    rewrite lookupComponents_entry by exact Hne. now rewrite Hdir.
Qed.


End FileToolClaims.

(** *** The file tools on a sample file system *)

Example deleteFile_inside :
  (FileTools.deleteFile "/app" "/app/server" sampleFs "src/a.txt").1
  = FileTools.SuccessResult "File src/a.txt deleted successfully.".
Proof. vm_compute. reflexivity. Qed.

Example deleteFile_far_outside :
  FileTools.deleteFile "/app" "/app/server" sampleFs "/etc/passwd"
  = (FileTools.ErrorResult "Cannot delete file outside project root: /etc/passwd",
     sampleFs).
Proof. apply deleteFile_guard. vm_compute. reflexivity. Qed.

Example deleteFile_directory :
  (FileTools.deleteFile "/app" "/app/server" sampleFs "src").1
  = FileTools.ErrorResult "src is a directory. Use deleteDirectory tool instead.".
Proof. vm_compute. reflexivity. Qed.

Example deleteFile_sibling_by_relative_path :
  (FileTools.deleteFile "/app" "/app/server" sampleFs "../app2/secret.txt").1
  = FileTools.SuccessResult "File ../app2/secret.txt deleted successfully.".
Proof. vm_compute. reflexivity. Qed.

(** C1.  The guard of [deleteFile] compares the text of the resolved path
    with the text of the resolved root.  [/app2/secret.txt] lies outside
    the project root [/app], its text starts with [/app], and the tool
    deletes the file: the result is a success and the entry is gone. *)
Theorem deleteFile_outside_root_sibling :
  FileTools.withinRoot "/app" "/app/server" "/app2/secret.txt" = false
  /\ Fs.lookupPath "/app/server" sampleFs "/app2/secret.txt" = Some (Fs.File "secret")
  /\ (FileTools.deleteFile "/app" "/app/server" sampleFs "/app2/secret.txt").1
     = FileTools.SuccessResult "File /app2/secret.txt deleted successfully."
  /\ Fs.lookupPath "/app/server"
       (FileTools.deleteFile "/app" "/app/server" sampleFs "/app2/secret.txt").2
       "/app2/secret.txt" = None.
Proof. vm_compute. repeat split. Qed.



(** ** Configuration interpolation *)

Section ReplaceFacts.
Context {C : Type}.
Variable m : Regex.matcher C.
Variable f : C -> string -> string -> string -> string.

Lemma replaceGo_no_match (s : string) :
  forall before,
    (forall pre suf, s = pre +:+ suf -> m suf = None) ->
    Regex.replaceGo m f 0 before s = s.
Proof.
  induction s as [|c s IH]; intros before Hno; simpl; [reflexivity |].
  rewrite (Hno "" (String c s) eq_refl). f_equal.
  apply IH. intros pre suf ->. apply (Hno (String c pre)). reflexivity.
Qed.

Lemma replaceGo_skip (q : string) :
  forall before r,
    Regex.replaceGo m f (String.length q) before (q +:+ r)
    = Regex.replaceGo m f 0 (before +:+ q) r.
Proof.
  induction q as [|c q IH]; intros before r; simpl.
  - now rewrite append_nil_r.
  - rewrite IH, append_assoc. reflexivity.
Qed.

Lemma takeChars_append (q r : string) :
  Regex.takeChars (String.length q) (q +:+ r) = q.
Proof.
  induction q as [|c q IH]; simpl; [destruct r; reflexivity | now rewrite IH].
Qed.

Lemma dropChars_append (q r : string) :
  Regex.dropChars (String.length q) (q +:+ r) = r.
Proof.
  induction q as [|c q IH]; simpl; [destruct r; reflexivity | exact IH].
Qed.

Lemma replaceGo_match (q r before : string) (capture : C) :
  q <> "" ->
  m (q +:+ r) = Some (String.length q, capture) ->
  Regex.replaceGo m f 0 before (q +:+ r)
  = f capture q before r +:+ Regex.replaceGo m f 0 (before +:+ q) r.
Proof.
  intros Hq Hm. destruct q as [|c q]; [congruence |].
  change (String c q +:+ r) with (String c (q +:+ r)) in *.
  cbn [Regex.replaceGo]. rewrite Hm.
  change (String c (q +:+ r)) with (String c q +:+ r).
  rewrite takeChars_append, dropChars_append.
  cbn [String.length pred]. rewrite replaceGo_skip, append_assoc. reflexivity.
Qed.

Lemma replaceGo_copy (text : string) :
  dollarAnchored m ->
  lacksChar "$" text = true ->
  forall before r,
    Regex.replaceGo m f 0 before (text +:+ r)
    = text +:+ Regex.replaceGo m f 0 (before +:+ text) r.
Proof.
  intros Hanch. induction text as [|c text IH]; intros Hlack before r.
  - simpl. now rewrite append_nil_r.
  - simpl in Hlack. apply andb_true_iff in Hlack. destruct Hlack as [Hc Hlack].
    apply negb_true_iff, Ascii.eqb_neq in Hc.
    change (String c text +:+ r) with (String c (text +:+ r)).
    cbn [Regex.replaceGo]. rewrite (Hanch c _ Hc).
    rewrite (IH Hlack), append_assoc. reflexivity.
Qed.

(** A token that the pattern does not match at its dollar sign is copied. *)
Lemma replaceGo_copy_token (body r before : string) :
  dollarAnchored m ->
  lacksChar "$" body = true ->
  m (String "$" (body +:+ r)) = None ->
  Regex.replaceGo m f 0 before (String "$" body +:+ r)
  = String "$" body +:+ Regex.replaceGo m f 0 (before +:+ String "$" body) r.
Proof.
  intros Hanch Hlack Hm.
  change (String "$" body +:+ r) with (String "$" (body +:+ r)).
  cbn [Regex.replaceGo]. rewrite Hm.
  rewrite (replaceGo_copy body Hanch Hlack), append_assoc. reflexivity.
Qed.

End ReplaceFacts.

(** *** The passes of the interpolation on a template *)

Lemma getSubstitution_plain (matched before after repl : string) :
  lacksChar "$" repl = true ->
  Regex.getSubstitution matched before after repl = repl.
Proof.
  induction repl as [|c repl IH]; simpl; [reflexivity |].
  intros H. apply andb_true_iff in H. destruct H as [Hc Hrest].
  apply negb_true_iff in Hc. rewrite Hc. now rewrite IH.
Qed.

Lemma literal_anchored (pat : string) :
  dollarAnchored (Regex.literal (String "$" pat)).
Proof.
  intros c s Hc. unfold Regex.literal. cbn [Regex.stripPrefix].
  destruct (Ascii.eqb "$" c) eqn:E; [| reflexivity].
  apply Ascii.eqb_eq in E. congruence.
Qed.

Lemma literal_self (pat r : string) :
  Regex.literal pat (pat +:+ r) = Some (String.length pat, tt).
Proof. unfold Regex.literal. now rewrite stripPrefix_append. Qed.

Lemma envReference_anchored : dollarAnchored Interp.envReference.
Proof.
  intros c s Hc. unfold Interp.envReference.
  change "${env:" with (String "$" "{env:"). cbn [Regex.stripPrefix].
  destruct (Ascii.eqb "$" c) eqn:E; [| reflexivity].
  apply Ascii.eqb_eq in E. congruence.
Qed.

Lemma splitAtBrace_append (name r : string) :
  lacksChar "}" name = true ->
  Interp.splitAtBrace (name +:+ String "}" r) = Some (name, r).
Proof.
  induction name as [|c name IH]; simpl; [reflexivity |].
  intros H. apply andb_true_iff in H. destruct H as [Hc Hrest].
  apply negb_true_iff in Hc. rewrite Hc. now rewrite IH.
Qed.

Lemma splitAtBrace_Some (s name rest : string) :
  Interp.splitAtBrace s = Some (name, rest) ->
  s = name +:+ String "}" rest /\ lacksChar "}" name = true.
Proof.
  revert name. induction s as [|c s IH]; intros name; simpl; [discriminate |].
  destruct (Ascii.eqb c "}") eqn:E.
  - intros [= <- <-]. apply Ascii.eqb_eq in E. subst c. split; reflexivity.
  - destruct (Interp.splitAtBrace s) as [[name' rest']|]; [| discriminate].
    intros [= <- <-]. destruct (IH name' eq_refl) as [-> Hl].
    split; [reflexivity |]. simpl. now rewrite E.
Qed.

Lemma envReference_token (name r : string) :
  wellFormed (TEnv name) ->
  Interp.envReference (tokenText (TEnv name) +:+ r)
  = Some (String.length (tokenText (TEnv name)), name).
Proof.
  intros [Hne Hlack]. unfold Interp.envReference, tokenText.
  rewrite !append_assoc, stripPrefix_append.
  change ("}" +:+ r) with (String "}" r).
  rewrite (splitAtBrace_append _ _ Hlack).
  destruct name as [|c name]; [congruence |].
  rewrite !length_append. simpl. reflexivity.
Qed.

Lemma envReference_Some (s : string) (n : nat) (name : string) :
  Interp.envReference s = Some (n, name) ->
  wellFormed (TEnv name) /\ exists r, s = tokenText (TEnv name) +:+ r.
Proof.
  unfold Interp.envReference.
  destruct (Regex.stripPrefix "${env:" s) as [r|] eqn:Hp; [| discriminate].
  apply stripPrefix_Some in Hp.
  destruct (Interp.splitAtBrace r) as [[[|c nm] rest]|] eqn:Hs; try discriminate.
  apply splitAtBrace_Some in Hs. destruct Hs as [-> Hl].
  intros [= _ <-]. split; [split; [discriminate | exact Hl] |].
  exists rest. subst s. unfold tokenText. now rewrite !append_assoc.
Qed.

Lemma literal_Some (pat s : string) (n : nat) (u : unit) :
  Regex.literal pat s = Some (n, u) -> exists r, s = pat +:+ r.
Proof.
  unfold Regex.literal.
  destruct (Regex.stripPrefix pat s) as [r|] eqn:Hp; [| discriminate].
  intros _. exists r. now apply stripPrefix_Some.
Qed.

Lemma sameToken_true (t0 t : token) : sameToken t0 t = true -> t = t0.
Proof. destruct t0, t; simpl; congruence. Qed.

Section Passes.
Variable process_env : gmap string string.
Variables homedir workspaceFolder : string.

Abbreviation value := (tokenValue process_env homedir workspaceFolder).

Lemma envValue_tokenValue (name : string) :
  ownReference process_env (TEnv name) ->
  Interp.envValue process_env name = value (TEnv name).
Proof.
  unfold Interp.envValue, ownReference. simpl. intros Hown.
  destruct (process_env !! name) as [[|c v]|]; try reflexivity.
  now rewrite Hown.
Qed.

Lemma env_pass (pieces : list piece) :
  Forall okPiece pieces ->
  (forall t, In (Tok t) pieces -> ownReference process_env t) ->
  forall before,
    Regex.replaceGo Interp.envReference
      (fun name _ _ _ => Interp.envValue process_env name) 0 before (render pieces)
    = render (substToken isEnvToken value pieces).
Proof.
  induction 1 as [|p pieces Hp Hok IH]; intros Hown before; [reflexivity |].
  assert (IH' : forall before,
             Regex.replaceGo Interp.envReference
               (fun name _ _ _ => Interp.envValue process_env name) 0 before
               (render pieces)
             = render (substToken isEnvToken value pieces)).
  { apply IH. intros t Hin. apply Hown. now right. }
  clear IH. rename IH' into IH.
  destruct p as [text | t]; simpl in Hp; cbn [render substToken map].
  - rewrite (replaceGo_copy _ _ text envReference_anchored Hp). now rewrite IH.
  - destruct t as [name| | | | |]; cbn [isEnvToken render tokenText].
    + rewrite replaceGo_match with (capture := name).
      * rewrite envValue_tokenValue, IH; [reflexivity |]. apply Hown. now left.
      * destruct name; discriminate.
      * now apply envReference_token.
    + rewrite (replaceGo_copy_token _ _ "{userHome}" _ _
                 envReference_anchored eq_refl eq_refl).
      now rewrite IH.
    + rewrite (replaceGo_copy_token _ _ "{workspaceFolder}" _ _
                 envReference_anchored eq_refl eq_refl).
      now rewrite IH.
    + rewrite (replaceGo_copy_token _ _ "{workspaceFolderBasename}" _ _
                 envReference_anchored eq_refl eq_refl).
      now rewrite IH.
    + rewrite (replaceGo_copy_token _ _ "{pathSeparator}" _ _
                 envReference_anchored eq_refl eq_refl).
      now rewrite IH.
    + rewrite (replaceGo_copy_token _ _ "{/}" _ _
                 envReference_anchored eq_refl eq_refl).
      now rewrite IH.
Qed.

Lemma literal_token_anchored (t0 : token) :
  isEnvToken t0 = false -> dollarAnchored (Regex.literal (tokenText t0)).
Proof. destruct t0; [discriminate | ..]; intros _; apply literal_anchored. Qed.

Ltac copy_other_token Hanch :=
  match goal with
  | |- context [Regex.replaceGo _ _ 0 _ (String "$" ?body +:+ _)] =>
      rewrite (replaceGo_copy_token _ _ body _ _ Hanch eq_refl eq_refl)
  end.

Lemma literal_pass (t0 : token) (repl : string) (pieces : list piece) :
  isEnvToken t0 = false ->
  Forall okPiece pieces ->
  (forall t, In (Tok t) pieces -> isEnvToken t = false) ->
  (In (Tok t0) pieces -> lacksChar "$" repl = true) ->
  forall before,
    Regex.replaceGo (Regex.literal (tokenText t0))
      (fun _ matched before after => Regex.getSubstitution matched before after repl)
      0 before (render pieces)
    = render (substToken (sameToken t0) (fun _ => repl) pieces).
Proof.
  intros Ht0 Hok. pose proof (literal_token_anchored t0 Ht0) as Hanch.
  induction Hok as [|p pieces Hp Hok IH]; intros Hnoenv Hrepl before;
    [reflexivity |].
  assert (IH' : forall before,
             Regex.replaceGo (Regex.literal (tokenText t0))
               (fun _ matched before after =>
                  Regex.getSubstitution matched before after repl)
               0 before (render pieces)
             = render (substToken (sameToken t0) (fun _ => repl) pieces)).
  { apply IH.
    - intros t Hin. apply Hnoenv. now right.
    - intros Hin. apply Hrepl. now right. }
  destruct p as [text | t]; simpl in Hp; cbn [render substToken map].
  - rewrite (replaceGo_copy _ _ text Hanch Hp). now rewrite IH'.
  - destruct (sameToken t0 t) eqn:E.
    + apply sameToken_true in E. subst t.
      rewrite replaceGo_match with (capture := tt).
      * rewrite getSubstitution_plain by (apply Hrepl; now left).
        cbn [render]. now rewrite IH'.
      * destruct t0; discriminate.
      * apply literal_self.
    + assert (Ht : isEnvToken t = false) by (apply Hnoenv; now left).
      destruct t; [discriminate | ..]; destruct t0;
        try discriminate; cbn [render tokenText] in *;
        copy_other_token Hanch; now rewrite IH'.
Qed.

Lemma substToken_In (sel : token -> bool) (v : token -> string)
      (pieces : list piece) (t : token) :
  In (Tok t) (substToken sel v pieces) -> In (Tok t) pieces /\ sel t = false.
Proof.
  induction pieces as [|p pieces IH]; simpl; [tauto |].
  intros [H | H].
  - destruct p as [text | t']; [discriminate |].
    destruct (sel t') eqn:E; [discriminate |].
    injection H as ->. auto.
  - destruct (IH H). auto.
Qed.

Lemma substToken_ok (sel : token -> bool) (v : token -> string)
      (pieces : list piece) :
  Forall okPiece pieces ->
  (forall t, In (Tok t) pieces -> sel t = true -> lacksChar "$" (v t) = true) ->
  Forall okPiece (substToken sel v pieces).
Proof.
  induction 1 as [|p pieces Hp Hok IH]; intros Hv; simpl; constructor.
  - destruct p as [text | t]; [exact Hp |].
    destruct (sel t) eqn:E; [| exact Hp].
    simpl. apply Hv; [now left | exact E].
  - apply IH. intros t Hin. apply Hv. now right.
Qed.

Lemma substToken_resolved (sel : token -> bool) (v V : token -> string)
      (pieces : list piece) :
  (forall t, In (Tok t) pieces -> sel t = true -> v t = V t) ->
  resolved V (substToken sel v pieces) = resolved V pieces.
Proof.
  induction pieces as [|p pieces IH]; intros Hv; simpl; [reflexivity |].
  rewrite IH by (intros t Hin; apply Hv; now right).
  destruct p as [text | t]; [reflexivity |].
  destruct (sel t) eqn:E; [| reflexivity].
  simpl. rewrite (Hv t); [reflexivity | now left | exact E].
Qed.

Lemma render_resolved (V : token -> string) (pieces : list piece) :
  (forall t, ~ In (Tok t) pieces) -> render pieces = resolved V pieces.
Proof.
  induction pieces as [|p pieces IH]; intros Hno; simpl; [reflexivity |].
  destruct p as [text | t].
  - rewrite IH; [reflexivity |]. intros t Hin. apply (Hno t). now right.
  - exfalso. apply (Hno t). now left.
Qed.

(** Every pass of [interpolateConfig] turns the tokens of its kind into
    their values, so the whole turns a template into its resolved text. *)
Lemma interpolateConfig_template (pieces : list piece) :
  Forall okPiece pieces ->
  (forall t, In (Tok t) pieces -> ownReference process_env t) ->
  (forall t, In (Tok t) pieces -> lacksChar "$" (value t) = true) ->
  Interp.interpolateConfig process_env homedir (render pieces) workspaceFolder
  = resolved value pieces.
Proof.
  intros Hok Hown Hval. unfold Interp.interpolateConfig, Regex.replaceLiteral, Regex.replaceAll.
  set (P1 := substToken isEnvToken value pieces).
  set (P2 := substToken (sameToken TUserHome) (fun _ => homedir) P1).
  set (P3 := substToken (sameToken TWorkspaceFolder) (fun _ => workspaceFolder) P2).
  set (P4 := substToken (sameToken TWorkspaceFolderBasename)
               (fun _ => Path.basename workspaceFolder) P3).
  set (P5 := substToken (sameToken TPathSeparator) (fun _ => Path.sep) P4).
  set (P6 := substToken (sameToken TSlash) (fun _ => Path.sep) P5).
  assert (In1 : forall t, In (Tok t) P1 -> In (Tok t) pieces /\ isEnvToken t = false).
  { intros t Hin. now apply substToken_In in Hin. }
  assert (In2 : forall t, In (Tok t) P2 -> In (Tok t) P1 /\ sameToken TUserHome t = false).
  { intros t Hin. now apply substToken_In in Hin. }
  assert (In3 : forall t, In (Tok t) P3 -> In (Tok t) P2 /\ sameToken TWorkspaceFolder t = false).
  { intros t Hin. now apply substToken_In in Hin. }
  assert (In4 : forall t, In (Tok t) P4 ->
                  In (Tok t) P3 /\ sameToken TWorkspaceFolderBasename t = false).
  { intros t Hin. now apply substToken_In in Hin. }
  assert (In5 : forall t, In (Tok t) P5 -> In (Tok t) P4 /\ sameToken TPathSeparator t = false).
  { intros t Hin. now apply substToken_In in Hin. }
  assert (In6 : forall t, In (Tok t) P6 -> In (Tok t) P5 /\ sameToken TSlash t = false).
  { intros t Hin. now apply substToken_In in Hin. }
  assert (Hsame : forall t0 t, sameToken t0 t = true -> (fun _ : token => value t0) t = value t).
  { intros t0 t E. apply sameToken_true in E. now subst. }
  assert (Ok1 : Forall okPiece P1).
  { apply substToken_ok; [exact Hok |]. intros t Hin _. now apply Hval. }
  assert (Ok2 : Forall okPiece P2).
  { apply substToken_ok; [exact Ok1 |]. intros t Hin E.
    apply sameToken_true in E. subst t. apply (Hval TUserHome). now apply In1. }
  assert (Ok3 : Forall okPiece P3).
  { apply substToken_ok; [exact Ok2 |]. intros t Hin E.
    apply sameToken_true in E. subst t. apply (Hval TWorkspaceFolder).
    apply In1. now apply In2. }
  assert (Ok4 : Forall okPiece P4).
  { apply substToken_ok; [exact Ok3 |]. intros t Hin E.
    apply sameToken_true in E. subst t. apply (Hval TWorkspaceFolderBasename).
    apply In1. apply In2. now apply In3. }
  assert (Ok5 : Forall okPiece P5).
  { apply substToken_ok; [exact Ok4 |]. intros t Hin E. reflexivity. }
  assert (NoEnv1 : forall t, In (Tok t) P1 -> isEnvToken t = false).
  { intros t Hin. now apply In1. }
  assert (NoEnv2 : forall t, In (Tok t) P2 -> isEnvToken t = false).
  { intros t Hin. apply NoEnv1. now apply In2. }
  assert (NoEnv3 : forall t, In (Tok t) P3 -> isEnvToken t = false).
  { intros t Hin. apply NoEnv2. now apply In3. }
  assert (NoEnv4 : forall t, In (Tok t) P4 -> isEnvToken t = false).
  { intros t Hin. apply NoEnv3. now apply In4. }
  assert (NoEnv5 : forall t, In (Tok t) P5 -> isEnvToken t = false).
  { intros t Hin. apply NoEnv4. now apply In5. }
  rewrite (env_pass pieces Hok Hown). fold P1.
  rewrite (literal_pass TUserHome homedir P1 eq_refl Ok1 NoEnv1)
    by (intros Hin; apply (Hval TUserHome); now apply In1).
  fold P2.
  rewrite (literal_pass TWorkspaceFolder workspaceFolder P2 eq_refl Ok2 NoEnv2)
    by (intros Hin; apply (Hval TWorkspaceFolder); apply In1; now apply In2).
  fold P3.
  rewrite (literal_pass TWorkspaceFolderBasename (Path.basename workspaceFolder)
             P3 eq_refl Ok3 NoEnv3)
    by (intros Hin; apply (Hval TWorkspaceFolderBasename);
        apply In1; apply In2; now apply In3).
  fold P4.
  rewrite (literal_pass TPathSeparator Path.sep P4 eq_refl Ok4 NoEnv4)
    by (intros _; reflexivity).
  fold P5.
  rewrite (literal_pass TSlash Path.sep P5 eq_refl Ok5 NoEnv5)
    by (intros _; reflexivity).
  fold P6.
  rewrite (render_resolved value P6).
  - unfold P6, P5, P4, P3, P2, P1.
    rewrite !substToken_resolved; [reflexivity | ..];
      intros t _ E; try (apply sameToken_true in E; subst t); reflexivity.
  - intros t Hin.
    destruct (In6 t Hin) as [Hin5 E6]. destruct (In5 t Hin5) as [Hin4 E5].
    destruct (In4 t Hin4) as [Hin3 E4]. destruct (In3 t Hin3) as [Hin2 E3].
    destruct (In2 t Hin2) as [Hin1 E2]. destruct (In1 t Hin1) as [_ E1].
    destruct t; discriminate.
Qed.

Lemma interpolateConfig_no_token (v : string) :
  ~ holdsToken v ->
  Interp.interpolateConfig process_env homedir v workspaceFolder = v.
Proof.
  intros Hno.
  assert (Hlit : forall t0 repl,
             isEnvToken t0 = false ->
             Regex.replaceLiteral (tokenText t0) repl v = v).
  { intros t0 repl Ht0. unfold Regex.replaceLiteral, Regex.replaceAll.
    apply replaceGo_no_match. intros pre suf ->.
    destruct (Regex.literal (tokenText t0) suf) as [[n u]|] eqn:E; [| reflexivity].
    exfalso. apply Hno. apply literal_Some in E. destruct E as [r ->].
    exists t0. split; [destruct t0; [discriminate | ..]; exact I |].
    exists pre, r. reflexivity. }
  assert (Henv : Regex.replaceAll Interp.envReference
                   (fun name _ _ _ => Interp.envValue process_env name) v = v).
  { unfold Regex.replaceAll. apply replaceGo_no_match. intros pre suf ->.
    destruct (Interp.envReference suf) as [[n name]|] eqn:E; [| reflexivity].
    exfalso. apply Hno. apply envReference_Some in E. destruct E as [Hwf [r ->]].
    exists (TEnv name). split; [exact Hwf |]. exists pre, r. reflexivity. }
  unfold Interp.interpolateConfig. rewrite Henv.
  rewrite (Hlit TUserHome), (Hlit TWorkspaceFolder),
    (Hlit TWorkspaceFolderBasename), (Hlit TPathSeparator), (Hlit TSlash);
    reflexivity.
Qed.

End Passes.

(** What holds of the interpolation.  [interpolateConfig] leaves a string
    that holds no token as it is, so that interpolating it twice is
    interpolating it once; it resolves every template of plain text and
    tokens of all kinds in which the plain text and the substituted values
    are free of dollar signs and no reference to a variable that is not
    set bears the name of an inherited property; and in such a value a
    reference to a variable that is not set is replaced by the empty
    string. *)
Lemma interpolateConfig_resolves_tokens
    (process_env : gmap string string) (homedir workspaceFolder : string) :
  let interpolate v :=
    Interp.interpolateConfig process_env homedir v workspaceFolder in
  let value := tokenValue process_env homedir workspaceFolder in
  (forall v, ~ holdsToken v ->
     interpolate v = v /\ interpolate (interpolate v) = interpolate v)
  /\ (forall pieces,
        Forall okPiece pieces ->
        (forall t, In (Tok t) pieces -> ownReference process_env t) ->
        (forall t, In (Tok t) pieces -> lacksChar "$" (value t) = true) ->
        resolvesTemplate process_env homedir workspaceFolder pieces)
  /\ (forall before name after,
        lacksChar "$" before = true ->
        lacksChar "$" after = true ->
        wellFormed (TEnv name) ->
        process_env !! name = None ->
        Interp.inherited name = None ->
        interpolate (before +:+ "${env:" +:+ name +:+ "}" +:+ after)
        = before +:+ after).
Proof.
  intros interpolate value. subst interpolate value. split; [| split].
  - intros v Hno. rewrite !(interpolateConfig_no_token _ _ _ v Hno). auto.
  - intros pieces Hok Hown Hval. now apply interpolateConfig_template.
  - intros before name after Hb Ha Hwf Hunset Hplain.
    pose proof (interpolateConfig_template process_env homedir workspaceFolder
                  [Lit before; Tok (TEnv name); Lit after]) as H.
    cbn [render resolved tokenText tokenValue] in H.
    rewrite Hunset, !append_nil_r, !append_assoc in H.
    cbn [default String.append] in H. apply H.
    + constructor; [exact Hb |]. constructor; [exact Hwf |].
      constructor; [exact Ha |]. constructor.
    + intros t [Hin | [Hin | [Hin | []]]]; try discriminate.
      injection Hin as <-. intros _. exact Hplain.
    + intros t [Hin | [Hin | [Hin | []]]]; try discriminate.
      injection Hin as <-. simpl. now rewrite Hunset.
Qed.

(** *** The interpolation on sample values *)

Example interpolate_userHome :
  Interp.interpolateConfig sampleEnv "/home/u" "${userHome}/x" "/w/proj"
  = "/home/u/x".
Proof. vm_compute. reflexivity. Qed.

Example interpolate_all_kinds :
  Interp.interpolateConfig sampleEnv "/home/u"
    "${env:API_KEY}@${userHome}:${workspaceFolder}${/}${workspaceFolderBasename}${pathSeparator}${env:UNSET}."
    "/w/proj"
  = "k-123@/home/u:/w/proj/proj/.".
Proof. vm_compute. reflexivity. Qed.

(** The value of an environment variable is scanned by the later passes. *)
Example interpolate_nested :
  Interp.interpolateConfig (<[ "DIR" := "${userHome}/bin" ]> ∅) "/home/u"
    "${env:DIR}" "/w/proj"
  = "/home/u/bin".
Proof. vm_compute. reflexivity. Qed.

Lemma holdsToken_dollar_brace (s : string) :
  holdsToken s -> JsString.includes s "${" = true.
Proof.
  intros (t & _ & a & b & ->). apply includes_true_iff.
  destruct t as [name| | | | |]; cbn [tokenText];
    exists a; eexists; rewrite ?append_assoc; reflexivity.
Qed.

Example interpolateConfig_resolves_samples :
  Interp.interpolateConfig sampleEnv "/home/u" "npx -y $HOME {x}" "/w/proj"
  = "npx -y $HOME {x}"
  /\ Interp.interpolateConfig sampleEnv "/home/u" "${userHome}/x" "/w/proj"
     = "/home/u/x"
  /\ Interp.interpolateConfig sampleEnv "/home/u" "a${env:UNSET}b" "/w/proj"
     = "ab".
Proof.
  pose proof (interpolateConfig_resolves_tokens sampleEnv "/home/u" "/w/proj")
    as (Hplain & Htemplate & Hunset).
  split; [| split].
  - apply Hplain. intros H. apply holdsToken_dollar_brace in H.
    vm_compute in H. discriminate.
  - apply (Htemplate [Tok TUserHome; Lit "/x"]).
    + repeat constructor.
    + intros t [Hin | [Hin | []]]; [| discriminate].
      injection Hin as <-. exact I.
    + intros t [Hin | [Hin | []]]; [| discriminate].
      injection Hin as <-. reflexivity.
  - apply (Hunset "a" "UNSET" "b"); try reflexivity.
    split; [discriminate | reflexivity].
Qed.

(** C6.  Two inputs on which [interpolateConfig] does not do what is
    claimed.  The home directory is handed to [replace] as a replacement
    string, in which a dollar pattern is expanded: with the home directory
    [/h$&], the value [${userHome}/x] becomes [/h${userHome}/x], not the
    home directory followed by [/x].  And the value of a reference is read
    from [process.env] by a plain property access: no variable [toString]
    is set, yet the reference to it is replaced by the text of the
    inherited function, not by the empty string. *)
Theorem interpolateConfig_misresolves :
  Interp.interpolateConfig sampleEnv "/h$&" "${userHome}/x" "/w/proj"
  = "/h${userHome}/x"
  /\ "/h${userHome}/x" <> "/h$&" +:+ "/x"
  /\ ~ resolvesTemplate sampleEnv "/h$&" "/w/proj" [Tok TUserHome; Lit "/x"]
  /\ sampleEnv !! "toString" = None
  /\ Interp.interpolateConfig sampleEnv "/home/u" "a${env:toString}b" "/w/proj"
     = "afunction toString() { [native code] }b"
  /\ ~ resolvesTemplate sampleEnv "/home/u" "/w/proj"
         [Lit "a"; Tok (TEnv "toString"); Lit "b"].
Proof.
  split; [vm_compute; reflexivity |].
  split; [discriminate |].
  split; [unfold resolvesTemplate; vm_compute; discriminate |].
  split; [vm_compute; reflexivity |].
  split; [vm_compute; reflexivity |].
  unfold resolvesTemplate. vm_compute. discriminate.
Qed.

(* ====================================================================== *)
(** * Part III: further properties of the code                             *)
(* ====================================================================== *)

(** ** The file tools, beyond the claims *)

(** X1.  [deleteFile] removes at most the entry it is asked to delete, and
    only a regular file: every other entry of the file system, and every
    directory, is found afterwards as it was; and whenever the tool answers
    with an error the file system is exactly the one before the call. *)
Theorem deleteFile_removes_at_most_target
    (PROJECT_ROOT cwd : string) (st : Fs.fs) (filepath : string) :
  let out := FileTools.deleteFile PROJECT_ROOT cwd st filepath in
  (FileTools.isError out.1 = true -> out.2 = st)
  /\ forall q : list string,
       out.2 !! q = st !! q
       \/ (q = Path.components cwd (FileTools.toolPath PROJECT_ROOT filepath)
           /\ out.2 !! q = None
           /\ exists content, st !! q = Some (Fs.File content)).
Proof.
  unfold FileTools.deleteFile, Fs.statIsDirectory, Fs.unlinkSync, Fs.existsSync.
  destruct (negb (JsString.startsWith _ _)); [simpl; auto |].
  destruct (Fs.lookupPath _ _ _) as [[content|]|] eqn:E; simpl; auto.
  destruct (lookupPath_file _ _ _ _ E) as [Hne Hfile].
  apply lookupPath_entry in E as [Hentry Hlook]. rewrite Hentry, Hlook. simpl.
  split; [discriminate |]. intros q.
  destruct (decide (q = Path.components cwd (FileTools.toolPath PROJECT_ROOT filepath)))
    as [->|Hq].
  - right. split; [reflexivity |]. split; [apply lookup_delete_eq |].
    exists content. exact Hfile.
  - left. now apply lookup_delete_ne.
Qed.

(** X2.  Deleting a regular file that lies within the project root
    succeeds and removes it: reading it afterwards reports that the file
    is not found, and so does deleting it a second time, which changes
    nothing more. *)
Theorem deleteFile_then_not_found
    (PROJECT_ROOT cwd : string) (st : Fs.fs) (filepath content : string) :
  FileTools.withinRoot PROJECT_ROOT cwd filepath = true ->
  Fs.lookupPath cwd st (FileTools.toolPath PROJECT_ROOT filepath)
  = Some (Fs.File content) ->
  let out := FileTools.deleteFile PROJECT_ROOT cwd st filepath in
  out.1 = FileTools.SuccessResult ("File " +:+ filepath +:+ " deleted successfully.")
  /\ FileTools.readFile PROJECT_ROOT cwd out.2 filepath
     = FileTools.ErrorResult ("File " +:+ filepath +:+ " not found.")
  /\ FileTools.deleteFile PROJECT_ROOT cwd out.2 filepath
     = (FileTools.ErrorResult ("File " +:+ filepath +:+ " not found."), out.2).
Proof.
  intros Hin Hfile.
  pose proof (withinRoot_passes_guard _ _ _ Hin) as Hguard.
  destruct (lookupPath_file _ _ _ _ Hfile) as [Hne _].
  destruct (lookupPath_entry _ _ _ _ Hfile) as [Hentry Hlook].
  assert (Hout : FileTools.deleteFile PROJECT_ROOT cwd st filepath
                 = (FileTools.SuccessResult ("File " +:+ filepath +:+ " deleted successfully."),
                    delete (Path.components cwd (FileTools.toolPath PROJECT_ROOT filepath)) st)).
  { unfold FileTools.deleteFile, Fs.statIsDirectory, Fs.unlinkSync, Fs.existsSync.
    rewrite Hguard, Hfile, Hentry, Hlook. reflexivity. }
  cbv zeta. rewrite Hout. simpl.
  split; [reflexivity |].
  assert (Hgone : Fs.lookupPath cwd
                    (delete (Path.components cwd (FileTools.toolPath PROJECT_ROOT filepath)) st)
                    (FileTools.toolPath PROJECT_ROOT filepath) = None).
  { unfold Fs.lookupPath. rewrite (resolveEntry_frame cwd st _ _ _ Hentry).
    - rewrite lookupComponents_entry by exact Hne. apply lookup_delete_eq.
    - rewrite Hlook. discriminate.
    - intros q Hq. now apply lookup_delete_ne. }
  split.
  - unfold FileTools.readFile, Fs.existsSync. now rewrite Hgone.
  - unfold FileTools.deleteFile, Fs.existsSync. now rewrite Hguard, Hgone.
Qed.

(** X3.  What [writeFile] wrote, [readFile] reads: when the write tool
    reports success for a path, relative or absolute, the read tool gives
    back the written content for the same path. *)
Theorem writeFile_then_readFile
    (PROJECT_ROOT cwd : string) (st : Fs.fs) (filepath content message : string) :
  (FileTools.writeFile PROJECT_ROOT cwd st filepath content).1
  = FileTools.SuccessResult message ->
  message = "File written to " +:+ FileTools.toolPath PROJECT_ROOT filepath
  /\ FileTools.readFile PROJECT_ROOT cwd
       (FileTools.writeFile PROJECT_ROOT cwd st filepath content).2 filepath
     = FileTools.ContentResult content.
Proof.
  unfold FileTools.writeFile.
  set (filePath := FileTools.toolPath PROJECT_ROOT filepath).
  destruct (if negb _ then _ else _) as [[[]|m] st1]; [| discriminate].
  unfold Fs.writeFileSync.
  destruct (Fs.resolveEntry cwd st1 filePath) as [code|cs] eqn:Eentry;
    [discriminate |].
  assert (Hread : Fs.lookupComponents st1 cs <> Some Fs.Dir ->
            FileTools.readFile PROJECT_ROOT cwd (<[cs := Fs.File content]> st1) filepath
            = FileTools.ContentResult content).
  { intros Hnotdir.
    assert (Hne : cs <> []) by (intros ->; now apply Hnotdir).
    assert (Hfound : Fs.lookupPath cwd (<[cs := Fs.File content]> st1) filePath
                     = Some (Fs.File content)).
    { unfold Fs.lookupPath.
      rewrite (resolveEntry_frame cwd st1 _ _ _ Eentry Hnotdir).
      - rewrite lookupComponents_entry by exact Hne. apply lookup_insert_eq.
      - intros q Hq. now apply lookup_insert_ne. }
    unfold FileTools.readFile, Fs.existsSync, Fs.readFileSync. fold filePath.
    now rewrite Hfound. }
  destruct (Fs.lookupComponents st1 cs) as [[old|]|] eqn:Etarget; simpl;
    try discriminate.
  - intros [= <-]. split; [reflexivity |]. apply Hread. discriminate.
  - intros [= <-]. split; [reflexivity |]. apply Hread. discriminate.
Qed.

(** X4.  [writeFile] destroys nothing: every entry of the file system is
    still there after the call, with its content, except that a regular
    file at the path written to holds the new content.  In particular no
    directory is replaced and no other file is touched, whether the tool
    reports success or an error. *)
Theorem writeFile_keeps_other_entries
    (PROJECT_ROOT cwd : string) (st : Fs.fs) (filepath content : string)
    (q : list string) (n : Fs.node) :
  st !! q = Some n ->
  let st' := (FileTools.writeFile PROJECT_ROOT cwd st filepath content).2 in
  st' !! q = Some n
  \/ (q = Path.components cwd (FileTools.toolPath PROJECT_ROOT filepath)
      /\ (exists old, n = Fs.File old)
      /\ st' !! q = Some (Fs.File content)).
Proof.
  intros Hq. unfold FileTools.writeFile.
  set (filePath := FileTools.toolPath PROJECT_ROOT filepath).
  pose proof (ensureDirectory_keeps cwd st (Path.dirname filePath) q n Hq) as Hkept.
  destruct (if negb _ then _ else _) as [[[]|m] st1]; simpl in Hkept;
    [| left; exact Hkept].
  unfold Fs.writeFileSync.
  destruct (Fs.resolveEntry cwd st1 filePath) as [code|cs] eqn:Eentry;
    [left; exact Hkept |].
  apply resolveEntry_components in Eentry as Hcs. subst cs.
  assert (Hset : Fs.lookupComponents st1 (Path.components cwd filePath) <> Some Fs.Dir ->
            let st' := <[Path.components cwd filePath := Fs.File content]> st1 in
            st' !! q = Some n
            \/ (q = Path.components cwd filePath
                /\ (exists old, n = Fs.File old)
                /\ st' !! q = Some (Fs.File content))).
  { intros Hnotdir.
    destruct (decide (q = Path.components cwd filePath)) as [->|Hne].
    - right. split; [reflexivity |].
      split; [| apply lookup_insert_eq].
      destruct n as [old|]; [now exists old |].
      exfalso. apply Hnotdir. unfold Fs.lookupComponents.
      destruct (Path.components cwd filePath); [reflexivity | exact Hkept].
    - left. simpl. now rewrite lookup_insert_ne. }
  destruct (Fs.lookupComponents st1 (Path.components cwd filePath))
    as [[old|]|] eqn:Etarget; simpl.
  - apply Hset. discriminate.
  - left. exact Hkept.
  - apply Hset. discriminate.
Qed.

Lemma deleteFile_then_not_found_witness :
  (FileTools.deleteFile "/app" "/app/server" sampleFs "src/a.txt").1
  = FileTools.SuccessResult "File src/a.txt deleted successfully."
  /\ FileTools.readFile "/app" "/app/server"
       (FileTools.deleteFile "/app" "/app/server" sampleFs "src/a.txt").2 "src/a.txt"
     = FileTools.ErrorResult "File src/a.txt not found.".
Proof.
  destruct (deleteFile_then_not_found "/app" "/app/server" sampleFs
              "src/a.txt" "inside") as (Hdeleted & Hread & _).
  - vm_compute. reflexivity.
  - vm_compute. reflexivity.
  - split; [exact Hdeleted | exact Hread].
Defined.

Lemma writeFile_then_readFile_witness :
  FileTools.readFile "/app" "/app/server"
    (FileTools.writeFile "/app" "/app/server" sampleFs "notes/today.md" "hello").2
    "notes/today.md"
  = FileTools.ContentResult "hello".
Proof.
  refine (proj2 (writeFile_then_readFile "/app" "/app/server" sampleFs
                   "notes/today.md" "hello" "File written to /app/notes/today.md" _)).
  vm_compute. reflexivity.
Defined.

Lemma writeFile_keeps_other_entries_witness :
  (FileTools.writeFile "/app" "/app/server" sampleFs "src/a.txt" "new").2
    !! ["app2"; "secret.txt"] = Some (Fs.File "secret")
  /\ (FileTools.writeFile "/app" "/app/server" sampleFs "src/a.txt" "new").2
       !! ["app"; "src"; "a.txt"] = Some (Fs.File "new").
Proof.
  split.
  - destruct (writeFile_keeps_other_entries "/app" "/app/server" sampleFs
                "src/a.txt" "new" ["app2"; "secret.txt"] (Fs.File "secret"))
      as [Hkept | (Hsame & _)].
    + vm_compute. reflexivity.
    + exact Hkept.
    + vm_compute in Hsame. discriminate.
  - destruct (writeFile_keeps_other_entries "/app" "/app/server" sampleFs
                "src/a.txt" "new" ["app"; "src"; "a.txt"] (Fs.File "inside"))
      as [Hkept | (_ & _ & Hnew)].
    + vm_compute. reflexivity.
    + vm_compute in Hkept. discriminate.
    + exact Hnew.
Defined.

(** *** Relative paths of plain names *)

Lemma join_app (root names : list string) :
  root <> [] -> names <> [] ->
  JsString.join "/" (root ++ names)
  = JsString.join "/" root +:+ "/" +:+ JsString.join "/" names.
Proof.
  intros Hroot Hnames. induction root as [|r root IH]; [congruence |].
  destruct root as [|r' root'].
  - simpl. destruct names; [congruence | reflexivity].
  - change (JsString.join "/" ((r :: r' :: root') ++ names))
      with (r +:+ "/" +:+ JsString.join "/" ((r' :: root') ++ names)).
    rewrite IH by discriminate.
    change (JsString.join "/" (r :: r' :: root'))
      with (r +:+ "/" +:+ JsString.join "/" (r' :: root')).
    now rewrite !append_assoc.
Qed.

Lemma cleanName_first_char (name : string) :
  cleanName name = true ->
  exists c rest, name = String c rest /\ Ascii.eqb c "/" = false.
Proof.
  intros Hclean. destruct (cleanName_parts _ Hclean) as (Hslash & Hne & _).
  destruct name as [|c rest]; [discriminate |].
  exists c, rest. split; [reflexivity |].
  simpl in Hslash. apply andb_prop in Hslash as [Hc _].
  now apply negb_true_iff.
Qed.

Lemma join_not_empty (names : list string) :
  names <> [] ->
  Forall (fun n => cleanName n = true) names ->
  exists c rest, JsString.join "/" names = String c rest /\ Ascii.eqb c "/" = false.
Proof.
  intros Hne Hclean. destruct names as [|name names]; [congruence |].
  inversion Hclean as [|? ? Hname Hrest]; subst.
  destruct (cleanName_first_char _ Hname) as (c & rest & -> & Hc).
  destruct names as [|name' names'].
  - exists c, rest. split; [reflexivity | exact Hc].
  - exists c, (rest +:+ "/" +:+ JsString.join "/" (name' :: names')).
    split; [reflexivity | exact Hc].
Qed.

Lemma endsWithSlash_join (names : list string) :
  names <> [] ->
  Forall (fun n => cleanName n = true) names ->
  Path.endsWithSlash (absolutePath names) = false.
Proof.
  intros Hne Hclean.
  destruct (exists_last Hne) as (front & name & ->).
  apply Forall_app in Hclean as [_ Hname].
  inversion Hname as [|? ? Hn _]; subst.
  destruct (cleanName_parts _ Hn) as (Hslash & Hnonempty & _).
  assert (Hsplit : exists before, absolutePath (front ++ [name]) = before +:+ name).
  { unfold absolutePath. destruct front as [|f front'].
    - exists "/". reflexivity.
    - rewrite join_snoc. exists ("/" +:+ JsString.join "/" (f :: front') +:+ "/").
      now rewrite !append_assoc. }
  destruct Hsplit as [before ->].
  unfold Path.endsWithSlash. rewrite chars_append, rev_app_distr.
  rewrite lacksChar_chars in Hslash. rewrite <- forallb_rev in Hslash.
  destruct (rev (list_ascii_of_string name)) as [|c cs] eqn:E.
  - exfalso. apply (f_equal (@length ascii)) in E. rewrite length_rev in E.
    destruct name; [discriminate | simpl in E; lia].
  - simpl. simpl in Hslash. apply andb_prop in Hslash as [Hc _].
    now apply negb_true_iff.
Qed.

(** A normalised absolute path is left as it is by [path.normalize]. *)
Lemma normalize_absolutePath (names : list string) :
  names <> [] ->
  Forall (fun n => cleanName n = true) names ->
  Path.normalize (absolutePath names) = absolutePath names.
Proof.
  intros Hne Hclean. unfold Path.normalize.
  change (String.eqb (absolutePath names) "") with false.
  change (Path.isAbsolute (absolutePath names)) with true.
  cbv iota zeta. rewrite (endsWithSlash_join _ Hne Hclean).
  assert (Hq : Path.normalizeString (absolutePath names) false
               = JsString.join "/" names).
  { unfold Path.normalizeString.
    pose proof (components_absolutePath "" names Hclean) as Hc.
    unfold Path.components in Hc.
    change (Path.isAbsolute (absolutePath names)) with true in Hc.
    cbv iota in Hc. simpl negb. now rewrite Hc. }
  change (negb true) with false. rewrite Hq.
  destruct (join_not_empty _ Hne Hclean) as (c & rest & Hjoin & _).
  unfold absolutePath. rewrite Hjoin. reflexivity.
Qed.

(** X5.  A relative path made of plain names (no empty name, no slash
    inside a name, no [.] or [..]) is resolved below the project root: for
    a root [/r1/.../rk] the tools address the entry with the components of
    the root followed by the names, and the guard of [deleteFile] accepts
    the path. *)
Theorem relative_path_resolves_below_root
    (cwd : string) (rootNames names : list string) :
  rootNames <> [] -> names <> [] ->
  Forall (fun n => cleanName n = true) rootNames ->
  Forall (fun n => cleanName n = true) names ->
  let PROJECT_ROOT := absolutePath rootNames in
  let filepath := JsString.join "/" names in
  FileTools.toolPath PROJECT_ROOT filepath = absolutePath (rootNames ++ names)
  /\ Path.components cwd (FileTools.toolPath PROJECT_ROOT filepath)
     = rootNames ++ names
  /\ FileTools.withinRoot PROJECT_ROOT cwd filepath = true
  /\ JsString.startsWith
       (Path.resolve cwd (FileTools.toolPath PROJECT_ROOT filepath))
       (Path.resolve cwd PROJECT_ROOT) = true.
Proof.
  intros Hroot Hnames Hcr Hcn. cbv zeta.
  assert (Hall : Forall (fun n => cleanName n = true) (rootNames ++ names))
    by (apply Forall_app; auto).
  assert (Hne : rootNames ++ names <> []).
  { destruct rootNames; [congruence | discriminate]. }
  assert (Hpath : FileTools.toolPath (absolutePath rootNames) (JsString.join "/" names)
                  = absolutePath (rootNames ++ names)).
  { unfold FileTools.toolPath, Path.join.
    destruct (join_not_empty _ Hnames Hcn) as (c & rest & Hjoin & Hc).
    rewrite Hjoin. unfold Path.isAbsolute. rewrite Hc.
    change (String.eqb (absolutePath rootNames) "") with false.
    change (String.eqb (String c rest) "") with false. cbv iota.
    rewrite <- Hjoin.
    assert (Hjoined : absolutePath rootNames +:+ "/" +:+ JsString.join "/" names
                      = absolutePath (rootNames ++ names)).
    { unfold absolutePath. rewrite join_app by assumption.
      now rewrite !append_assoc. }
    rewrite Hjoined.
    change (String.eqb (absolutePath (rootNames ++ names)) "") with false.
    cbv iota. now apply normalize_absolutePath. }
  assert (Hcomp : Path.components cwd
                    (FileTools.toolPath (absolutePath rootNames) (JsString.join "/" names))
                  = rootNames ++ names).
  { rewrite Hpath. now apply components_absolutePath. }
  assert (Hwithin : FileTools.withinRoot (absolutePath rootNames) cwd
                      (JsString.join "/" names) = true).
  { unfold FileTools.withinRoot. rewrite Hcomp.
    rewrite components_absolutePath by assumption.
    clear. induction rootNames as [|r rs IH]; simpl; [reflexivity |].
    now rewrite String.eqb_refl. }
  repeat split; try assumption.
  now apply withinRoot_passes_guard.
Qed.

Lemma relative_path_resolves_below_root_witness :
  FileTools.toolPath "/srv/agent" "data/notes/a.txt" = "/srv/agent/data/notes/a.txt"
  /\ FileTools.withinRoot "/srv/agent" "/" "data/notes/a.txt" = true.
Proof.
  destruct (relative_path_resolves_below_root "/" ["srv"; "agent"]
              ["data"; "notes"; "a.txt"]) as (Hpath & _ & Hwithin & _).
  - discriminate.
  - discriminate.
  - repeat constructor.
  - repeat constructor.
  - split; [exact Hpath | exact Hwithin].
Defined.

(** ** The env file of a stdio server, beyond the claims *)

Lemma dropFinalQuote_closing (q : ascii) (x : string) :
  McpEnv.isQuote q = true ->
  McpEnv.dropFinalQuote (x +:+ String q "") = x.
Proof.
  intros Hq. induction x as [|c x IH].
  - simpl. now rewrite Hq.
  - change (String c x +:+ String q "") with (String c (x +:+ String q "")).
    destruct x as [|d x'].
    + simpl. simpl in IH. now rewrite Hq.
    + change (McpEnv.dropFinalQuote (String c (String d x' +:+ String q "")))
        with (String c (McpEnv.dropFinalQuote (String d x' +:+ String q ""))).
      now rewrite IH.
Qed.

Lemma dropFinalQuote_plain (y : string) :
  forallb (fun c => negb (McpEnv.isQuote c)) (list_ascii_of_string y) = true ->
  McpEnv.dropFinalQuote y = y.
Proof.
  induction y as [|c y IH]; [reflexivity |].
  simpl. intros H. apply andb_prop in H as [Hc Hy].
  apply negb_true_iff in Hc.
  destruct y as [|d y']; [now rewrite Hc |].
  now rewrite (IH Hy).
Qed.

(** X6.  The value of an assignment loses one quote at its start and one at
    its end: a value written between two quotes, single or double and not
    necessarily the same, becomes the text between them, in which further
    quotes are kept; a value without any quote is left as it is. *)
Theorem stripQuotes_unwraps (q q' : ascii) (x y : string) :
  McpEnv.isQuote q = true ->
  McpEnv.isQuote q' = true ->
  forallb (fun c => negb (McpEnv.isQuote c)) (list_ascii_of_string y) = true ->
  McpEnv.stripQuotes (String q (x +:+ String q' "")) = x
  /\ McpEnv.stripQuotes y = y.
Proof.
  intros Hq Hq' Hy. split.
  - unfold McpEnv.stripQuotes. rewrite Hq. now apply dropFinalQuote_closing.
  - unfold McpEnv.stripQuotes. destruct y as [|c y']; [reflexivity |].
    pose proof Hy as Hy0. simpl in Hy0. apply andb_prop in Hy0 as [Hc _].
    apply negb_true_iff in Hc. rewrite Hc. now apply dropFinalQuote_plain.
Qed.

Lemma stripQuotes_unwraps_witness :
  McpEnv.stripQuotes (String "034" ("it's" +:+ String "'" "")) = "it's"
  /\ McpEnv.stripQuotes "plain" = "plain".
Proof.
  apply (stripQuotes_unwraps "034" "'" "it's" "plain"); reflexivity.
Defined.

Lemma splitAtEquals_first (key value : string) :
  lacksChar "=" key = true ->
  McpEnv.splitAtEquals (key +:+ String "=" value) = Some (key, value).
Proof.
  induction key as [|c key IH]; intros Hkey.
  - reflexivity.
  - simpl in Hkey. apply andb_prop in Hkey as [Hc Hrest].
    apply negb_true_iff in Hc.
    change (String c key +:+ String "=" value)
      with (String c (key +:+ String "=" value)).
    simpl. rewrite Hc. now rewrite (IH Hrest).
Qed.

Lemma splitAtEquals_none (s : string) :
  lacksChar "=" s = true -> McpEnv.splitAtEquals s = None.
Proof.
  induction s as [|c s IH]; intros Hs; [reflexivity |].
  simpl in Hs. apply andb_prop in Hs as [Hc Hrest].
  apply negb_true_iff in Hc. simpl. rewrite Hc. now rewrite (IH Hrest).
Qed.

(** X7.  A line is an assignment when it has a key before its first equals
    sign: the key is the text before that sign, which must not be empty,
    and the value is everything after it, further equals signs included.
    A text without an equals sign, or one that starts with it, is no
    assignment. *)
Theorem matchAssignment_first_equals (key value other : string) :
  key <> "" ->
  lacksChar "=" key = true ->
  McpEnv.hasLineTerminator value = false ->
  lacksChar "=" other = true ->
  McpEnv.matchAssignment (key +:+ "=" +:+ value) = Some (key, value)
  /\ McpEnv.matchAssignment ("=" +:+ value) = None
  /\ McpEnv.matchAssignment other = None.
Proof.
  intros Hne Hkey Hvalue Hother. unfold McpEnv.matchAssignment.
  change (key +:+ "=" +:+ value) with (key +:+ String "=" value).
  rewrite (splitAtEquals_first _ _ Hkey), (splitAtEquals_none _ Hother).
  destruct key as [|c key']; [congruence |].
  rewrite Hvalue. repeat split.
Qed.

Lemma matchAssignment_first_equals_witness :
  McpEnv.matchAssignment "URL=http://host/?a=1&b=2"
  = Some ("URL", "http://host/?a=1&b=2")
  /\ McpEnv.matchAssignment "=x" = None
  /\ McpEnv.matchAssignment "export" = None.
Proof.
  apply (matchAssignment_first_equals "URL" "http://host/?a=1&b=2" "export");
    (discriminate || reflexivity).
Defined.

(** *** Lines added to an env file *)

Lemma split_not_nil (sep : ascii) (s : string) : JsString.split sep s <> [].
Proof.
  destruct s as [|c s]; simpl; [discriminate |].
  destruct (Ascii.eqb c sep); [discriminate |].
  destruct (JsString.split sep s); discriminate.
Qed.

Lemma split_whole (sep : ascii) (s : string) :
  lacksChar sep s = true -> JsString.split sep s = [s].
Proof.
  induction s as [|c s IH]; intros Hs; [reflexivity |].
  simpl in Hs. apply andb_prop in Hs as [Hc Hrest].
  apply negb_true_iff in Hc. simpl. rewrite Hc. now rewrite (IH Hrest).
Qed.

Lemma split_append (sep : ascii) (a b : string) :
  JsString.split sep (a +:+ String sep b)
  = JsString.split sep a ++ JsString.split sep b.
Proof.
  induction a as [|c a IH].
  - simpl. now rewrite Ascii.eqb_refl.
  - change (String c a +:+ String sep b) with (String c (a +:+ String sep b)).
    simpl. destruct (Ascii.eqb c sep).
    + now rewrite IH.
    + rewrite IH. pose proof (split_not_nil sep a) as Hne.
      destruct (JsString.split sep a) as [|seg rest]; [congruence | reflexivity].
Qed.

Section EnvFileFacts.
Variable trim : string -> string.
Variable cwd : string.

(** The variables loaded from a file whose content is [content]. *)
Lemma loadEnvFile_content (st : Fs.fs) (envFilePath workspaceFolder content : string) :
  Fs.lookupPath cwd st
    (if Path.isAbsolute envFilePath then envFilePath
     else Path.join workspaceFolder envFilePath) = Some (Fs.File content) ->
  McpEnv.loadEnvFile trim cwd st envFilePath workspaceFolder
  = Ok (fold_left (McpEnv.loadEnvLine trim) (JsString.split "010" content) ∅).
Proof.
  intros Hfile. unfold McpEnv.loadEnvFile, Fs.existsSync, Fs.readFileSync.
  now rewrite Hfile.
Qed.

(** The lines of a file are taken in order, each on the variables loaded
    from the lines before it. *)
Lemma loadEnvFile_append_line
    (st st' : Fs.fs) (envFilePath workspaceFolder content line : string)
    (loaded : gmap string string) :
  let resolvedPath :=
    if Path.isAbsolute envFilePath then envFilePath
    else Path.join workspaceFolder envFilePath in
  Fs.lookupPath cwd st resolvedPath = Some (Fs.File content) ->
  Fs.lookupPath cwd st' resolvedPath
  = Some (Fs.File (content +:+ String "010" line)) ->
  lacksChar "010" line = true ->
  McpEnv.loadEnvFile trim cwd st envFilePath workspaceFolder = Ok loaded ->
  McpEnv.loadEnvFile trim cwd st' envFilePath workspaceFolder
  = Ok (McpEnv.loadEnvLine trim loaded line).
Proof.
  intros resolvedPath Hst Hst' Hline.
  rewrite (loadEnvFile_content _ _ _ _ Hst), (loadEnvFile_content _ _ _ _ Hst').
  intros [= <-]. f_equal.
  now rewrite split_append, fold_left_app, (split_whole _ _ Hline).
Qed.

End EnvFileFacts.

(** X8.  An assignment added as a new last line of the env file sets its
    variable on top of what the file gave before: the key (trimmed, and
    other than [__proto__]) is bound to the trimmed value without its
    quotes, replacing an earlier assignment of the same key, and every
    other variable is loaded as before. *)
Theorem loadEnvFile_last_assignment_wins
    (trim : string -> string) (cwd : string) (st st' : Fs.fs)
    (envFilePath workspaceFolder content line key value : string)
    (loaded : gmap string string) :
  let resolvedPath :=
    if Path.isAbsolute envFilePath then envFilePath
    else Path.join workspaceFolder envFilePath in
  Fs.lookupPath cwd st resolvedPath = Some (Fs.File content) ->
  Fs.lookupPath cwd st' resolvedPath
  = Some (Fs.File (content +:+ String "010" line)) ->
  lacksChar "010" line = true ->
  trim line = key +:+ "=" +:+ value ->
  key <> "" -> lacksChar "=" key = true ->
  JsString.startsWith key "#" = false ->
  McpEnv.hasLineTerminator value = false ->
  trim key <> "__proto__" ->
  McpEnv.loadEnvFile trim cwd st envFilePath workspaceFolder = Ok loaded ->
  exists loaded',
    McpEnv.loadEnvFile trim cwd st' envFilePath workspaceFolder = Ok loaded'
    /\ loaded' !! trim key = Some (McpEnv.stripQuotes (trim value))
    /\ forall other, other <> trim key -> loaded' !! other = loaded !! other.
Proof.
  intros resolvedPath Hst Hst' Hline Htrim Hne Hkey Hhash Hvalue Hproto Hloaded.
  apply String.eqb_neq in Hproto.
  exists (<[trim key := McpEnv.stripQuotes (trim value)]> loaded).
  split; [| split].
  - rewrite (loadEnvFile_append_line trim cwd st st' _ _ content line loaded
               Hst Hst' Hline Hloaded).
    f_equal. unfold McpEnv.loadEnvLine. rewrite Htrim.
    assert (Hmatch : McpEnv.matchAssignment (key +:+ "=" +:+ value) = Some (key, value)).
    { unfold McpEnv.matchAssignment.
      change (key +:+ "=" +:+ value) with (key +:+ String "=" value).
      rewrite (splitAtEquals_first _ _ Hkey).
      destruct key; [congruence |]. now rewrite Hvalue. }
    rewrite Hmatch.
    destruct key as [|c key']; [congruence |].
    change (JsString.truthy (String c key' +:+ "=" +:+ value)) with true.
    assert (Hstart : JsString.startsWith (String c key' +:+ "=" +:+ value) "#" = false).
    { simpl in Hhash. simpl. exact Hhash. }
    rewrite Hstart. cbv zeta. now rewrite Hproto.
  - apply lookup_insert_eq.
  - intros other Hother. now apply lookup_insert_ne.
Qed.

Lemma loadEnvFile_last_assignment_wins_witness :
  exists loaded',
    McpEnv.loadEnvFile Sample.asciiTrim "/app/server" sampleEnvFileFsMore ".env" "/app"
    = Ok loaded'
    /\ loaded' !! "A" = Some "again"
    /\ loaded' !! "B" = Some "two words".
Proof.
  destruct (loadEnvFile_last_assignment_wins Sample.asciiTrim "/app/server"
              sampleEnvFileFs sampleEnvFileFsMore ".env" "/app"
              ("A=fromfile" +:+ lf +:+ "# comment" +:+ lf +:+ "B = 'two words'" +:+ lf)
              " A = again " "A " " again"
              (<[ "B" := "two words" ]> (<[ "A" := "fromfile" ]> ∅)))
    as (loaded' & Hload & Hkey & Hothers);
    try (vm_compute; reflexivity); try discriminate.
  exists loaded'. split; [exact Hload |]. split; [exact Hkey |].
  rewrite (Hothers "B"); [reflexivity | discriminate].
Defined.

(** X9.  A line added to the env file that is blank, that is a comment
    (its trimmed text starts with [#]) or that has no equals sign changes
    nothing: the file gives the same variables as before. *)
Theorem loadEnvFile_skips_other_lines
    (trim : string -> string) (cwd : string) (st st' : Fs.fs)
    (envFilePath workspaceFolder content line : string)
    (loaded : gmap string string) :
  let resolvedPath :=
    if Path.isAbsolute envFilePath then envFilePath
    else Path.join workspaceFolder envFilePath in
  Fs.lookupPath cwd st resolvedPath = Some (Fs.File content) ->
  Fs.lookupPath cwd st' resolvedPath
  = Some (Fs.File (content +:+ String "010" line)) ->
  lacksChar "010" line = true ->
  trim line = ""
  \/ JsString.startsWith (trim line) "#" = true
  \/ lacksChar "=" (trim line) = true ->
  McpEnv.loadEnvFile trim cwd st envFilePath workspaceFolder = Ok loaded ->
  McpEnv.loadEnvFile trim cwd st' envFilePath workspaceFolder = Ok loaded.
Proof.
  intros resolvedPath Hst Hst' Hline Hkind Hloaded.
  rewrite (loadEnvFile_append_line trim cwd st st' _ _ content line loaded
             Hst Hst' Hline Hloaded).
  f_equal. unfold McpEnv.loadEnvLine.
  destruct Hkind as [Hblank | [Hcomment | Hplain]].
  - now rewrite Hblank.
  - rewrite Hcomment. now rewrite andb_false_r.
  - unfold McpEnv.matchAssignment. rewrite (splitAtEquals_none _ Hplain).
    now destruct (_ && _).
Qed.

Lemma loadEnvFile_skips_other_lines_witness :
  McpEnv.loadEnvFile Sample.asciiTrim "/app/server" sampleEnvFileFsComment ".env" "/app"
  = Ok (<[ "B" := "two words" ]> (<[ "A" := "fromfile" ]> ∅)).
Proof.
  apply (loadEnvFile_skips_other_lines Sample.asciiTrim "/app/server"
           sampleEnvFileFs sampleEnvFileFsComment ".env" "/app"
           ("A=fromfile" +:+ lf +:+ "# comment" +:+ lf +:+ "B = 'two words'" +:+ lf)
           "  # A=hidden");
    try (vm_compute; reflexivity).
  right. left. vm_compute. reflexivity.
Defined.

(** X10.  Without a usable env file the server gets the inline variables
    and nothing else, and no error is raised: this holds when the
    configuration names no env file, when it names the empty path, and
    when the file it names does not exist. *)
Theorem stdioEnv_without_envFile
    (trim : string -> string) (cwd : string) (st : Fs.fs) (PROJECT_ROOT : string)
    (cfg : McpEnv.MCPStdioConfig) :
  McpEnv.envFile cfg = None
  \/ McpEnv.envFile cfg = Some ""
  \/ (exists file,
        McpEnv.envFile cfg = Some file
        /\ Fs.existsSync cwd st
             (if Path.isAbsolute file then file else Path.join PROJECT_ROOT file)
           = false) ->
  McpEnv.stdioEnv trim cwd st PROJECT_ROOT cfg
  = Ok (default ∅ (McpEnv.env cfg)).
Proof.
  assert (Hinline : Registry.spread ∅ (default ∅ (McpEnv.env cfg))
                    = default ∅ (McpEnv.env cfg)).
  { unfold Registry.spread. apply (right_id_L ∅ (∪)). }
  unfold McpEnv.stdioEnv.
  intros [Hnone | [Hempty | (file & Hfile & Hmissing)]].
  - rewrite Hnone. now rewrite Hinline.
  - rewrite Hempty. simpl. now rewrite Hinline.
  - rewrite Hfile. destruct (JsString.truthy file); [| now rewrite Hinline].
    unfold McpEnv.loadEnvFile. rewrite Hmissing. simpl.
    rewrite Hinline. f_equal. unfold Registry.spread.
    rewrite (right_id_L ∅ (∪)). apply (right_id_L ∅ (∪)).
Qed.

Lemma stdioEnv_without_envFile_witness :
  McpEnv.stdioEnv Sample.asciiTrim "/app/server" sampleFs "/app" sampleStdioConfig
  = Ok (<[ "A" := "inline" ]> ∅).
Proof.
  apply (stdioEnv_without_envFile Sample.asciiTrim "/app/server" sampleFs "/app"
           sampleStdioConfig).
  right. right. exists ".env". split; vm_compute; reflexivity.
Defined.

(** ** The code blocks of a skill, beyond the claims *)

Section BlockFacts.
Variables toLowerCase trim : string -> string.

(** Every block of the scan carries the value of the counter at the time
    it was added, and the counter goes up by one with every block. *)
Lemma extractGo_indices (s : string) :
  forall skip index,
    map Skills.index (Skills.extractGo toLowerCase trim skip index s)
    = seq index (length (Skills.extractGo toLowerCase trim skip index s)).
Proof.
  induction s as [|c s IH]; intros skip index; simpl; [reflexivity |].
  destruct skip as [|k]; [| apply IH].
  destruct (Skills.codeBlockRegex (String c s)) as [[n [m1 m2]]|]; [| apply IH].
  destruct (JsString.truthy (trim m2)); [| apply IH].
  simpl. now rewrite IH.
Qed.

Lemma extractGo_code (s : string) :
  forall skip index,
    Forall (fun b => Skills.code b <> "")
           (Skills.extractGo toLowerCase trim skip index s).
Proof.
  induction s as [|c s IH]; intros skip index; simpl; [constructor |].
  destruct skip as [|k]; [| apply IH].
  destruct (Skills.codeBlockRegex (String c s)) as [[n [m1 m2]]|]; [| apply IH].
  destruct (JsString.truthy (trim m2)) eqn:E; [| apply IH].
  constructor; [| apply IH].
  simpl. intros Hempty. rewrite Hempty in E. discriminate.
Qed.

End BlockFacts.

(** X11.  The code blocks of a skill are numbered by their position: the
    block at position [i] of the list has the index [i], for any descriptor
    (blocks with an empty body, which are skipped, take no number), and no
    block of the list has an empty code. *)
Theorem extractCodeBlocks_numbered
    (toLowerCase trim : string -> string) (content : string) :
  let blocks := Skills.extractCodeBlocks toLowerCase trim content in
  map Skills.index blocks = seq 0 (length blocks)
  /\ Forall (fun b => Skills.code b <> "") blocks.
Proof.
  split; [apply extractGo_indices | apply extractGo_code].
Qed.

(** ** The chat endpoint, beyond the claims *)

(** X12.  When the generation fails, the handler answers with status 500
    and an error text that is never empty: the message of the failure, or
    [Internal Server Error] when the failure has no message.  The request
    that failed is the only one issued. *)
Theorem chat_generation_failure_500
    {Tool ToolCall : Type} (toLowerCase trim : string -> string)
    (generateText : @Chat.GenerateRequest Tool -> result (@Chat.GenerateResult ToolCall))
    (availableTools : gmap string Tool)
    (requestBody : list (string * Chat.JValue)) (messages : list Chat.JValue)
    (message : string) :
  Chat.getField "messages" requestBody = Some (Chat.JArray messages) ->
  generateText (Chat.requestFor toLowerCase availableTools messages) = Throw message ->
  exists error,
    Chat.chat toLowerCase trim generateText availableTools requestBody
    = ({| Chat.status := 500; Chat.body := Chat.ErrorBody error |},
       [Chat.requestFor toLowerCase availableTools messages])
    /\ error <> ""
    /\ (message <> "" -> error = message)
    /\ (message = "" -> error = "Internal Server Error").
Proof.
  intros Hbody Hfail. unfold Chat.chat. rewrite Hbody. simpl. rewrite Hfail.
  eexists. split; [reflexivity |].
  destruct message as [|c message']; simpl.
  - repeat split; congruence.
  - repeat split; congruence.
Qed.

Lemma chat_generation_failure_500_witness :
  (Chat.chat Sample.asciiLower Sample.asciiTrim failingModel (∅ : gmap string string)
     (bodyWith [message "user" "hello"])).1
  = {| Chat.status := 500;
       Chat.body := Chat.ErrorBody "Invalid prompt: messages must not be empty" |}.
Proof.
  destruct (chat_generation_failure_500 Sample.asciiLower Sample.asciiTrim
              failingModel (∅ : gmap string string)
              (bodyWith [message "user" "hello"]) [message "user" "hello"]
              "Invalid prompt: messages must not be empty" eq_refl eq_refl)
    as (error & Hchat & _ & Hmessage & _).
  rewrite Hchat. simpl. now rewrite Hmessage.
Defined.

(** X13.  When the generation succeeds, the handler answers with status
    200 and hands on what the model gave: its messages and its tool calls
    as they are, the flag [hasToolCalls] that tells whether there is a tool
    call, and its text unchanged whenever there is no tool call or the
    text is not blank.  The one generation request carries the messages of
    the body as they are, the whole registry and the limit of ten steps. *)
Theorem chat_success_hands_on
    {Tool ToolCall : Type} (toLowerCase trim : string -> string)
    (generateText : @Chat.GenerateRequest Tool -> result (@Chat.GenerateResult ToolCall))
    (availableTools : gmap string Tool)
    (requestBody : list (string * Chat.JValue)) (messages : list Chat.JValue)
    (r : @Chat.GenerateResult ToolCall) :
  Chat.getField "messages" requestBody = Some (Chat.JArray messages) ->
  generateText (Chat.requestFor toLowerCase availableTools messages) = Ok r ->
  exists answer request,
    Chat.chat toLowerCase trim generateText availableTools requestBody
    = ({| Chat.status := 200;
          Chat.body := Chat.ChatBody (Chat.response_messages r) answer
                         (Chat.toolCalls r)
                         (if Chat.toolCalls r is [] then false else true) |},
       [request])
    /\ (Chat.toolCalls r = []
        \/ (Chat.text r <> "" /\ trim (Chat.text r) <> "") -> answer = Chat.text r)
    /\ Chat.req_messages request = messages
    /\ Chat.req_tools request = availableTools
    /\ Chat.req_stepLimit request = 10.
Proof.
  intros Hbody Hok. unfold Chat.chat. rewrite Hbody. simpl. rewrite Hok.
  unfold Chat.respond. eexists. eexists. split.
  - f_equal. f_equal. f_equal. now destruct (Chat.toolCalls r).
  - split; [| repeat split].
    intros [Hnone | [Hne Htext]].
    + rewrite Hnone. simpl. now destruct (JsString.truthy (Chat.text r)).
    + destruct (Chat.text r) as [|c t] eqn:Et.
      * congruence.
      * assert (Hlen : Nat.eqb (String.length (trim (String c t))) 0 = false).
        { destruct (trim (String c t)); [congruence | reflexivity]. }
        rewrite Hlen. simpl. rewrite andb_false_r. reflexivity.
Qed.

Lemma chat_success_hands_on_witness :
  (Chat.chat Sample.asciiLower Sample.asciiTrim talkingModel (∅ : gmap string string)
     (bodyWith [message "user" "hello"])).1
  = {| Chat.status := 200; Chat.body := Chat.ChatBody [] "Done." [] false |}.
Proof.
  destruct (chat_success_hands_on Sample.asciiLower Sample.asciiTrim
              talkingModel (∅ : gmap string string)
              (bodyWith [message "user" "hello"]) [message "user" "hello"]
              {| Chat.text := "Done."; Chat.toolCalls := [];
                 Chat.response_messages := [] |} eq_refl eq_refl)
    as (answer & request & Hchat & Hanswer & _).
  rewrite Hchat. simpl. rewrite Hanswer; [reflexivity |]. now left.
Defined.

(** ** The walks over parsed JSON *)

(** Induction on a JSON value, with the items of an array and the values
    of an object. *)
Lemma JValue_nested_ind (P : Chat.JValue -> Prop) :
  P Chat.JNull ->
  (forall b, P (Chat.JBool b)) ->
  (forall literal, P (Chat.JNumber literal)) ->
  (forall s, P (Chat.JString s)) ->
  (forall items, Forall P items -> P (Chat.JArray items)) ->
  (forall fields, Forall (fun kv => P kv.2) fields -> P (Chat.JObject fields)) ->
  forall v, P v.
Proof.
  intros Hnull Hbool Hnumber Hstring Harray Hobject.
  fix IH 1. intros [| b | literal | s | items | fields].
  - exact Hnull.
  - apply Hbool.
  - apply Hnumber.
  - apply Hstring.
  - apply Harray. induction items as [|item rest IHitems]; constructor.
    + apply IH.
    + exact IHitems.
  - apply Hobject. induction fields as [|[key value] rest IHfields]; constructor.
    + apply IH.
    + exact IHfields.
Qed.

Lemma withField_getField {A : Type} (key : string) (found : Chat.JValue -> A)
      (missing : A) (fields : list (string * Chat.JValue)) :
  Json.withField key found missing fields
  = match Chat.getField key fields with
    | Some v => found v
    | None => missing
    end.
Proof.
  induction fields as [|[k v] rest IH]; simpl; [reflexivity |].
  destruct (String.eqb k key); [reflexivity | exact IH].
Qed.

Lemma getField_other (key other : string) (value : Chat.JValue)
      (before after : list (string * Chat.JValue)) :
  other <> key ->
  Chat.getField key (before ++ (other, value) :: after)
  = Chat.getField key (before ++ after).
Proof.
  intros Hne. induction before as [|[k v] rest IH]; simpl.
  - apply String.eqb_neq in Hne. now rewrite Hne.
  - destruct (String.eqb k key); [reflexivity | exact IH].
Qed.

Section SchemaFacts.
Variable isZero : string -> bool.
Variable characters : string -> list string.

Abbreviation toZod := (Json.mcpSchemaToZod isZero characters).

(** The conversion of a schema that is an object, by the fields it
    reads. *)
Lemma mcpSchemaToZod_object (fields : list (string * Chat.JValue)) :
  toZod (Chat.JObject fields)
  = match Chat.getField "type" fields with
    | Some (Chat.JString typeName) =>
        if String.eqb typeName "string" then Json.ZString
        else if String.eqb typeName "number" then Json.ZNumber
        else if String.eqb typeName "integer" then Json.ZInt
        else if String.eqb typeName "boolean" then Json.ZBoolean
        else if String.eqb typeName "array" then
          Json.ZArray
            match Chat.getField "items" fields with
            | Some items =>
                if Json.truthyValue isZero items then toZod items else Json.ZAny
            | None => Json.ZAny
            end
        else if String.eqb typeName "object" then
          match Chat.getField "properties" fields with
          | Some properties =>
              if Json.truthyValue isZero properties
              then Json.ZObject (Json.shapeOf isZero characters properties)
              else Json.ZRecord Json.ZAny
          | None => Json.ZRecord Json.ZAny
          end
        else Json.ZAny
    | _ => Json.ZAny
    end.
Proof.
  cbn [Json.mcpSchemaToZod]. rewrite !withField_getField. reflexivity.
Qed.

End SchemaFacts.

(** X14.  A schema is converted by its [type], its [items] and its
    [properties] alone: any other field of the schema object, such as
    [required], [description], [enum] or [default], can be added or taken
    away without changing the Zod schema that is built. *)
Theorem mcpSchemaToZod_ignores_other_fields
    (isZero : string -> bool) (characters : string -> list string)
    (before after : list (string * Chat.JValue))
    (key : string) (value : Chat.JValue) :
  key <> "type" -> key <> "items" -> key <> "properties" ->
  Json.mcpSchemaToZod isZero characters
    (Chat.JObject (before ++ (key, value) :: after))
  = Json.mcpSchemaToZod isZero characters (Chat.JObject (before ++ after)).
Proof.
  intros Htype Hitems Hprops.
  rewrite !mcpSchemaToZod_object.
  now rewrite !(getField_other _ key value before after) by assumption.
Qed.

Lemma mcpSchemaToZod_ignores_other_fields_witness :
  Json.mcpSchemaToZod sampleIsZero sampleCharacters
    (Chat.JObject
       (sampleSchemaFields ++ [("required", Chat.JArray [Chat.JString "path"])]))
  = Json.ZObject
      [("path", Json.ZString); ("depth", Json.ZInt);
       ("tags", Json.ZArray Json.ZString); ("extra", Json.ZAny)].
Proof.
  rewrite (mcpSchemaToZod_ignores_other_fields sampleIsZero sampleCharacters
             sampleSchemaFields [] "required" (Chat.JArray [Chat.JString "path"]));
    try discriminate.
  vm_compute. reflexivity.
Defined.

(** The conversion by cases of the [type] of the schema. *)
Lemma mcpSchemaToZod_cases
    (isZero : string -> bool) (characters : string -> list string)
    (mcpSchema : Chat.JValue) :
  let schema := Json.mcpSchemaToZod isZero characters mcpSchema in
  let typeIs name := Json.property "type" mcpSchema = Some (Chat.JString name) in
  (typeIs "string" /\ schema = Json.ZString)
  \/ (typeIs "number" /\ schema = Json.ZNumber)
  \/ (typeIs "integer" /\ schema = Json.ZInt)
  \/ (typeIs "boolean" /\ schema = Json.ZBoolean)
  \/ (typeIs "array"
      /\ schema
         = Json.ZArray
             match Json.property "items" mcpSchema with
             | Some items =>
                 if Json.truthyValue isZero items
                 then Json.mcpSchemaToZod isZero characters items
                 else Json.ZAny
             | None => Json.ZAny
             end)
  \/ (typeIs "object"
      /\ schema
         = match Json.property "properties" mcpSchema with
           | Some properties =>
               if Json.truthyValue isZero properties
               then Json.ZObject (Json.shapeOf isZero characters properties)
               else Json.ZRecord Json.ZAny
           | None => Json.ZRecord Json.ZAny
           end)
  \/ ((forall name, In name ["string"; "number"; "integer"; "boolean"; "array"; "object"] ->
         ~ typeIs name)
      /\ schema = Json.ZAny).
Proof.
  cbv zeta.
  assert (Hother : forall v : option Chat.JValue,
            (forall typeName, v <> Some (Chat.JString typeName)) ->
            forall name,
              In name ["string"; "number"; "integer"; "boolean"; "array"; "object"] ->
              v <> Some (Chat.JString name)).
  { intros v Hv name _. apply Hv. }
  destruct mcpSchema as [| b | literal | s | items | fields];
    try (do 6 right; split; [apply Hother; discriminate | reflexivity]).
  rewrite mcpSchemaToZod_object. unfold Json.property.
  destruct (Chat.getField "type" fields) as [[| | |typeName| |]|];
    try (do 6 right; split; [apply Hother; discriminate | reflexivity]).
  destruct (String.eqb_spec typeName "string") as [->|H1]; [left; auto |].
  destruct (String.eqb_spec typeName "number") as [->|H2]; [right; left; auto |].
  destruct (String.eqb_spec typeName "integer") as [->|H3];
    [do 2 right; left; auto |].
  destruct (String.eqb_spec typeName "boolean") as [->|H4];
    [do 3 right; left; auto |].
  destruct (String.eqb_spec typeName "array") as [->|H5];
    [do 4 right; left; auto |].
  destruct (String.eqb_spec typeName "object") as [->|H6];
    [do 5 right; left; auto |].
  do 6 right. split; [| reflexivity].
  intros name Hin Heq. injection Heq as ->.
  simpl in Hin. intuition congruence.
Qed.

(** X15.  The kind of the Zod schema follows the [type] of the schema and
    nothing else.  A schema object whose [type] is [string], [number],
    [integer] or [boolean] gives the string, number, integer or boolean
    schema, and only such a schema object does; [array] gives an array
    schema, whose element is the conversion of the [items], or the schema
    that accepts anything when there are none; [object] gives an object
    schema when the schema has [properties] and a record of anything
    otherwise; and everything else, a missing or unknown [type], a [type]
    that is a list of names, a schema that is no object, gives the schema
    that accepts anything, which the six names never give. *)
Theorem mcpSchemaToZod_kind_follows_type
    (isZero : string -> bool) (characters : string -> list string)
    (mcpSchema : Chat.JValue) :
  let schema := Json.mcpSchemaToZod isZero characters mcpSchema in
  let typeIs name := Json.property "type" mcpSchema = Some (Chat.JString name) in
  (schema = Json.ZString <-> typeIs "string")
  /\ (schema = Json.ZNumber <-> typeIs "number")
  /\ (schema = Json.ZInt <-> typeIs "integer")
  /\ (schema = Json.ZBoolean <-> typeIs "boolean")
  /\ ((exists element, schema = Json.ZArray element) <-> typeIs "array")
  /\ (typeIs "array" ->
      schema
      = Json.ZArray
          match Json.property "items" mcpSchema with
          | Some items =>
              if Json.truthyValue isZero items
              then Json.mcpSchemaToZod isZero characters items
              else Json.ZAny
          | None => Json.ZAny
          end)
  /\ ((exists shape, schema = Json.ZObject shape) \/ schema = Json.ZRecord Json.ZAny
      <-> typeIs "object")
  /\ ((exists shape, schema = Json.ZObject shape)
      <-> typeIs "object"
          /\ Json.truthyProperty isZero (Json.property "properties" mcpSchema) = true)
  /\ (schema = Json.ZAny
      <-> forall name,
            In name ["string"; "number"; "integer"; "boolean"; "array"; "object"] ->
            ~ typeIs name).
Proof.
  cbv zeta.
  pose proof (mcpSchemaToZod_cases isZero characters mcpSchema) as Hcases.
  cbv zeta in Hcases.
  assert (Hobject :
            forall properties : option Chat.JValue,
              let built :=
                match properties with
                | Some properties =>
                    if Json.truthyValue isZero properties
                    then Json.ZObject (Json.shapeOf isZero characters properties)
                    else Json.ZRecord Json.ZAny
                | None => Json.ZRecord Json.ZAny
                end in
              ((exists shape, built = Json.ZObject shape)
               <-> Json.truthyProperty isZero properties = true)
              /\ ((exists shape, built = Json.ZObject shape)
                  \/ built = Json.ZRecord Json.ZAny)
              /\ built <> Json.ZAny /\ built <> Json.ZString /\ built <> Json.ZNumber
              /\ built <> Json.ZInt /\ built <> Json.ZBoolean
              /\ (forall element, built <> Json.ZArray element)).
  { intros [properties|]; simpl; [destruct (Json.truthyValue isZero properties) |];
      repeat split; try discriminate; try (intros [shape H]; discriminate);
      try (intros; eauto); try (right; reflexivity); try (left; eauto). }
  destruct Hcases as [[Ht Hs] | [[Ht Hs] | [[Ht Hs] | [[Ht Hs] | [[Ht Hs] | [[Ht Hs] | [Ht Hs]]]]]]];
    rewrite Hs; try rewrite Ht.
  1-5: repeat match goal with
              | |- _ /\ _ => split
              | |- _ <-> _ => split
              | |- _ -> _ => intro
              | H : exists _, _ |- _ => destruct H
              | H : _ \/ _ |- _ => destruct H
              | H : _ /\ _ |- _ => destruct H
              end;
         try discriminate; try congruence; try reflexivity;
         try (eexists; reflexivity);
         try (exfalso;
              match goal with
              | H : forall name, In name _ -> _ |- _ =>
                  eapply H; [| reflexivity]; simpl; tauto
              end).
  - specialize (Hobject (Json.property "properties" mcpSchema)). cbv zeta in Hobject.
    destruct Hobject as (Hshape & Hkind & Hany & Hstring & Hnumber & Hint & Hbool & Harray).
    split; [split; [intros Hx; now apply Hstring in Hx | discriminate] |].
    split; [split; [intros Hx; now apply Hnumber in Hx | discriminate] |].
    split; [split; [intros Hx; now apply Hint in Hx | discriminate] |].
    split; [split; [intros Hx; now apply Hbool in Hx | discriminate] |].
    split; [split; [intros [x Hx]; now apply Harray in Hx | discriminate] |].
    split; [discriminate |].
    split; [split; [reflexivity | intros _; exact Hkind] |].
    split.
    + split.
      * intros Hx. split; [reflexivity | now apply Hshape].
      * intros [_ Hx]. now apply Hshape.
    + split; [intros Hx; now apply Hany in Hx |].
      intros Hall. exfalso. eapply Hall; [| reflexivity]. simpl. tauto.
  - assert (Hnot : forall name,
               In name ["string"; "number"; "integer"; "boolean"; "array"; "object"] ->
               Json.property "type" mcpSchema = Some (Chat.JString name) -> False).
    { exact Ht. }
    split; [split; [discriminate | intros Hx; exfalso; eapply Hnot; [| exact Hx]; simpl; tauto] |].
    split; [split; [discriminate | intros Hx; exfalso; eapply Hnot; [| exact Hx]; simpl; tauto] |].
    split; [split; [discriminate | intros Hx; exfalso; eapply Hnot; [| exact Hx]; simpl; tauto] |].
    split; [split; [discriminate | intros Hx; exfalso; eapply Hnot; [| exact Hx]; simpl; tauto] |].
    split; [split; [intros [x Hx]; discriminate
                   | intros Hx; exfalso; eapply Hnot; [| exact Hx]; simpl; tauto] |].
    split; [intros Hx; exfalso; eapply Hnot; [| exact Hx]; simpl; tauto |].
    split; [split; [intros [[x Hx] | Hx]; discriminate
                   | intros Hx; exfalso; eapply Hnot; [| exact Hx]; simpl; tauto] |].
    split; [split; [intros [x Hx]; discriminate
                   | intros [Hx _]; exfalso; eapply Hnot; [| exact Hx]; simpl; tauto] |].
    split; [intros _; exact Ht | reflexivity].
Qed.

(** *** The interpolation of a whole configuration *)

Section ConfigFacts.
Variable process_env : gmap string string.
Variable homedir : string.
Variable workspaceFolder : string.

Abbreviation interpolate :=
  (fun v => Json.interpolateConfigObject process_env homedir v workspaceFolder).

Lemma interpolateConfigObject_object (fields : list (string * Chat.JValue)) :
  interpolate (Chat.JObject fields)
  = Chat.JObject
      (Json.assigned (map (fun kv => (kv.1, interpolate kv.2)) fields)).
Proof.
  cbn [Json.interpolateConfigObject]. do 2 f_equal.
  apply map_ext. now intros [key value].
Qed.

Lemma getField_assigned_map (f : Chat.JValue -> Chat.JValue) (key : string)
      (fields : list (string * Chat.JValue)) :
  Json.storable key = true ->
  Chat.getField key (Json.assigned (map (fun kv => (kv.1, f kv.2)) fields))
  = f <$> Chat.getField key fields.
Proof.
  intros Hkey. induction fields as [|[k v] rest IH]; [reflexivity |].
  unfold Json.assigned in *. simpl.
  destruct (String.eqb k key) eqn:E.
  - apply String.eqb_eq in E. subst k. rewrite Hkey. simpl.
    now rewrite String.eqb_refl.
  - destruct (Json.storable k); simpl; [rewrite E |]; exact IH.
Qed.

End ConfigFacts.

(** X16.  A configuration with nothing to interpolate comes back as it
    is: when none of its strings holds a token, however deep in arrays and
    objects, and none of its keys is [__proto__], the interpolation of the
    whole value returns the very same value. *)
Theorem interpolateConfigObject_plain
    (process_env : gmap string string) (homedir workspaceFolder : string)
    (config : Chat.JValue) :
  Json.plainConfig config ->
  Json.interpolateConfigObject process_env homedir config workspaceFolder = config.
Proof.
  induction config as [| b | literal | s | items IH | fields IH]
    using JValue_nested_ind; intros Hplain; try reflexivity.
  - simpl. f_equal. now apply interpolateConfig_no_token.
  - cbn [Json.interpolateConfigObject]. f_equal.
    induction items as [|item rest IHrest]; [reflexivity |].
    inversion IH as [|? ? Hitem Hrest]; subst.
    destruct Hplain as [Hp Hps]. simpl. f_equal.
    + now apply Hitem.
    + now apply IHrest.
  - rewrite interpolateConfigObject_object. f_equal.
    induction fields as [|[key value] rest IHrest]; [reflexivity |].
    inversion IH as [|? ? Hvalue Hrest]; subst.
    destruct Hplain as (Hkey & Hp & Hps).
    unfold Json.assigned in *. simpl. rewrite Hkey. f_equal.
    + simpl in Hvalue. now rewrite Hvalue.
    + now apply IHrest.
Qed.
Lemma no_dollar_brace_no_token (s : string) :
  JsString.includes s "${" = false -> ~ holdsToken s.
Proof.
  intros Hnone Hholds. apply holdsToken_dollar_brace in Hholds. congruence.
Qed.

Lemma interpolateConfigObject_plain_witness :
  Json.interpolateConfigObject sampleEnv "/home/u" samplePlainConfig "/w/proj"
  = samplePlainConfig.
Proof.
  apply (interpolateConfigObject_plain sampleEnv "/home/u" "/w/proj" samplePlainConfig).
  simpl. repeat split; apply no_dollar_brace_no_token; reflexivity.
Defined.

(** X17.  The interpolation reaches every value and leaves every key
    alone: what a path of keys and positions leads to in the interpolated
    configuration is the interpolation of what the same path leads to in
    the configuration, and the path leads nowhere in the one exactly when
    it leads nowhere in the other (for paths without the key
    [__proto__]).  So a string at any depth, in arrays and objects, is
    replaced by its interpolation. *)
Theorem interpolateConfigObject_goes_deep
    (process_env : gmap string string) (homedir workspaceFolder : string)
    (path : list Json.Step) (config : Chat.JValue) :
  Forall (fun step => step <> Json.Key "__proto__") path ->
  Json.select path
    (Json.interpolateConfigObject process_env homedir config workspaceFolder)
  = (fun v => Json.interpolateConfigObject process_env homedir v workspaceFolder)
      <$> Json.select path config.
Proof.
  revert config. induction path as [|step rest IH]; intros config Hpath.
  - reflexivity.
  - inversion Hpath as [|? ? Hstep Hrest]; subst.
    destruct step as [key|position].
    + destruct config as [| b | literal | s | items | fields]; try reflexivity.
      rewrite interpolateConfigObject_object.
      cbn [Json.select].
      rewrite (getField_assigned_map
                 (fun v => Json.interpolateConfigObject process_env homedir v
                             workspaceFolder)).
      * destruct (Chat.getField key fields) as [child|]; [| reflexivity].
        simpl. now apply IH.
      * unfold Json.storable. apply negb_true_iff, String.eqb_neq. congruence.
    + destruct config as [| b | literal | s | items | fields]; try reflexivity.
      cbn [Json.select Json.interpolateConfigObject].
      rewrite list_lookup_fmap.
      destruct (items !! position) as [child|]; [| reflexivity].
      simpl. now apply IH.
Qed.

Lemma interpolateConfigObject_goes_deep_witness :
  Json.select [Json.Key "args"; Json.Item 1]
    (Json.interpolateConfigObject sampleEnv "/home/u" sampleServerConfig "/w/proj")
  = Some (Chat.JString "/home/u/server.js").
Proof.
  rewrite (interpolateConfigObject_goes_deep sampleEnv "/home/u" "/w/proj"
             [Json.Key "args"; Json.Item 1] sampleServerConfig).
  - vm_compute. reflexivity.
  - repeat constructor; discriminate.
Defined.

(** ** The MCP loader *)

Section LoaderFacts.
Variable isZero : string -> bool.
Variable characters : string -> list string.
Variable process_env : gmap string string.
Variable homedir : string.
Variable PROJECT_ROOT : string.
Variable connectAndList : string -> Chat.JValue -> result (list Mcp.ListedTool).

Abbreviation interpolated :=
  (fun config => Json.interpolateConfigObject process_env homedir config PROJECT_ROOT).
Abbreviation connectServer :=
  (Mcp.connectServer isZero characters process_env homedir PROJECT_ROOT connectAndList).
Abbreviation contributes :=
  (Mcp.contributes isZero process_env homedir PROJECT_ROOT connectAndList).
Abbreviation registerTools := (Mcp.registerTools isZero characters).

Abbreviation listedBy :=
  (Mcp.listedBy process_env homedir PROJECT_ROOT connectAndList).

Lemma assignTool_is_Some (toolName name : string) (t : Mcp.McpTool)
      (mcpTools : gmap string Mcp.McpTool) :
  is_Some (Mcp.assignTool toolName t mcpTools !! name)
  <-> is_Some (mcpTools !! name) \/ (name = toolName /\ name <> "__proto__").
Proof.
  unfold Mcp.assignTool, Json.storable.
  destruct (String.eqb_spec toolName "__proto__") as [Hproto|Hproto]; simpl.
  - split; [auto | intros [H | [-> H]]; [exact H | congruence]].
  - destruct (decide (name = toolName)) as [->|Hne].
    + rewrite lookup_insert_eq. split; [intros _; right; auto | intros _; eauto].
    + rewrite lookup_insert_ne by congruence.
      split; [auto | intros [H | [H _]]; [exact H | congruence]].
Qed.

Lemma registerTools_is_Some (serverName : string) (tools : list Mcp.ListedTool) :
  forall (mcpTools : gmap string Mcp.McpTool) (name : string),
    is_Some (registerTools serverName tools mcpTools !! name)
    <-> is_Some (mcpTools !! name)
        \/ (name <> "__proto__"
            /\ exists listed, In listed tools
                              /\ name = serverName +:+ "_" +:+ Mcp.listed_name listed).
Proof.
  unfold Mcp.registerTools.
  induction tools as [|t rest IH]; intros mcpTools name; simpl.
  - split; [auto | intros [H | (_ & listed & [] & _)]; exact H].
  - rewrite IH, assignTool_is_Some. unfold Mcp.toolNameOf. split.
    + intros [[H | [-> Hne]] | (Hne & listed & Hin & ->)]; auto.
      * right. split; [exact Hne |]. exists t. auto.
      * right. split; [exact Hne |]. exists listed. auto.
    + intros [H | (Hne & listed & [<- | Hin] & ->)]; auto.
      right. split; [exact Hne |]. exists listed. auto.
Qed.

Lemma connectServer_skips (mcpTools : gmap string Mcp.McpTool)
      (entry : string * Chat.JValue) :
  contributes entry = false -> connectServer mcpTools entry = mcpTools.
Proof.
  destruct entry as [serverName config].
  unfold Mcp.contributes, Mcp.connectServer.
  destruct (interpolated config) as [| b | literal | s | items | fields];
    try reflexivity;
    (destruct (Mcp.isStdio isZero _); [| reflexivity]);
    (destruct (connectAndList serverName _); [discriminate | reflexivity]).
Qed.

Lemma connectServer_is_Some (mcpTools : gmap string Mcp.McpTool)
      (entry : string * Chat.JValue) (name : string) :
  is_Some (connectServer mcpTools entry !! name)
  <-> is_Some (mcpTools !! name)
      \/ (contributes entry = true /\ name <> "__proto__" /\ listedBy entry name).
Proof.
  destruct (contributes entry) eqn:Hc.
  - destruct entry as [serverName config].
    unfold Mcp.contributes in Hc.
    assert (Hrun : exists tools,
               connectAndList serverName (interpolated config) = Ok tools
               /\ connectServer mcpTools (serverName, config)
                  = registerTools serverName tools mcpTools).
    { unfold Mcp.connectServer.
      destruct (interpolated config) as [| b | literal | s | items | fields];
        try discriminate;
        (destruct (Mcp.isStdio isZero _); [| discriminate]);
        (destruct (connectAndList serverName _) as [tools|]; [| discriminate]);
        exists tools; split; reflexivity. }
    destruct Hrun as (tools & Hlist & Hrun).
    rewrite Hrun, registerTools_is_Some. unfold Mcp.listedBy. simpl.
    rewrite Hlist. split.
    + intros [H | (Hne & listed & Hin & ->)]; [auto |].
      right. repeat split; [exact Hne |]. exists tools, listed. auto.
    + intros [H | (_ & Hne & tools' & listed & [= <-] & Hin & ->)]; [auto |].
      right. split; [exact Hne |]. exists listed. auto.
  - rewrite (connectServer_skips _ _ Hc). split; [auto |].
    intros [H | (Hfalse & _)]; [exact H | discriminate].
Qed.

Lemma servers_is_Some (servers : list (string * Chat.JValue)) :
  forall (mcpTools : gmap string Mcp.McpTool) (name : string),
    is_Some (fold_left connectServer servers mcpTools !! name)
    <-> is_Some (mcpTools !! name)
        \/ exists entry, In entry servers /\ contributes entry = true
                         /\ name <> "__proto__" /\ listedBy entry name.
Proof.
  induction servers as [|entry rest IH]; intros mcpTools name; simpl.
  - split; [auto | intros [H | (entry & [] & _)]; exact H].
  - rewrite IH, connectServer_is_Some. split.
    + intros [[H | H] | (e & Hin & H)]; auto.
      * right. exists entry. auto.
      * right. exists e. auto.
    + intros [H | (e & [<- | Hin] & H)]; auto.
      right. exists e. auto.
Qed.

Lemma servers_skip (servers : list (string * Chat.JValue)) :
  forall mcpTools : gmap string Mcp.McpTool,
    fold_left connectServer servers mcpTools
    = fold_left connectServer (List.filter contributes servers) mcpTools.
Proof.
  induction servers as [|entry rest IH]; intros mcpTools; simpl; [reflexivity |].
  destruct (contributes entry) eqn:Hc; simpl.
  - apply IH.
  - rewrite (connectServer_skips _ _ Hc). apply IH.
Qed.

Lemma initializeMCPToolsFrom_servers (mcpConfig mcpServers : Chat.JValue) :
  Json.property "mcpServers" mcpConfig = Some mcpServers ->
  Json.truthyValue isZero mcpServers = true ->
  Mcp.initializeMCPToolsFrom isZero characters process_env homedir PROJECT_ROOT
    connectAndList mcpConfig
  = fold_left connectServer (Json.entries characters mcpServers) ∅.
Proof.
  intros Hprop Htruthy. unfold Mcp.initializeMCPToolsFrom.
  now rewrite Hprop, Htruthy.
Qed.

End LoaderFacts.





(** A property of names and tools that every tool built for a listed tool
    has holds throughout the registry. *)
Section RegistryInvariant.
Variable isZero : string -> bool.
Variable characters : string -> list string.
Variable process_env : gmap string string.
Variable homedir : string.
Variable PROJECT_ROOT : string.
Variable connectAndList : string -> Chat.JValue -> result (list Mcp.ListedTool).
Variable P : string -> Mcp.McpTool -> Prop.
Hypothesis built :
  forall serverName listed,
    P (Mcp.toolNameOf serverName listed)
      (Mcp.createToolFromMCP isZero characters serverName listed).

Lemma registerTools_invariant (serverName : string) (tools : list Mcp.ListedTool) :
  forall mcpTools : gmap string Mcp.McpTool,
    (forall name t, mcpTools !! name = Some t -> P name t) ->
    forall name t,
      Mcp.registerTools isZero characters serverName tools mcpTools !! name = Some t ->
      P name t.
Proof.
  unfold Mcp.registerTools.
  induction tools as [|listed rest IH]; intros mcpTools Hinv; simpl; [exact Hinv |].
  apply IH. intros name t. unfold Mcp.assignTool.
  destruct (Json.storable _); [| apply Hinv].
  destruct (decide (name = Mcp.toolNameOf serverName listed)) as [->|Hne].
  - rewrite lookup_insert_eq. intros [= <-]. apply built.
  - rewrite lookup_insert_ne by congruence. apply Hinv.
Qed.

Lemma servers_invariant (servers : list (string * Chat.JValue)) :
  forall mcpTools : gmap string Mcp.McpTool,
    (forall name t, mcpTools !! name = Some t -> P name t) ->
    forall name t,
      fold_left
        (Mcp.connectServer isZero characters process_env homedir PROJECT_ROOT
           connectAndList) servers mcpTools !! name = Some t ->
      P name t.
Proof.
  induction servers as [|[serverName config] rest IH]; intros mcpTools Hinv;
    simpl; [exact Hinv |].
  apply IH. unfold Mcp.connectServer.
  destruct (Json.interpolateConfigObject _ _ config _); try exact Hinv;
    try match goal with
        | |- context [Mcp.isStdio isZero ?c] =>
            destruct (Mcp.isStdio isZero c); [| exact Hinv]
        end;
    match goal with
    | |- context [connectAndList serverName ?c] =>
        destruct (connectAndList serverName c) as [tools|]; [| exact Hinv]
    end;
    now apply registerTools_invariant.
Qed.

End RegistryInvariant.

(** X20.  A registered MCP tool calls what its name says: the name it is
    registered under is the name of the server its calls go to, an
    underscore, and the name of the tool it calls there, also when several
    servers and tools compete for one name; and its description is never
    empty. *)
Theorem initializeMCPTools_name_matches_call
    (isZero : string -> bool) (characters : string -> list string)
    (process_env : gmap string string) (homedir PROJECT_ROOT : string)
    (connectAndList : string -> Chat.JValue -> result (list Mcp.ListedTool))
    (mcpConfig : Chat.JValue) (name : string) (t : Mcp.McpTool) :
  Mcp.initializeMCPToolsFrom isZero characters process_env homedir PROJECT_ROOT
    connectAndList mcpConfig !! name = Some t ->
  name = Mcp.client t +:+ "_" +:+ Mcp.calls t
  /\ Mcp.description t <> "".
Proof.
  unfold Mcp.initializeMCPToolsFrom.
  destruct (Json.property "mcpServers" mcpConfig) as [mcpServers|];
    [| now rewrite lookup_empty].
  destruct (Json.truthyValue isZero mcpServers); [| now rewrite lookup_empty].
  apply (servers_invariant isZero characters process_env homedir PROJECT_ROOT
           connectAndList
           (fun name t => name = Mcp.client t +:+ "_" +:+ Mcp.calls t
                          /\ Mcp.description t <> "")).
  - intros serverName listed. split; [reflexivity |]. simpl.
    destruct (Mcp.listed_description listed) as [[|c d]|]; discriminate.
  - intros name' t'. now rewrite lookup_empty.
Qed.

Lemma initializeMCPTools_name_matches_call_witness :
  let t := Mcp.createToolFromMCP sampleIsZero sampleCharacters "git"
             {| Mcp.listed_name := "commit";
                Mcp.listed_description := None;
                Mcp.listed_inputSchema := None |} in
  "git_commit" = Mcp.client t +:+ "_" +:+ Mcp.calls t
  /\ Mcp.description t <> "".
Proof.
  apply (initializeMCPTools_name_matches_call sampleIsZero sampleCharacters
           sampleEnv "/home/u" "/app" sampleConnect sampleMcpConfig).
  vm_compute. reflexivity.
Defined.

Section ConfigFileFacts.
Variable cwd : string.
Variable JSON_parse : string -> result Chat.JValue.

Lemma readConfigFile_parsed (st : Fs.fs) (configPath content : string)
      (config : Chat.JValue) :
  Fs.lookupPath cwd st configPath = Some (Fs.File content) ->
  JSON_parse content = Ok config ->
  Mcp.readConfigFile cwd JSON_parse st configPath = Some config.
Proof.
  intros Hfile Hparse. unfold Mcp.readConfigFile, Fs.existsSync, Fs.readFileSync.
  now rewrite Hfile, Hparse.
Qed.

Lemma readConfigFile_unusable (st : Fs.fs) (configPath : string) :
  (forall content,
     Fs.lookupPath cwd st configPath = Some (Fs.File content) ->
     exists message, JSON_parse content = Throw message) ->
  Mcp.readConfigFile cwd JSON_parse st configPath = None.
Proof.
  intros Hbad. unfold Mcp.readConfigFile, Fs.existsSync, Fs.readFileSync.
  destruct (Fs.lookupPath cwd st configPath) as [[content|]|]; try reflexivity.
  destruct (Hbad content eq_refl) as [message ->]. reflexivity.
Qed.

End ConfigFileFacts.

(** X21.  The project's [.cursor/mcp.json] comes first and the one in the
    home directory is the fallback: a project file that parses is the
    configuration, whatever the home directory holds; when the project
    file is missing, is a directory or does not parse, a file in the home
    directory that parses is the configuration; and when neither file can
    be used the configuration is [null] and no MCP tool is loaded. *)
Theorem readMCPConfig_project_then_global
    (isZero : string -> bool) (characters : string -> list string)
    (process_env : gmap string string) (homedir PROJECT_ROOT cwd : string)
    (JSON_parse : string -> result Chat.JValue)
    (connectAndList : string -> Chat.JValue -> result (list Mcp.ListedTool))
    (st : Fs.fs) :
  let projectConfigPath := PathList.join [PROJECT_ROOT; ".cursor"; "mcp.json"] in
  let globalConfigPath := PathList.join [homedir; ".cursor"; "mcp.json"] in
  let unusable configPath :=
    forall content,
      Fs.lookupPath cwd st configPath = Some (Fs.File content) ->
      exists message, JSON_parse content = Throw message in
  let config := Mcp.readMCPConfig homedir PROJECT_ROOT cwd JSON_parse st in
  (forall content parsed,
     Fs.lookupPath cwd st projectConfigPath = Some (Fs.File content) ->
     JSON_parse content = Ok parsed -> config = parsed)
  /\ (forall content parsed,
        unusable projectConfigPath ->
        Fs.lookupPath cwd st globalConfigPath = Some (Fs.File content) ->
        JSON_parse content = Ok parsed -> config = parsed)
  /\ (unusable projectConfigPath -> unusable globalConfigPath ->
      config = Chat.JNull
      /\ Mcp.initializeMCPTools isZero characters process_env homedir PROJECT_ROOT
           cwd JSON_parse connectAndList st = ∅).
Proof.
  cbv zeta. unfold Mcp.initializeMCPTools, Mcp.readMCPConfig. split; [| split].
  - intros content parsed Hfile Hparse.
    now rewrite (readConfigFile_parsed cwd JSON_parse st _ content parsed Hfile Hparse).
  - intros content parsed Hproject Hfile Hparse.
    rewrite (readConfigFile_unusable cwd JSON_parse st _ Hproject).
    now rewrite (readConfigFile_parsed cwd JSON_parse st _ content parsed Hfile Hparse).
  - intros Hproject Hglobal.
    rewrite (readConfigFile_unusable cwd JSON_parse st _ Hproject).
    rewrite (readConfigFile_unusable cwd JSON_parse st _ Hglobal).
    split; reflexivity.
Qed.

(** ** The skill tools *)

Section ScriptFacts.
Context {World : Type}.
Variable toLowerCase : string -> string.
Variable tmpdir : string.
Variable freshStem : World -> string * World.
Variable writeFileSync : string -> string -> World -> result unit * World.
Variable exec : string -> World -> result (string * string) * World.

Abbreviation executeScript :=
  (SkillTool.executeScript toLowerCase tmpdir freshStem writeFileSync exec).
Abbreviation runCommand := (SkillTool.runCommand exec).
Abbreviation runTempFile :=
  (SkillTool.runTempFile tmpdir freshStem writeFileSync exec).
Abbreviation runScripts :=
  (SkillTool.runScripts toLowerCase tmpdir freshStem writeFileSync exec).

Abbreviation wellShaped := SkillTool.wellShaped.

Lemma failed_wellShaped (message fallback : string) :
  fallback <> "" -> wellShaped (SkillTool.failed message fallback).
Proof.
  intros Hfallback. unfold SkillTool.wellShaped, SkillTool.failed. simpl.
  split; [reflexivity |]. eexists. split; [reflexivity |].
  destruct message; [exact Hfallback | discriminate].
Qed.

Lemma runCommand_wellShaped (command : string) (w : World) :
  wellShaped (runCommand command w).1.
Proof.
  unfold SkillTool.runCommand.
  destruct (exec command w) as [[[stdout stderr]|message] w'].
  - unfold SkillTool.wellShaped. simpl.
    destruct stdout; [| discriminate]. destruct stderr; discriminate.
  - now apply failed_wellShaped.
Qed.

Lemma runTempFile_wellShaped (extension interpreter code : string) (w : World) :
  wellShaped (runTempFile extension interpreter code w).1.
Proof.
  unfold SkillTool.runTempFile.
  destruct (freshStem w) as [stem w1].
  destruct (writeFileSync _ code w1) as [[[]|message] w2].
  - apply runCommand_wellShaped.
  - now apply failed_wellShaped.
Qed.

(** The blocks that were run, by what [executionResults] tells of them. *)
Lemma runScripts_blocks (scripts : list Skills.CodeBlock) :
  forall w : World,
    map (fun e => (SkillTool.exec_index e, SkillTool.exec_language e,
                   SkillTool.exec_code e))
        (runScripts scripts w).1
    = map (fun b => (Skills.index b, Skills.language b, Skills.code b)) scripts.
Proof.
  induction scripts as [|script rest IH]; intros w; simpl; [reflexivity |].
  destruct (executeScript _ _ w) as [result w1].
  specialize (IH w1). destruct (runScripts rest w1) as [results w2].
  simpl in *. now rewrite IH.
Qed.

(** The loop runs the scripts one after the other: there is a sequence of
    states, from the state before the loop to the state after it, in which
    every script is run on the state the script before it left, and the
    entry of a script holds what that run returned. *)
Lemma runScripts_trace (scripts : list Skills.CodeBlock) :
  forall w : World,
    exists worlds : list World,
      length (runScripts scripts w).1 = length scripts
      /\ worlds !! 0 = Some w
      /\ worlds !! length scripts = Some (runScripts scripts w).2
      /\ forall k script,
           scripts !! k = Some script ->
           exists before after,
             worlds !! k = Some before
             /\ worlds !! S k = Some after
             /\ (runScripts scripts w).1 !! k
                = Some {| SkillTool.exec_index := Skills.index script;
                          SkillTool.exec_language := Skills.language script;
                          SkillTool.exec_code := Skills.code script;
                          SkillTool.exec_result :=
                            (executeScript (Skills.language script)
                               (Skills.code script) before).1 |}
             /\ after = (executeScript (Skills.language script)
                           (Skills.code script) before).2.
Proof.
  induction scripts as [|first rest IH]; intros w.
  - exists [w]. simpl. repeat split. intros k script Hk. discriminate.
  - cbn [SkillTool.runScripts].
    destruct (executeScript (Skills.language first) (Skills.code first) w)
      as [result w1] eqn:Efirst.
    destruct (IH w1) as (worlds & Hlen & Hstart & Hend & Hsteps).
    destruct (runScripts rest w1) as [results w2] eqn:Erest.
    exists (w :: worlds). cbn [fst snd length] in *.
    split; [now rewrite Hlen |]. split; [reflexivity |].
    split; [exact Hend |].
    intros k script Hk. destruct k as [|k].
    + injection Hk as <-. exists w, w1.
      split; [reflexivity |]. split; [exact Hstart |].
      rewrite Efirst. split; reflexivity.
    + destruct (Hsteps k script Hk) as (before & after & Hb & Ha & Hr & Hafter).
      exists before, after. auto.
Qed.

End ScriptFacts.

Lemma catalog_flag (b : Skills.CodeBlock) :
  SkillTool.oneOf (Skills.executableLanguages ++ [""]) (Skills.language b)
  = Skills.isExecutable b.
Proof.
  unfold SkillTool.oneOf, Skills.isExecutable.
  rewrite existsb_app. cbn [existsb]. now rewrite orb_false_r.
Qed.



(** *** The execute function of a skill tool *)

Lemma numbered_lookup (blocks : list Skills.CodeBlock) (i : nat) (b : Skills.CodeBlock) :
  map Skills.index blocks = seq 0 (length blocks) ->
  blocks !! i = Some b -> Skills.index b = i.
Proof.
  intros Hnum Hb.
  assert (Hi : map Skills.index blocks !! i = Some (Skills.index b)).
  { now rewrite list_lookup_fmap, Hb. }
  rewrite Hnum in Hi. apply lookup_seq in Hi. lia.
Qed.

Lemma loadSkill_flag (toLowerCase trim : string -> string) (content : string)
      (i : nat) (b : Skills.CodeBlock) :
  Skills.codeBlocks (Skills.loadSkill toLowerCase trim content) !! i = Some b ->
  Skills.isExecutable b = true ->
  Skills.hasExecutableScripts (Skills.loadSkill toLowerCase trim content) = true.
Proof.
  simpl. intros Hb Hexec. apply existsb_exists. exists b. split; [| exact Hexec].
  apply list_elem_of_In. now apply (list_elem_of_lookup_2 _ i).
Qed.

(** X24.  Asked to execute with a [scriptIndex] that points at an
    executable block of a scanned skill, the skill tool runs that block
    and no other: it reports one executed script, whose entry carries the
    index asked for, the language and the code of the block and the
    outcome of [executeScript] on them. *)
Theorem executeSkill_runs_the_indexed_script
    {World : Type} (toLowerCase trim : string -> string) (tmpdir : string)
    (freshStem : World -> string * World)
    (writeFileSync : string -> string -> World -> result unit * World)
    (exec : string -> World -> result (string * string) * World)
    (skill : SkillTool.Skill) (content task : string) (context : option string)
    (i : nat) (b : Skills.CodeBlock) (w : World) :
  SkillTool.skill_info skill = Skills.loadSkill toLowerCase trim content ->
  Skills.codeBlocks (SkillTool.skill_info skill) !! i = Some b ->
  Skills.isExecutable b = true ->
  let run :=
    SkillTool.executeScript toLowerCase tmpdir freshStem writeFileSync exec
      (Skills.language b) (Skills.code b) w in
  SkillTool.executeSkill toLowerCase tmpdir freshStem writeFileSync exec
    skill task context (Some true) (Some (SkillTool.ElementAt i)) w
  = (SkillTool.ScriptsRun (SkillTool.skill_name skill)
       (SkillTool.skill_description skill) (SkillTool.skill_content skill)
       task (default "" context) 1
       [ {| SkillTool.exec_index := i;
            SkillTool.exec_language := Skills.language b;
            SkillTool.exec_code := Skills.code b;
            SkillTool.exec_result := run.1 |} ]
       ("Skill " +:+ SkillTool.skill_name skill
        +:+ " executed. 1 script(s) executed."),
     run.2).
Proof.
  intros Hinfo Hb Hexec. cbv zeta. unfold SkillTool.executeSkill.
  assert (Hflag : Skills.hasExecutableScripts (SkillTool.skill_info skill) = true).
  { rewrite Hinfo in *. exact (loadSkill_flag _ _ _ i b Hb Hexec). }
  assert (Hindex : Skills.index b = i).
  { apply (numbered_lookup (Skills.codeBlocks (SkillTool.skill_info skill))); [| exact Hb].
    rewrite Hinfo. apply extractGo_indices. }
  assert (Hlen : Nat.eqb (length (Skills.codeBlocks (SkillTool.skill_info skill))) 0 = false).
  { destruct (Skills.codeBlocks (SkillTool.skill_info skill)); [discriminate | reflexivity]. }
  rewrite Hflag, Hlen. simpl. rewrite Hb. simpl. rewrite Hexec. simpl.
  destruct (SkillTool.executeScript _ _ _ _ _ _ _ w) as [result w1].
  simpl. now rewrite Hindex.
Qed.

Lemma executeSkill_runs_the_indexed_script_witness :
  (SkillTool.executeSkill Sample.asciiLower "/tmp" sampleFreshStem sampleWriteTemp
     sampleExec sampleSkillRecord "say hi" None (Some true)
     (Some (SkillTool.ElementAt 0)) []).2
  = ["echo hi"].
Proof.
  rewrite (executeSkill_runs_the_indexed_script Sample.asciiLower Sample.asciiTrim
             "/tmp" sampleFreshStem sampleWriteTemp sampleExec sampleSkillRecord
             sampleSkill "say hi" None 0
             {| Skills.language := "bash"; Skills.code := "echo hi"; Skills.index := 0 |}
             [] eq_refl).
  - vm_compute. reflexivity.
  - vm_compute. reflexivity.
  - reflexivity.
Defined.

(** X25.  Asked to execute without a [scriptIndex], the skill tool runs
    every executable block of the skill, in the order of the descriptor,
    and only those.  There is a sequence of states of the machine, from
    the state before the call to the state after it, in which each
    executable block is run by [executeScript] on the state the block
    before it left; [executionResults] has one entry for each of these
    blocks, with its index, its language, its code and what its run
    returned, whether the run succeeded or failed; and [scriptsExecuted]
    and the message give their number. *)
Theorem executeSkill_runs_every_executable_script
    {World : Type} (toLowerCase : string -> string) (tmpdir : string)
    (freshStem : World -> string * World)
    (writeFileSync : string -> string -> World -> result unit * World)
    (exec : string -> World -> result (string * string) * World)
    (skill : SkillTool.Skill) (task : string) (context : option string) (w : World) :
  Skills.hasExecutableScripts (SkillTool.skill_info skill) = true ->
  Skills.codeBlocks (SkillTool.skill_info skill) <> [] ->
  let scripts :=
    List.filter Skills.isExecutable (Skills.codeBlocks (SkillTool.skill_info skill)) in
  let run script :=
    SkillTool.executeScript toLowerCase tmpdir freshStem writeFileSync exec
      (Skills.language script) (Skills.code script) in
  exists (executionResults : list SkillTool.Execution) (worlds : list World) (w' : World),
    SkillTool.executeSkill toLowerCase tmpdir freshStem writeFileSync exec
      skill task context (Some true) None w
    = (SkillTool.ScriptsRun (SkillTool.skill_name skill)
         (SkillTool.skill_description skill) (SkillTool.skill_content skill)
         task (default "" context) (length scripts) executionResults
         ("Skill " +:+ SkillTool.skill_name skill +:+ " executed. "
          +:+ pretty (length scripts) +:+ " script(s) executed."),
       w')
    /\ length executionResults = length scripts
    /\ worlds !! 0 = Some w
    /\ worlds !! length scripts = Some w'
    /\ forall k script,
         scripts !! k = Some script ->
         exists before after,
           worlds !! k = Some before
           /\ worlds !! S k = Some after
           /\ executionResults !! k
              = Some {| SkillTool.exec_index := Skills.index script;
                        SkillTool.exec_language := Skills.language script;
                        SkillTool.exec_code := Skills.code script;
                        SkillTool.exec_result := (run script before).1 |}
           /\ after = (run script before).2.
Proof.
  intros Hflag Hblocks. cbv zeta. unfold SkillTool.executeSkill.
  assert (Hlen : Nat.eqb (length (Skills.codeBlocks (SkillTool.skill_info skill))) 0 = false).
  { destruct (Skills.codeBlocks (SkillTool.skill_info skill)); [congruence | reflexivity]. }
  rewrite Hflag, Hlen. cbn [default andb negb SkillTool.scriptsToExecute].
  destruct (runScripts_trace toLowerCase tmpdir freshStem writeFileSync exec
              (List.filter Skills.isExecutable
                 (Skills.codeBlocks (SkillTool.skill_info skill))) w)
    as (worlds & Hcount & Hstart & Hend & Hsteps).
  destruct (SkillTool.runScripts _ _ _ _ _ _ w) as [results w'].
  cbn [fst snd] in *. exists results, worlds, w'.
  rewrite Hcount. auto.
Qed.

Lemma executeSkill_runs_every_executable_script_witness :
  (SkillTool.executeSkill Sample.asciiLower "/tmp" sampleFreshStem sampleWriteTemp
     sampleExec sampleSkillRecord "say hi" None (Some true) None []).2
  = ["ls"; "echo hi"].
Proof.
  destruct (executeSkill_runs_every_executable_script Sample.asciiLower "/tmp"
              sampleFreshStem sampleWriteTemp sampleExec sampleSkillRecord
              "say hi" None [])
    as (results & worlds & w' & Hrun & _ & Hstart & Hend & Hsteps).
  - vm_compute. reflexivity.
  - vm_compute. discriminate.
  - rewrite Hrun. cbn [snd].
    destruct (Hsteps 0 {| Skills.language := "bash"; Skills.code := "echo hi";
                          Skills.index := 0 |} eq_refl)
      as (w0 & w1 & Hw0 & Hw1 & _ & Hfirst).
    destruct (Hsteps 1 {| Skills.language := ""; Skills.code := "ls";
                          Skills.index := 2 |} eq_refl)
      as (w1' & w2 & Hw1' & Hw2 & _ & Hsecond).
    rewrite Hstart in Hw0. injection Hw0 as <-.
    rewrite Hw1 in Hw1'. injection Hw1' as <-.
    change (length (List.filter Skills.isExecutable
                      (Skills.codeBlocks (SkillTool.skill_info sampleSkillRecord))))
      with 2 in Hend.
    rewrite Hw2 in Hend. injection Hend as <-.
    rewrite Hsecond, Hfirst. reflexivity.
Defined.

(** X26.  Unless it is asked to execute, and whenever the skill has no
    executable script, the skill tool runs nothing: the state of the
    machine is the one before the call, and the answer is the skill's
    instructions with the catalogue of all its code blocks, in order, each
    marked executable exactly when the scanner counts it as such. *)
Theorem executeSkill_only_on_request
    {World : Type} (toLowerCase : string -> string) (tmpdir : string)
    (freshStem : World -> string * World)
    (writeFileSync : string -> string -> World -> result unit * World)
    (exec : string -> World -> result (string * string) * World)
    (skill : SkillTool.Skill) (task : string) (context : option string)
    (shouldExecute : option bool) (scriptIndex : option SkillTool.ScriptIndex)
    (w : World) :
  shouldExecute <> Some true
  \/ Skills.hasExecutableScripts (SkillTool.skill_info skill) = false ->
  exists message,
    SkillTool.executeSkill toLowerCase tmpdir freshStem writeFileSync exec
      skill task context shouldExecute scriptIndex w
    = (SkillTool.SkillLoaded (SkillTool.skill_name skill)
         (SkillTool.skill_description skill) (SkillTool.skill_content skill)
         (map (fun b => {| SkillTool.entry_language := Skills.language b;
                           SkillTool.entry_code := Skills.code b;
                           SkillTool.entry_index := Skills.index b;
                           SkillTool.entry_executable := Skills.isExecutable b |})
              (Skills.codeBlocks (SkillTool.skill_info skill)))
         (Skills.hasExecutableScripts (SkillTool.skill_info skill))
         task (default "" context) message, w).
Proof.
  intros Hoff. unfold SkillTool.executeSkill.
  assert (Hcond : default false shouldExecute
                  && Skills.hasExecutableScripts (SkillTool.skill_info skill) = false).
  { destruct Hoff as [Hno | Hflag].
    - destruct shouldExecute as [[|]|]; try reflexivity. congruence.
    - rewrite Hflag. apply andb_false_r. }
  rewrite Hcond. simpl. eexists. f_equal. f_equal.
  apply map_ext. intros b. unfold SkillTool.catalogEntry. now rewrite catalog_flag.
Qed.

Lemma executeSkill_only_on_request_witness :
  (SkillTool.executeSkill Sample.asciiLower "/tmp" sampleFreshStem sampleWriteTemp
     sampleExec sampleSkillRecord "say hi" None None (Some (SkillTool.ElementAt 0)) []).2
  = [].
Proof.
  destruct (executeSkill_only_on_request Sample.asciiLower "/tmp"
              sampleFreshStem sampleWriteTemp sampleExec sampleSkillRecord
              "say hi" None None (Some (SkillTool.ElementAt 0)) [])
    as (message & Hrun).
  - left. discriminate.
  - rewrite Hrun. reflexivity.
Defined.

(** X27.  A [scriptIndex] that selects no executable block runs nothing,
    and yet the answer is a success that reports zero executed scripts:
    this is so for a number that is no position of the list (negative,
    fractional or past the end) and for the position of a block that is
    not executable. *)
Theorem executeSkill_index_off_target
    {World : Type} (toLowerCase : string -> string) (tmpdir : string)
    (freshStem : World -> string * World)
    (writeFileSync : string -> string -> World -> result unit * World)
    (exec : string -> World -> result (string * string) * World)
    (skill : SkillTool.Skill) (task : string) (context : option string)
    (scriptIndex : SkillTool.ScriptIndex) (w : World) :
  Skills.hasExecutableScripts (SkillTool.skill_info skill) = true ->
  Skills.codeBlocks (SkillTool.skill_info skill) <> [] ->
  match scriptIndex with
  | SkillTool.NoElement => True
  | SkillTool.ElementAt i =>
      match Skills.codeBlocks (SkillTool.skill_info skill) !! i with
      | Some b => Skills.isExecutable b = false
      | None => True
      end
  end ->
  SkillTool.executeSkill toLowerCase tmpdir freshStem writeFileSync exec
    skill task context (Some true) (Some scriptIndex) w
  = (SkillTool.ScriptsRun (SkillTool.skill_name skill)
       (SkillTool.skill_description skill) (SkillTool.skill_content skill)
       task (default "" context) 0 []
       ("Skill " +:+ SkillTool.skill_name skill
        +:+ " executed. 0 script(s) executed."), w).
Proof.
  intros Hflag Hblocks Hoff. unfold SkillTool.executeSkill.
  assert (Hlen : Nat.eqb (length (Skills.codeBlocks (SkillTool.skill_info skill))) 0 = false).
  { destruct (Skills.codeBlocks (SkillTool.skill_info skill)); [congruence | reflexivity]. }
  assert (Hnone : SkillTool.scriptsToExecute
                    (Skills.codeBlocks (SkillTool.skill_info skill)) (Some scriptIndex)
                  = []).
  { destruct scriptIndex as [i|]; [| reflexivity]. simpl.
    destruct (Skills.codeBlocks (SkillTool.skill_info skill) !! i) as [b|];
      [| reflexivity].
    simpl. now rewrite Hoff. }
  rewrite Hflag, Hlen, Hnone. reflexivity.
Qed.

Lemma executeSkill_index_off_target_witness :
  SkillTool.executeSkill Sample.asciiLower "/tmp" sampleFreshStem sampleWriteTemp
    sampleExec sampleSkillRecord "say hi" None (Some true)
    (Some (SkillTool.ElementAt 1)) []
  = (SkillTool.ScriptsRun "demo" "A demonstration" "Run this:" "say hi" "" 0 []
       "Skill demo executed. 0 script(s) executed.", []).
Proof.
  apply (executeSkill_index_off_target Sample.asciiLower "/tmp" sampleFreshStem
           sampleWriteTemp sampleExec sampleSkillRecord "say hi" None
           (SkillTool.ElementAt 1) []).
  - vm_compute. reflexivity.
  - vm_compute. discriminate.
  - vm_compute. reflexivity.
Defined.

(** ** The scan of the skills directory *)

Lemma append_inj_l (p a b : string) : p +:+ a = p +:+ b -> a = b.
Proof.
  induction p as [|c p IH]; simpl; [trivial |].
  intros [= H]. exact (IH H).
Qed.

Lemma removelast_last_snoc {A : Type} (k dir : list A) (name : A) :
  removelast k = dir /\ last k = Some name <-> k = dir ++ [name].
Proof.
  split.
  - intros [Hinit Hlast].
    destruct k as [|x k'] using rev_ind; [discriminate |].
    rewrite last_snoc in Hlast. injection Hlast as <-.
    rewrite removelast_last in Hinit. now subst.
  - intros ->. split; [apply removelast_last | apply last_snoc].
Qed.

Lemma childDirectories_In (st : Fs.fs) (dir : list string) (name : string) :
  In name (SkillTool.childDirectories st dir) <-> st !! (dir ++ [name]) = Some Fs.Dir.
Proof.
  unfold SkillTool.childDirectories.
  rewrite <- list_elem_of_In, list_elem_of_omap. split.
  - intros ([k n] & Hin & Hname). apply elem_of_map_to_list in Hin.
    simpl in Hname. destruct n as [content|]; [discriminate |].
    destruct (decide (removelast k = dir)) as [Hinit|]; [| discriminate].
    assert (Hk : k = dir ++ [name]) by (apply removelast_last_snoc; auto).
    now subst k.
  - intros Hdir. exists (dir ++ [name], Fs.Dir). split.
    + now apply elem_of_map_to_list.
    + simpl. rewrite removelast_last.
      destruct (decide (dir = dir)); [apply last_snoc | congruence].
Qed.

Section ScanFacts.
Variables toLowerCase trim : string -> string.
Variable cwd : string.
Variable st : Fs.fs.
Variable skillsDir : string.

Abbreviation loadSkillDir :=
  (SkillTool.loadSkillDir toLowerCase trim cwd st skillsDir).
Abbreviation descriptor :=
  (fun skillDir => PathList.join [skillsDir; skillDir; "SKILL.md"]).

Lemma loadSkillDir_lookup (skills : gmap string Skills.SkillInfo)
      (skillDir key : string) :
  loadSkillDir skills skillDir !! key
  = match Fs.lookupPath cwd st (descriptor skillDir) with
    | Some (Fs.File content) =>
        if decide (key = "skill_" +:+ skillDir)
        then Some (Skills.loadSkill toLowerCase trim content)
        else skills !! key
    | _ => skills !! key
    end.
Proof.
  unfold SkillTool.loadSkillDir, Fs.existsSync, Fs.readFileSync.
  destruct (Fs.lookupPath cwd st (descriptor skillDir)) as [[content|]|];
    try reflexivity.
  destruct (decide (key = "skill_" +:+ skillDir)) as [->|Hne].
  - apply lookup_insert_eq.
  - apply lookup_insert_ne. congruence.
Qed.

(** A key of the scan comes from a directory of the list that has a
    descriptor, and holds what the descriptor gives. *)
Lemma loadSkills_sound (dirs : list string) :
  forall (skills : gmap string Skills.SkillInfo) (key : string)
         (info : Skills.SkillInfo),
    fold_left loadSkillDir dirs skills !! key = Some info ->
    skills !! key = Some info
    \/ exists skillDir content,
         In skillDir dirs
         /\ key = "skill_" +:+ skillDir
         /\ Fs.lookupPath cwd st (descriptor skillDir) = Some (Fs.File content)
         /\ info = Skills.loadSkill toLowerCase trim content.
Proof.
  induction dirs as [|d rest IH]; intros skills key info; simpl; [auto |].
  intros Hfold. destruct (IH _ _ _ Hfold) as [Hstep | (d' & content & Hin & H)].
  - rewrite loadSkillDir_lookup in Hstep.
    destruct (Fs.lookupPath cwd st (descriptor d)) as [[content|]|] eqn:E; auto.
    destruct (decide (key = "skill_" +:+ d)) as [->|]; auto.
    right. exists d, content. injection Hstep as <-. auto.
  - right. exists d', content. auto.
Qed.

Lemma loadSkills_complete (dirs : list string) (skillDir content : string) :
  Fs.lookupPath cwd st (descriptor skillDir) = Some (Fs.File content) ->
  forall skills : gmap string Skills.SkillInfo,
    skills !! ("skill_" +:+ skillDir)
    = Some (Skills.loadSkill toLowerCase trim content)
    \/ In skillDir dirs ->
    fold_left loadSkillDir dirs skills !! ("skill_" +:+ skillDir)
    = Some (Skills.loadSkill toLowerCase trim content).
Proof.
  intros Hfile. induction dirs as [|d rest IH]; intros skills; simpl.
  - intros [H | []]. exact H.
  - intros Hcase. apply IH. rewrite loadSkillDir_lookup.
    destruct (decide (d = skillDir)) as [->|Hne].
    + rewrite Hfile. destruct (decide _); [auto | congruence].
    + destruct Hcase as [Hset | [Heq | Hin]]; [| congruence | auto].
      left. destruct (Fs.lookupPath cwd st (descriptor d)) as [[c|]|]; try exact Hset.
      destruct (decide ("skill_" +:+ skillDir = "skill_" +:+ d)) as [Heq|]; [| exact Hset].
      apply append_inj_l in Heq. congruence.
Qed.

End ScanFacts.

(** X28.  The scan of the skills directory registers the skill [skill_d]
    for exactly the entries [d] of the directory that are directories and
    hold a regular file [SKILL.md], with the code blocks and the flag
    computed from that file.  A directory without the file, a stray file,
    and a skills directory that is missing or is no directory, register
    nothing. *)
Theorem loadSkills_registers
    (toLowerCase trim : string -> string) (homedir cwd : string) (st : Fs.fs)
    (key : string) (info : Skills.SkillInfo) :
  let skillsDir := PathList.join [homedir; ".cursor"; "skills-cursor"] in
  SkillTool.loadSkills toLowerCase trim homedir cwd st !! key = Some info
  <-> exists skillDir content,
        key = "skill_" +:+ skillDir
        /\ Fs.lookupPath cwd st skillsDir = Some Fs.Dir
        /\ st !! (Path.components cwd skillsDir ++ [skillDir]) = Some Fs.Dir
        /\ Fs.lookupPath cwd st (PathList.join [skillsDir; skillDir; "SKILL.md"])
           = Some (Fs.File content)
        /\ info = Skills.loadSkill toLowerCase trim content.
Proof.
  cbv zeta. unfold SkillTool.loadSkills.
  set (skillsDir := PathList.join [homedir; ".cursor"; "skills-cursor"]).
  destruct (Fs.lookupPath cwd st skillsDir) as [[c|]|] eqn:Edir.
  - rewrite lookup_empty. split; [discriminate |].
    intros (d & content & _ & H & _). discriminate.
  - split.
    + intros Hkey. apply loadSkills_sound in Hkey.
      destruct Hkey as [Hempty | (d & content & Hin & -> & Hfile & ->)].
      * rewrite lookup_empty in Hempty. discriminate.
      * exists d, content. repeat split; try assumption.
        now apply childDirectories_In.
    + intros (d & content & -> & _ & Hd & Hfile & ->).
      apply loadSkills_complete; [exact Hfile |].
      right. now apply childDirectories_In.
  - rewrite lookup_empty. split; [discriminate |].
    intros (d & content & _ & H & _). discriminate.
Qed.

Example loadSkills_sample :
  dom (SkillTool.loadSkills Sample.asciiLower Sample.asciiTrim "/home/u" "/app"
         sampleSkillsFs)
  = {[ "skill_deploy"; "skill_notes" ]}.
Proof. vm_compute. reflexivity. Qed.

(** ** The registry after the loaders *)

Lemma lacksChar_append_char (c : ascii) (a b : string) :
  lacksChar c (a +:+ String c b) = false.
Proof.
  induction a as [|d a IH]; simpl.
  - now rewrite Ascii.eqb_refl.
  - rewrite IH. apply andb_false_r.
Qed.

(** X29.  The loaders cannot shadow a base tool: every name an MCP tool or
    a skill tool is registered under holds an underscore, and the names of
    the five base tools hold none, so that in the registry built from the
    loaded MCP tools and skills each base name still gives the base
    tool. *)
Theorem base_tools_never_shadowed
    {Tool : Type}
    (calculateTool getCurrentTimeTool readFileTool writeFileTool deleteFileTool : Tool)
    (toolOfMcp : Mcp.McpTool -> Tool) (toolOfSkill : Skills.SkillInfo -> Tool)
    (isZero : string -> bool) (characters : string -> list string)
    (process_env : gmap string string) (homedir PROJECT_ROOT cwd : string)
    (connectAndList : string -> Chat.JValue -> result (list Mcp.ListedTool))
    (toLowerCase trim : string -> string)
    (mcpConfig : Chat.JValue) (st : Fs.fs) :
  let mcpTools :=
    toolOfMcp <$> Mcp.initializeMCPToolsFrom isZero characters process_env
                    homedir PROJECT_ROOT connectAndList mcpConfig in
  let skillTools :=
    toolOfSkill <$> SkillTool.loadSkills toLowerCase trim homedir cwd st in
  let tools :=
    Registry.getTools calculateTool getCurrentTimeTool readFileTool
      writeFileTool deleteFileTool mcpTools skillTools in
  tools !! "calculate" = Some calculateTool
  /\ tools !! "getCurrentTime" = Some getCurrentTimeTool
  /\ tools !! "readFile" = Some readFileTool
  /\ tools !! "writeFile" = Some writeFileTool
  /\ tools !! "deleteFile" = Some deleteFileTool.
Proof.
  cbv zeta.
  assert (Hmcp : forall name,
             lacksChar "_" name = true ->
             Mcp.initializeMCPToolsFrom isZero characters process_env homedir
               PROJECT_ROOT connectAndList mcpConfig !! name = None).
  { intros name Hplain. apply eq_None_not_Some. intros Hsome.
    unfold Mcp.initializeMCPToolsFrom in Hsome.
    destruct (Json.property "mcpServers" mcpConfig) as [mcpServers|];
      [| rewrite lookup_empty in Hsome; now destruct Hsome].
    destruct (Json.truthyValue isZero mcpServers);
      [| rewrite lookup_empty in Hsome; now destruct Hsome].
    apply servers_is_Some in Hsome.
    destruct Hsome as [[x Hx] | (entry & _ & _ & _ & tools & listed & _ & _ & ->)].
    - rewrite lookup_empty in Hx. discriminate.
    - change (entry.1 +:+ "_" +:+ Mcp.listed_name listed)
        with (entry.1 +:+ String "_" (Mcp.listed_name listed)) in Hplain.
      rewrite lacksChar_append_char in Hplain. discriminate. }
  assert (Hskill : forall name,
             lacksChar "_" name = true ->
             SkillTool.loadSkills toLowerCase trim homedir cwd st !! name = None).
  { intros name Hplain. apply eq_None_not_Some. intros [info Hsome].
    unfold SkillTool.loadSkills in Hsome.
    destruct (Fs.lookupPath cwd st _) as [[c|]|];
      try (rewrite lookup_empty in Hsome; discriminate).
    apply loadSkills_sound in Hsome.
    destruct Hsome as [Hempty | (d & content & _ & -> & _)].
    - rewrite lookup_empty in Hempty. discriminate.
    - discriminate. }
  unfold Registry.getTools.
  repeat split; rewrite !spread_lookup, !lookup_fmap, Hskill, Hmcp by reflexivity;
    reflexivity.
Qed.
